(** * A shallow embedding of the pseudo-Linux command simulator

    The repository holds two variants of one C program, [linux-commands.c]
    and [L2.c].  Both build a directory tree in memory ([struct Dir] blocks
    obtained from [malloc], linked by [parent] and [subdirs] pointers) and
    run shell-like commands against it.  The development below embeds the
    data structures and the command functions of both files and proves or
    refutes the properties the specification states about them.

    Modelling conventions:
    - a C string is a [string] (its bytes up to the terminating NUL);
    - [int] values are [Z]; every count stays between 0 and 16, so no
      wrap-around can occur;
    - a pointer to a [struct Dir] is an [option addr], [None] being [NULL];
    - the heap is a finite map from addresses to blocks, [malloc] takes its
      block (with whatever it contains) from a pool and fails when the
      pool is empty;
    - a fixed-size C array is a list, accessed by index; an access outside
      its bounds, like a dereference of a dangling pointer, is undefined
      behaviour and modelled by the result [Fault];
    - what a command prints is returned as a string. *)

From stdpp Require Import gmap strings list fin_maps pretty.
From Stdlib Require Import ZArith Lia.

Local Open Scope Z_scope.

(** ** Results of C computations *)

Inductive res (A : Type) : Type :=
| Ok (a : A)      (* normal completion *)
| Fault           (* undefined behaviour *)
| OutOfFuel.      (* the loop or recursion was cut by its iteration budget *)
Arguments Ok {A} a.
Arguments Fault {A}.
Arguments OutOfFuel {A}.

Global Instance res_ret : MRet res := fun _ a => Ok a.
Global Instance res_bind : MBind res := fun _ _ k c =>
  match c with
  | Ok a => k a
  | Fault => Fault
  | OutOfFuel => OutOfFuel
  end.

(** ** Constants *)

Definition NAME_LEN : Z := 32.
Definition LINE_LEN : Z := 128.
Definition MAX_FILES : Z := 16.
Definition MAX_SUBDIRS : Z := 16.
Definition MAX_CONTENT : Z := 512.
Definition PERM_LEN : Z := 8.

(** ** Strings *)

Definition nl : string := String (Ascii.ascii_of_nat 10) EmptyString.

(** [puts s] writes [s] and a newline. *)
Definition puts (s : string) : string := s +:+ nl.

(** The first [n] bytes of a string. *)
Fixpoint str_take (n : nat) (s : string) : string :=
  match n, s with
  | O, _ => EmptyString
  | S _, EmptyString => EmptyString
  | S n', String c s' => String c (str_take n' s')
  end.

(** [strncpy(dst, src, n); dst[n] = '\0';] leaves in [dst] the C string
    made of the first [n] bytes of [src] (all of [src] when it is shorter:
    [strncpy] pads with NUL bytes). *)
Definition strncpy (src : string) (n : Z) : string := str_take (Z.to_nat n) src.

(** [strcmp(a, b) == 0] *)
Definition streq (a b : string) : bool := bool_decide (a = b).

(** [printf("%4d", n)] and [printf("%4s", s)]: right-aligned in a field
    of width 4. *)
Fixpoint spaces (n : nat) : string :=
  match n with
  | O => EmptyString
  | S n' => String (Ascii.ascii_of_nat 32) (spaces n')
  end.
Definition pad4 (s : string) : string :=
  spaces (4 - String.length s)%nat +:+ s.
Definition fmt_4d (n : Z) : string := pad4 (pretty n).

(** ** Data structures *)

Definition addr := nat.
Definition ptr := option addr.

Record File := mkFile {
  f_name : string;
  f_size : Z;
  f_perm : string;
  f_content : string
}.

Record Dir := mkDir {
  d_name : string;
  d_parent : ptr;
  d_files : list File;
  d_file_count : Z;
  d_subdirs : list ptr;
  d_subdir_count : Z
}.

Definition set_name (d : Dir) (s : string) : Dir :=
  mkDir s (d_parent d) (d_files d) (d_file_count d) (d_subdirs d) (d_subdir_count d).
Definition set_parent (d : Dir) (p : ptr) : Dir :=
  mkDir (d_name d) p (d_files d) (d_file_count d) (d_subdirs d) (d_subdir_count d).
Definition set_files (d : Dir) (fs : list File) : Dir :=
  mkDir (d_name d) (d_parent d) fs (d_file_count d) (d_subdirs d) (d_subdir_count d).
Definition set_file_count (d : Dir) (n : Z) : Dir :=
  mkDir (d_name d) (d_parent d) (d_files d) n (d_subdirs d) (d_subdir_count d).
Definition set_subdirs (d : Dir) (ds : list ptr) : Dir :=
  mkDir (d_name d) (d_parent d) (d_files d) (d_file_count d) ds (d_subdir_count d).
Definition set_subdir_count (d : Dir) (n : Z) : Dir :=
  mkDir (d_name d) (d_parent d) (d_files d) (d_file_count d) (d_subdirs d) n.

Definition set_f_name (f : File) (s : string) : File :=
  mkFile s (f_size f) (f_perm f) (f_content f).
Definition set_f_size (f : File) (n : Z) : File :=
  mkFile (f_name f) n (f_perm f) (f_content f).
Definition set_f_perm (f : File) (s : string) : File :=
  mkFile (f_name f) (f_size f) s (f_content f).
Definition set_f_content (f : File) (s : string) : File :=
  mkFile (f_name f) (f_size f) (f_perm f) s.

(** ** Arrays *)

(** [a[i]] as an rvalue. *)
Definition aget {A : Type} (a : list A) (i : Z) : res A :=
  if decide (0 <= i)
  then match a !! Z.to_nat i with Some x => Ok x | None => Fault end
  else Fault.

(** [a[i] = x] *)
Definition aset {A : Type} (a : list A) (i : Z) (x : A) : res (list A) :=
  if decide (0 <= i < Z.of_nat (length a))
  then Ok (<[Z.to_nat i := x]> a)
  else Fault.

(** ** The heap *)

Record Memory := mkMem {
  cells : gmap addr Dir;     (* the live blocks *)
  pool : list Dir            (* the blocks malloc can still hand out *)
}.

Definition malloc (m : Memory) : Memory * ptr :=
  match pool m with
  | [] => (m, None)
  | b :: rest =>
      let a := fresh (dom (cells m)) in
      (mkMem (<[a := b]> (cells m)) rest, Some a)
  end.

(** [*p] as an rvalue. *)
Definition load (m : Memory) (p : ptr) : res Dir :=
  match p with
  | None => Fault
  | Some a => match cells m !! a with Some d => Ok d | None => Fault end
  end.

(** [*p = d] *)
Definition store (m : Memory) (p : ptr) (d : Dir) : res Memory :=
  match p with
  | None => Fault
  | Some a =>
      match cells m !! a with
      | Some _ => Ok (mkMem (<[a := d]> (cells m)) (pool m))
      | None => Fault
      end
  end.

(** [free(p)]: nothing for [NULL], undefined on a block that is not live. *)
Definition free (m : Memory) (p : ptr) : res Memory :=
  match p with
  | None => Ok m
  | Some a =>
      match cells m !! a with
      | Some d => Ok (mkMem (delete a (cells m)) (d :: pool m))
      | None => Fault
      end
  end.

(** ** Helpers shared by both programs *)

(** [find_file_index]: [n] is the number of iterations the loop has left,
    [d->file_count - i]. *)
Fixpoint find_file_loop (d : Dir) (name : string) (n : nat) (i : Z) : res Z :=
  match n with
  | O => Ok (-1)
  | S n' =>
      f ← aget (d_files d) i;
      if streq (f_name f) name then Ok i
      else find_file_loop d name n' (i + 1)
  end.

Definition find_file_index (m : Memory) (p : ptr) (name : string) : res Z :=
  d ← load m p;
  find_file_loop d name (Z.to_nat (d_file_count d)) 0.

Fixpoint find_subdir_loop (m : Memory) (d : Dir) (name : string)
    (n : nat) (i : Z) : res Z :=
  match n with
  | O => Ok (-1)
  | S n' =>
      c ← aget (d_subdirs d) i;
      sd ← load m c;
      if streq (d_name sd) name then Ok i
      else find_subdir_loop m d name n' (i + 1)
  end.

Definition find_subdir_index (m : Memory) (p : ptr) (name : string) : res Z :=
  d ← load m p;
  find_subdir_loop m d name (Z.to_nat (d_subdir_count d)) 0.

(** [create_dir] of linux-commands.c, [create_dir_node] of L2.c *)
Definition create_dir (m : Memory) (name : string) (parent : ptr)
    : res (Memory * ptr) :=
  let '(m, p) := malloc m in
  match p with
  | None => Ok (m, None)
  | Some _ =>
      d ← load m p;
      let d := set_name d (strncpy name (NAME_LEN - 1)) in
      let d := set_parent d parent in
      let d := set_file_count d 0 in
      let d := set_subdir_count d 0 in
      m ← store m p d;
      Ok (m, p)
  end.

(** The rendering loop of [pwd_cmd], the same in both programs: [i] runs
    from [depth - 1] down to 0, [n] is the number of iterations left.
    An entry of [parts] that was never written holds [None]. *)
Fixpoint pwd_print (parts : list (option string)) (n : nat) (i : Z)
    : res string :=
  match n with
  | O => Ok EmptyString
  | S n' =>
      e ← aget parts i;
      match e with
      | None => Fault
      | Some s =>
          let out :=
            if bool_decide (i = 0) && streq s "/" then "/"
            else s +:+ (if bool_decide (i > 0) then "/" else "") in
          rest ← pwd_print parts n' (i - 1);
          Ok (out +:+ rest)
      end
  end.

(** The two listing loops of [ls_cmd]; [dirline] and [fileline] render one
    entry. *)
Fixpoint ls_subdirs (m : Memory) (d : Dir) (dirline : string -> string)
    (n : nat) (i : Z) : res string :=
  match n with
  | O => Ok EmptyString
  | S n' =>
      c ← aget (d_subdirs d) i;
      sd ← load m c;
      rest ← ls_subdirs m d dirline n' (i + 1);
      Ok (dirline (d_name sd) +:+ rest)
  end.

Fixpoint ls_files (d : Dir) (fileline : File -> string) (n : nat) (i : Z)
    : res string :=
  match n with
  | O => Ok EmptyString
  | S n' =>
      f ← aget (d_files d) i;
      rest ← ls_files d fileline n' (i + 1);
      Ok (fileline f +:+ rest)
  end.

(** The compaction loop of [rm_cmd]:
    [for (i = idx; i < file_count - 1; i++) files[i] = files[i + 1];] *)
Fixpoint rm_shift (fs : list File) (n : nat) (i : Z) : res (list File) :=
  match n with
  | O => Ok fs
  | S n' =>
      f ← aget fs (i + 1);
      fs ← aset fs i f;
      rm_shift fs n' (i + 1)
  end.

(** The loop of [free_dir]; [rec] is the recursive call, and the loop
    reads [d->subdir_count] and [d->subdirs[i]] from the heap each time
    round.  The result carries the addresses released, in order. *)
Fixpoint free_loop (rec : Memory -> ptr -> res (Memory * list addr))
    (fuel : nat) (m : Memory) (d : ptr) (i : Z) : res (Memory * list addr) :=
  match fuel with
  | O => OutOfFuel
  | S fuel' =>
      dd ← load m d;
      if decide (i < d_subdir_count dd) then
        c ← aget (d_subdirs dd) i;
        '(m, t1) ← rec m c;
        '(m, t2) ← free_loop rec fuel' m d (i + 1);
        Ok (m, t1 ++ t2)
      else Ok (m, [])
  end.

(** [free_dir] of linux-commands.c, [free_dir_recursive] of L2.c *)
Fixpoint free_dir (fuel : nat) (m : Memory) (d : ptr)
    : res (Memory * list addr) :=
  match fuel with
  | O => OutOfFuel
  | S fuel' =>
      match d with
      | None => Ok (m, [])
      | Some a =>
          '(m, t) ← free_loop (free_dir fuel') fuel' m d 0;
          m ← free m d;
          Ok (m, t ++ [a])
      end
  end.

(** The file written by [touch_cmd] into the slot [f]: both programs set
    the same four fields ([content[0] = '\0'] makes the content the empty
    C string). *)
Definition touch_init (f : File) (name : string) : File :=
  let f := set_f_name f (strncpy name (NAME_LEN - 1)) in
  let f := set_f_perm f "rw-" in
  let f := set_f_size f 0 in
  set_f_content f "".

(** ** linux-commands.c *)

Module LinuxCommands.

(** The [while (cwd)] loop of [pwd_cmd]; [parts] has 64 entries. *)
Fixpoint pwd_walk (fuel : nat) (m : Memory) (cwd : ptr)
    (parts : list (option string)) (depth : Z)
    : res (list (option string) * Z) :=
  match fuel with
  | O => OutOfFuel
  | S fuel' =>
      match cwd with
      | None => Ok (parts, depth)
      | Some _ =>
          d ← load m cwd;
          parts ← aset parts depth (Some (d_name d));
          pwd_walk fuel' m (d_parent d) parts (depth + 1)
      end
  end.

Definition pwd_cmd (fuel : nat) (m : Memory) (cwd : ptr) : res string :=
  d ← load m cwd;
  match d_parent d with
  | None => Ok (puts "/")
  | Some _ =>
      '(parts, depth) ← pwd_walk fuel m cwd (replicate 64 None) 0;
      out ← pwd_print parts (Z.to_nat depth) (depth - 1);
      Ok (out +:+ nl)
  end.

Definition ls_cmd (m : Memory) (cwd : ptr) (opt : option string)
    : res string :=
  let longfmt :=
    match opt with Some o => streq o "-l" | None => false end in
  d ← load m cwd;
  o1 ← ls_subdirs m d
        (fun n => if longfmt then "drwx ---- " +:+ n +:+ "/" +:+ nl
                  else n +:+ "/" +:+ nl)
        (Z.to_nat (d_subdir_count d)) 0;
  o2 ← ls_files d
        (fun f => if longfmt
                  then "-" +:+ f_perm f +:+ " " +:+ fmt_4d (f_size f)
                       +:+ " " +:+ f_name f +:+ nl
                  else f_name f +:+ nl)
        (Z.to_nat (d_file_count d)) 0;
  Ok (o1 +:+ o2).

Definition touch_cmd (m : Memory) (cwd : ptr) (name : option string)
    : res (Memory * string) :=
  match name with
  | None => Ok (m, puts "usage: touch <name>")
  | Some name =>
      fi ← find_file_index m cwd name;
      taken ← (if bool_decide (fi ≠ -1) then Ok true
               else si ← find_subdir_index m cwd name;
                    Ok (bool_decide (si ≠ -1)));
      if taken : bool then Ok (m, puts "name already exists")
      else
        d ← load m cwd;
        if bool_decide (d_file_count d >= MAX_FILES)
        then Ok (m, puts "file limit reached")
        else
          let i := d_file_count d in
          let d := set_file_count d (i + 1) in
          f ← aget (d_files d) i;
          fs ← aset (d_files d) i (touch_init f name);
          m ← store m cwd (set_files d fs);
          Ok (m, "file '" +:+ name +:+ "' created" +:+ nl)
  end.

Definition rm_cmd (m : Memory) (cwd : ptr) (name : option string)
    : res (Memory * string) :=
  match name with
  | None => Ok (m, puts "usage: rm <name>")
  | Some name =>
      idx ← find_file_index m cwd name;
      if bool_decide (idx < 0) then Ok (m, puts "no such file")
      else
        d ← load m cwd;
        fs ← rm_shift (d_files d) (Z.to_nat (d_file_count d - 1 - idx)) idx;
        let d := set_files d fs in
        let d := set_file_count d (d_file_count d - 1) in
        m ← store m cwd d;
        Ok (m, "file '" +:+ name +:+ "' removed" +:+ nl)
  end.

Definition mv_cmd (m : Memory) (cwd : ptr) (src dst : option string)
    : res (Memory * string) :=
  match src, dst with
  | Some src, Some dst =>
      idx ← find_file_index m cwd src;
      if bool_decide (idx < 0) then Ok (m, puts "source not found")
      else
        fi ← find_file_index m cwd dst;
        taken ← (if bool_decide (fi ≠ -1) then Ok true
                 else si ← find_subdir_index m cwd dst;
                      Ok (bool_decide (si ≠ -1)));
        if taken : bool then Ok (m, puts "destination already exists")
        else
          d ← load m cwd;
          f ← aget (d_files d) idx;
          fs ← aset (d_files d) idx
                 (set_f_name f (strncpy dst (NAME_LEN - 1)));
          m ← store m cwd (set_files d fs);
          Ok (m, "renamed '" +:+ src +:+ "' -> '" +:+ dst +:+ "'" +:+ nl)
  | _, _ => Ok (m, puts "usage: mv <old> <new>")
  end.

Definition mkdir_cmd (m : Memory) (cwd : ptr) (name : option string)
    : res (Memory * string) :=
  match name with
  | None => Ok (m, puts "usage: mkdir <name>")
  | Some name =>
      d ← load m cwd;
      if bool_decide (d_subdir_count d >= MAX_SUBDIRS)
      then Ok (m, puts "subdir limit reached")
      else
        fi ← find_file_index m cwd name;
        taken ← (if bool_decide (fi ≠ -1) then Ok true
                 else si ← find_subdir_index m cwd name;
                      Ok (bool_decide (si ≠ -1)));
        if taken : bool then Ok (m, puts "name already exists")
        else
          '(m, p) ← create_dir m name cwd;
          match p with
          | None => Ok (m, puts "memory error")
          | Some _ =>
              d ← load m cwd;
              let i := d_subdir_count d in
              let d := set_subdir_count d (i + 1) in
              ds ← aset (d_subdirs d) i p;
              m ← store m cwd (set_subdirs d ds);
              Ok (m, "directory '" +:+ name +:+ "' created" +:+ nl)
          end
  end.

Definition cd_cmd (m : Memory) (cwd : ptr) (arg : option string)
    (root : ptr) : res (ptr * string) :=
  match arg with
  | None => Ok (cwd, puts "usage: cd <dir>")
  | Some arg =>
      if streq arg "/" then Ok (root, "")
      else if streq arg "." then Ok (cwd, "")
      else if streq arg ".." then
        d ← load m cwd;
        Ok (match d_parent d with Some _ => d_parent d | None => cwd end, "")
      else
        idx ← find_subdir_index m cwd arg;
        if bool_decide (idx >= 0) then
          d ← load m cwd;
          c ← aget (d_subdirs d) idx;
          Ok (c, "")
        else Ok (cwd, puts "no such directory")
  end.

End LinuxCommands.

(** ** L2.c *)

Module L2.

Definition MAX_DEPTH : Z := 64.

(** The [while (p != NULL && depth < MAX_DEPTH)] loop of [pwd_cmd]. *)
Fixpoint pwd_walk (fuel : nat) (m : Memory) (p : ptr)
    (parts : list (option string)) (depth : Z)
    : res (list (option string) * Z) :=
  match fuel with
  | O => OutOfFuel
  | S fuel' =>
      match p with
      | None => Ok (parts, depth)
      | Some _ =>
          if bool_decide (depth < MAX_DEPTH) then
            d ← load m p;
            parts ← aset parts depth (Some (d_name d));
            pwd_walk fuel' m (d_parent d) parts (depth + 1)
          else Ok (parts, depth)
      end
  end.

Definition pwd_cmd (fuel : nat) (m : Memory) (cwd : ptr) : res string :=
  d ← load m cwd;
  match d_parent d with
  | None => Ok (puts "/")
  | Some _ =>
      '(parts, depth) ←
        pwd_walk fuel m cwd (replicate (Z.to_nat MAX_DEPTH) None) 0;
      out ← pwd_print parts (Z.to_nat depth) (depth - 1);
      Ok (out +:+ nl)
  end.

Definition ls_cmd (m : Memory) (cwd : ptr) (opt : option string)
    : res string :=
  d ← load m cwd;
  if bool_decide (d_subdir_count d = 0) && bool_decide (d_file_count d = 0)
  then Ok (puts "ls: no entries")
  else
    let longfmt :=
      match opt with Some o => streq o "-l" | None => false end in
    o1 ← ls_subdirs m d
          (fun n => if longfmt
                    then "drwx " +:+ pad4 "-" +:+ " " +:+ n +:+ "/" +:+ nl
                    else n +:+ "/" +:+ nl)
          (Z.to_nat (d_subdir_count d)) 0;
    o2 ← ls_files d
          (fun f => if longfmt
                    then "-" +:+ f_perm f +:+ " " +:+ fmt_4d (f_size f)
                         +:+ " " +:+ f_name f +:+ nl
                    else f_name f +:+ nl)
          (Z.to_nat (d_file_count d)) 0;
    Ok (o1 +:+ o2).

(** The file written by [touch_cmd] into the slot [f]. *)
Definition touch_init (f : File) (name : string) : File :=
  let f := set_f_name f (strncpy name (NAME_LEN - 1)) in
  let f := set_f_size f 0 in
  let f := set_f_perm f (strncpy "rw-" (PERM_LEN - 1)) in
  set_f_content f "".

Definition touch_cmd (m : Memory) (cwd : ptr) (name : option string)
    : res (Memory * string) :=
  match name with
  | None => Ok (m, puts "usage: touch <name>")
  | Some name =>
      fi ← find_file_index m cwd name;
      if bool_decide (fi ≠ -1)
      then Ok (m, "file '" +:+ name +:+ "' already exists" +:+ nl)
      else
        d ← load m cwd;
        if bool_decide (d_file_count d >= MAX_FILES)
        then Ok (m, puts "file limit reached")
        else
          si ← find_subdir_index m cwd name;
          if bool_decide (si ≠ -1)
          then Ok (m, "name '" +:+ name +:+ "' already used by directory"
                      +:+ nl)
          else
            let i := d_file_count d in
            let d := set_file_count d (i + 1) in
            f ← aget (d_files d) i;
            fs ← aset (d_files d) i (touch_init f name);
            m ← store m cwd (set_files d fs);
            Ok (m, "file '" +:+ name +:+ "' created" +:+ nl)
  end.

Definition rm_cmd (m : Memory) (cwd : ptr) (name : option string)
    : res (Memory * string) :=
  match name with
  | None => Ok (m, puts "usage: rm <name>")
  | Some name =>
      idx ← find_file_index m cwd name;
      if bool_decide (idx >= 0) then
        d ← load m cwd;
        fs ← rm_shift (d_files d) (Z.to_nat (d_file_count d - 1 - idx)) idx;
        let d := set_files d fs in
        let d := set_file_count d (d_file_count d - 1) in
        m ← store m cwd d;
        Ok (m, "file '" +:+ name +:+ "' removed" +:+ nl)
      else Ok (m, puts "no such file")
  end.

Definition mv_cmd (m : Memory) (cwd : ptr) (src dst : option string)
    : res (Memory * string) :=
  match src, dst with
  | Some src, Some dst =>
      idx ← find_file_index m cwd src;
      if bool_decide (idx < 0)
      then Ok (m, "mv: '" +:+ src +:+ "' not found" +:+ nl)
      else
        fi ← find_file_index m cwd dst;
        if bool_decide (fi ≠ -1)
        then Ok (m, "mv: '" +:+ dst +:+ "' already exists" +:+ nl)
        else
          si ← find_subdir_index m cwd dst;
          if bool_decide (si ≠ -1)
          then Ok (m, "mv: name '" +:+ dst +:+ "' already used by directory"
                      +:+ nl)
          else
            d ← load m cwd;
            f ← aget (d_files d) idx;
            fs ← aset (d_files d) idx
                   (set_f_name f (strncpy dst (NAME_LEN - 1)));
            m ← store m cwd (set_files d fs);
            Ok (m, "file '" +:+ src +:+ "' renamed to '" +:+ dst +:+ "'"
                   +:+ nl)
  | _, _ => Ok (m, puts "usage: mv <old_name> <new_name>")
  end.

Definition mkdir_cmd (m : Memory) (cwd : ptr) (name : option string)
    : res (Memory * string) :=
  match name with
  | None => Ok (m, puts "usage: mkdir <name>")
  | Some name =>
      d ← load m cwd;
      if bool_decide (d_subdir_count d >= MAX_SUBDIRS)
      then Ok (m, puts "subdir limit reached")
      else
        si ← find_subdir_index m cwd name;
        taken ← (if bool_decide (si ≠ -1) then Ok true
                 else fi ← find_file_index m cwd name;
                      Ok (bool_decide (fi ≠ -1)));
        if taken : bool
        then Ok (m, "name '" +:+ name +:+ "' already exists" +:+ nl)
        else
          '(m, p) ← create_dir m name cwd;
          match p with
          | None => Ok (m, puts "mkdir: memory error")
          | Some _ =>
              d ← load m cwd;
              let i := d_subdir_count d in
              let d := set_subdir_count d (i + 1) in
              ds ← aset (d_subdirs d) i p;
              m ← store m cwd (set_subdirs d ds);
              Ok (m, "directory '" +:+ name +:+ "' created" +:+ nl)
          end
  end.

Definition chmod_cmd (m : Memory) (cwd : ptr) (mode filename : option string)
    : res (Memory * string) :=
  match mode, filename with
  | Some mode, Some filename =>
      idx ← find_file_index m cwd filename;
      if bool_decide (idx < 0)
      then Ok (m, "chmod: '" +:+ filename +:+ "' not found" +:+ nl)
      else
        d ← load m cwd;
        f ← aget (d_files d) idx;
        fs ← aset (d_files d) idx
               (set_f_perm f (strncpy mode (PERM_LEN - 1)));
        m ← store m cwd (set_files d fs);
        Ok (m, "permissions of '" +:+ filename +:+ "' changed to '"
               +:+ mode +:+ "'" +:+ nl)
  | _, _ => Ok (m, puts "usage: chmod <mode> <filename>")
  end.

Definition cd_cmd (m : Memory) (cwd : ptr) (arg : option string)
    (root : ptr) : res (ptr * string) :=
  match arg with
  | None => Ok (cwd, puts "usage: cd <dir>")
  | Some arg =>
      if streq arg "/" then Ok (root, "")
      else if streq arg ".." then
        d ← load m cwd;
        Ok (match d_parent d with Some _ => d_parent d | None => cwd end, "")
      else if streq arg "." then Ok (cwd, "")
      else
        idx ← find_subdir_index m cwd arg;
        if bool_decide (idx >= 0) then
          d ← load m cwd;
          c ← aget (d_subdirs d) idx;
          Ok (c, "")
        else Ok (cwd, "cd: no such directory: " +:+ arg +:+ nl)
  end.

End L2.

(** ** The sessions: [main] without its line reader *)

(** A command line after [strtok]: the command and its arguments, an
    absent argument being [NULL]. *)
Inductive Cmd :=
| Touch (name : option string)
| Ls (opt : option string)
| Rm (name : option string)
| Mv (src dst : option string)
| Mkdir (name : option string)
| Cd (arg : option string)
| Pwd
| Chmod (mode filename : option string).

Record Session := mkSession {
  mem : Memory;
  root : ptr;
  cwd : ptr
}.

Inductive Program := linux_commands_c | L2_c.

(** [struct Dir *root = create_dir("/", NULL); struct Dir *cwd = root;] *)
Definition start (m : Memory) : res Session :=
  '(m, r) ← create_dir m "/" None;
  Ok (mkSession m r r).

Definition keep_cwd (s : Session) (r : res (Memory * string))
    : res (Session * string) :=
  '(m, out) ← r;
  Ok (mkSession m (root s) (cwd s), out).

(** One round of the command loop of [main]; [fuel] bounds the walk of
    [pwd]. *)
Definition exec (prog : Program) (fuel : nat) (s : Session) (c : Cmd)
    : res (Session * string) :=
  match prog, c with
  | linux_commands_c, Touch a =>
      keep_cwd s (LinuxCommands.touch_cmd (mem s) (cwd s) a)
  | linux_commands_c, Ls a =>
      out ← LinuxCommands.ls_cmd (mem s) (cwd s) a; Ok (s, out)
  | linux_commands_c, Rm a =>
      keep_cwd s (LinuxCommands.rm_cmd (mem s) (cwd s) a)
  | linux_commands_c, Mv a b =>
      keep_cwd s (LinuxCommands.mv_cmd (mem s) (cwd s) a b)
  | linux_commands_c, Mkdir a =>
      keep_cwd s (LinuxCommands.mkdir_cmd (mem s) (cwd s) a)
  | linux_commands_c, Cd a =>
      '(p, out) ← LinuxCommands.cd_cmd (mem s) (cwd s) a (root s);
      Ok (mkSession (mem s) (root s) p, out)
  | linux_commands_c, Pwd =>
      out ← LinuxCommands.pwd_cmd fuel (mem s) (cwd s); Ok (s, out)
  | linux_commands_c, Chmod _ _ => Ok (s, puts "command not found")
  | L2_c, Touch a => keep_cwd s (L2.touch_cmd (mem s) (cwd s) a)
  | L2_c, Ls a => out ← L2.ls_cmd (mem s) (cwd s) a; Ok (s, out)
  | L2_c, Rm a => keep_cwd s (L2.rm_cmd (mem s) (cwd s) a)
  | L2_c, Mv a b => keep_cwd s (L2.mv_cmd (mem s) (cwd s) a b)
  | L2_c, Mkdir a => keep_cwd s (L2.mkdir_cmd (mem s) (cwd s) a)
  | L2_c, Chmod a b => keep_cwd s (L2.chmod_cmd (mem s) (cwd s) a b)
  | L2_c, Cd a =>
      '(p, out) ← L2.cd_cmd (mem s) (cwd s) a (root s);
      Ok (mkSession (mem s) (root s) p, out)
  | L2_c, Pwd => out ← L2.pwd_cmd fuel (mem s) (cwd s); Ok (s, out)
  end.

(** A sequence of rounds; the result is the last session and everything
    printed. *)
Fixpoint run (prog : Program) (fuel : nat) (s : Session) (cs : list Cmd)
    : res (Session * string) :=
  match cs with
  | [] => Ok (s, EmptyString)
  | c :: cs' =>
      '(s, o1) ← exec prog fuel s c;
      '(s, o2) ← run prog fuel s cs';
      Ok (s, o1 +:+ o2)
  end.

(** * Properties *)

(** ** Views of a directory block *)

(** The entries in use: the first [file_count] files, the first
    [subdir_count] sub-directory pointers. *)
Definition files_of (d : Dir) : list File :=
  take (Z.to_nat (d_file_count d)) (d_files d).
Definition children (d : Dir) : list ptr :=
  take (Z.to_nat (d_subdir_count d)) (d_subdirs d).

(** The name stored in the block a pointer refers to. *)
Definition name_at (m : Memory) (p : ptr) : option string :=
  match p with
  | Some a => d_name <$> cells m !! a
  | None => None
  end.

Definition file_names (d : Dir) : list string := f_name <$> files_of d.
Definition subdir_names (m : Memory) (d : Dir) : list string :=
  omap (name_at m) (children d).

(** The index of the first entry satisfying [P], or -1. *)
Definition index_in {A : Type} (P : A -> Prop) `{!∀ x, Decision (P x)}
    (l : list A) : Z :=
  match list_find P l with
  | Some (k, _) => Z.of_nat k
  | None => -1
  end.

(** ** The monad, arrays and strings *)

Lemma bind_Ok {A B : Type} (c : res A) (k : A -> res B) (b : B) :
  c ≫= k = Ok b -> ∃ a, c = Ok a ∧ k a = Ok b.
Proof. destruct c; simpl; intros H; try discriminate. eauto. Qed.

Lemma aget_Ok {A : Type} (l : list A) (i : Z) (x : A) :
  0 <= i -> l !! Z.to_nat i = Some x -> aget l i = Ok x.
Proof.
  intros Hi Hl. unfold aget. destruct (decide (0 <= i)); [|lia].
  by rewrite Hl.
Qed.

Lemma aget_inv {A : Type} (l : list A) (i : Z) (x : A) :
  aget l i = Ok x -> 0 <= i ∧ l !! Z.to_nat i = Some x.
Proof.
  unfold aget. destruct (decide (0 <= i)); [|discriminate].
  destruct (l !! Z.to_nat i) eqn:E; [|discriminate].
  intros [= ->]. done.
Qed.

Lemma aset_Ok {A : Type} (l : list A) (i : Z) (x : A) :
  0 <= i < Z.of_nat (length l) -> aset l i x = Ok (<[Z.to_nat i := x]> l).
Proof. intros Hi. unfold aset. by destruct (decide _). Qed.

Lemma aset_inv {A : Type} (l l' : list A) (i : Z) (x : A) :
  aset l i x = Ok l' ->
  0 <= i < Z.of_nat (length l) ∧ l' = <[Z.to_nat i := x]> l.
Proof. unfold aset. destruct (decide _); [|discriminate]. by intros [= <-]. Qed.

Lemma aset_out {A : Type} (l : list A) (i : Z) (x : A) :
  Z.of_nat (length l) <= i -> aset l i x = Fault.
Proof. intros Hi. unfold aset. destruct (decide _); [lia|done]. Qed.

Lemma streq_true (a b : string) : streq a b = true ↔ a = b.
Proof. unfold streq. apply bool_decide_eq_true. Qed.

Lemma streq_false (a b : string) : streq a b = false ↔ a ≠ b.
Proof. unfold streq. apply bool_decide_eq_false. Qed.

Lemma str_take_length (n : nat) (s : string) :
  String.length (str_take n s) = Nat.min n (String.length s).
Proof.
  revert s. induction n as [|n IH]; intros [|c s]; simpl; try done.
  by rewrite IH.
Qed.

Lemma str_take_all (n : nat) (s : string) :
  (String.length s <= n)%nat -> str_take n s = s.
Proof.
  revert s. induction n as [|n IH]; intros [|c s]; simpl; try done.
  - lia.
  - intros H. f_equal. apply IH. lia.
Qed.

Lemma strncpy_length (s : string) :
  (String.length (strncpy s (NAME_LEN - 1)) <= 31)%nat.
Proof.
  unfold strncpy. rewrite str_take_length.
  change (Z.to_nat (NAME_LEN - 1)) with 31%nat. lia.
Qed.

Lemma strncpy_short (s : string) :
  (String.length s <= 31)%nat -> strncpy s (NAME_LEN - 1) = s.
Proof.
  intros H. unfold strncpy. apply str_take_all.
  change (Z.to_nat (NAME_LEN - 1)) with 31%nat. lia.
Qed.

(** ** The lookup loops *)

Lemma index_in_cons {A : Type} (P : A -> Prop) `{!∀ x, Decision (P x)}
    (x : A) (l : list A) :
  index_in P (x :: l) =
    if decide (P x) then 0
    else if decide (index_in P l = -1) then -1 else index_in P l + 1.
Proof.
  unfold index_in. simpl. destruct (decide (P x)); [done|].
  destruct (list_find P l) as [[k y]|]; simpl.
  - destruct (decide (Z.of_nat k = -1)); lia.
  - by destruct (decide (-1 = -1)).
Qed.

Lemma index_in_range {A : Type} (P : A -> Prop) `{!∀ x, Decision (P x)}
    (l : list A) :
  index_in P l = -1 ∨ 0 <= index_in P l < Z.of_nat (length l).
Proof.
  unfold index_in. destruct (list_find P l) as [[k y]|] eqn:E; [|by left].
  right. apply list_find_Some in E as (Hk & _ & _).
  apply lookup_lt_Some in Hk. lia.
Qed.

Lemma index_in_none {A : Type} (P : A -> Prop) `{!∀ x, Decision (P x)}
    (l : list A) :
  index_in P l = -1 ↔ Forall (λ x, ¬ P x) l.
Proof.
  unfold index_in. destruct (list_find P l) as [[k y]|] eqn:E.
  - split; [lia|]. intros HF. apply list_find_Some in E as (Hk & HP & _).
    rewrite Forall_lookup in HF. by apply HF in Hk.
  - split; [|done]. intros _. by apply (list_find_None P l).
Qed.

Lemma index_in_some {A : Type} (P : A -> Prop) `{!∀ x, Decision (P x)}
    (l : list A) (r : Z) :
  index_in P l = r -> r ≠ -1 ->
  ∃ x, l !! Z.to_nat r = Some x ∧ P x ∧
       ∀ j y, l !! j = Some y -> (j < Z.to_nat r)%nat -> ¬ P y.
Proof.
  unfold index_in. destruct (list_find P l) as [[k y]|] eqn:E; [|congruence].
  intros <- _. apply list_find_Some in E as (Hk & HP & Hlt).
  rewrite Nat2Z.id. eauto.
Qed.

Lemma find_file_loop_spec (d : Dir) (name : string) (n : nat) (i : Z) :
  0 <= i -> (Z.to_nat i + n <= length (d_files d))%nat ->
  find_file_loop d name n i =
    Ok (let r := index_in (λ f, f_name f = name)
                   (take n (drop (Z.to_nat i) (d_files d))) in
        if decide (r = -1) then -1 else i + r).
Proof.
  revert i. induction n as [|n IH]; intros i Hi Hlen; [done|].
  destruct (lookup_lt_is_Some_2 (d_files d) (Z.to_nat i)) as [f Hf]; [lia|].
  simpl. rewrite (aget_Ok _ _ f) by done. simpl.
  rewrite (drop_S _ _ _ Hf). simpl take. rewrite index_in_cons.
  destruct (streq (f_name f) name) eqn:E.
  - apply streq_true in E. rewrite (decide_True (P := f_name f = name)) by done.
    simpl. f_equal. lia.
  - apply streq_false in E.
    rewrite (decide_False (P := f_name f = name)) by done.
    rewrite IH by lia. replace (Z.to_nat (i + 1)) with (S (Z.to_nat i)) by lia.
    f_equal. simpl.
    pose proof (index_in_range (λ f0, f_name f0 = name)
                  (take n (drop (S (Z.to_nat i)) (d_files d)))).
    repeat case_decide; lia.
Qed.

Lemma name_at_load (m : Memory) (p : ptr) :
  is_Some (name_at m p) -> ∃ sd, load m p = Ok sd ∧ name_at m p = Some (d_name sd).
Proof.
  destruct p as [a|]; simpl; [|by intros [? ?]].
  destruct (cells m !! a) as [sd|]; simpl; [eauto|by intros [? ?]].
Qed.

Lemma find_subdir_loop_spec (m : Memory) (d : Dir) (name : string)
    (n : nat) (i : Z) :
  0 <= i -> (Z.to_nat i + n <= length (d_subdirs d))%nat ->
  Forall (λ p, is_Some (name_at m p)) (take n (drop (Z.to_nat i) (d_subdirs d))) ->
  find_subdir_loop m d name n i =
    Ok (let r := index_in (λ p, name_at m p = Some name)
                   (take n (drop (Z.to_nat i) (d_subdirs d))) in
        if decide (r = -1) then -1 else i + r).
Proof.
  revert i. induction n as [|n IH]; intros i Hi Hlen Hlive; [done|].
  destruct (lookup_lt_is_Some_2 (d_subdirs d) (Z.to_nat i)) as [c Hc]; [lia|].
  rewrite (drop_S _ _ _ Hc) in Hlive |- *. simpl take in Hlive |- *.
  apply Forall_cons in Hlive as [Hc' Hlive].
  destruct (name_at_load _ _ Hc') as (sd & Hsd & Hnm).
  simpl. rewrite (aget_Ok _ _ c) by done. simpl. rewrite Hsd. simpl.
  rewrite index_in_cons, Hnm.
  destruct (streq (d_name sd) name) eqn:E.
  - apply streq_true in E.
    rewrite (decide_True (P := Some (d_name sd) = Some name)) by congruence.
    simpl. f_equal. lia.
  - apply streq_false in E.
    rewrite (decide_False (P := Some (d_name sd) = Some name)) by congruence.
    rewrite IH; [|lia|lia|by replace (Z.to_nat (i + 1)) with (S (Z.to_nat i)) by lia].
    replace (Z.to_nat (i + 1)) with (S (Z.to_nat i)) by lia.
    f_equal. simpl.
    pose proof (index_in_range (λ p, name_at m p = Some name)
                  (take n (drop (S (Z.to_nat i)) (d_subdirs d)))).
    repeat case_decide; lia.
Qed.

(** ** Well-formed heaps *)

(** A block has the size of a [struct Dir]: 16 file slots and 16
    sub-directory slots. *)
Definition block_shape (d : Dir) : Prop :=
  length (d_files d) = Z.to_nat MAX_FILES ∧
  length (d_subdirs d) = Z.to_nat MAX_SUBDIRS.

Record wf_dir (m : Memory) (d : Dir) : Prop := mk_wf_dir {
  wf_shape : block_shape d;
  wf_file_count : 0 <= d_file_count d <= MAX_FILES;
  wf_subdir_count : 0 <= d_subdir_count d <= MAX_SUBDIRS;
  (* every sub-directory pointer in use refers to a live block *)
  wf_children : Forall (λ p, is_Some (name_at m p)) (children d);
  (* and so does the parent pointer, unless it is NULL *)
  wf_parent : d_parent d = None ∨ is_Some (name_at m (d_parent d))
}.

Definition wf_mem (m : Memory) : Prop :=
  (∀ a d, cells m !! a = Some d -> wf_dir m d) ∧ Forall block_shape (pool m).

Definition wf_session (s : Session) : Prop :=
  wf_mem (mem s) ∧ is_Some (name_at (mem s) (cwd s)) ∧
  is_Some (name_at (mem s) (root s)).

Lemma find_file_index_spec (m : Memory) (a : addr) (d : Dir) (name : string) :
  cells m !! a = Some d -> wf_dir m d ->
  find_file_index m (Some a) name =
    Ok (index_in (λ f, f_name f = name) (files_of d)).
Proof.
  intros Ha [[Hf _] Hfc _ _ _]. unfold find_file_index. simpl. rewrite Ha. simpl.
  rewrite find_file_loop_spec; [|lia|unfold MAX_FILES in *; lia].
  rewrite drop_0. fold (files_of d). f_equal. simpl.
  pose proof (index_in_range (λ f, f_name f = name) (files_of d)).
  case_decide; lia.
Qed.

Lemma find_subdir_index_spec (m : Memory) (a : addr) (d : Dir) (name : string) :
  cells m !! a = Some d -> wf_dir m d ->
  find_subdir_index m (Some a) name =
    Ok (index_in (λ p, name_at m p = Some name) (children d)).
Proof.
  intros Ha [[_ Hs] _ Hsc Hch _]. unfold find_subdir_index. simpl. rewrite Ha. simpl.
  rewrite find_subdir_loop_spec; [|lia|unfold MAX_SUBDIRS in *; lia|by rewrite drop_0].
  rewrite drop_0. fold (children d). f_equal. simpl.
  pose proof (index_in_range (λ p, name_at m p = Some name) (children d)).
  case_decide; lia.
Qed.

Lemma index_file_names (d : Dir) (name : string) :
  index_in (λ f, f_name f = name) (files_of d) ≠ -1 ↔ name ∈ file_names d.
Proof.
  rewrite index_in_none. unfold file_names. rewrite list_elem_of_fmap.
  rewrite Forall_forall. split.
  - intros H. destruct (decide (Exists (λ f, f_name f = name) (files_of d)))
      as [He|He].
    + apply Exists_exists in He as (f & ? & ?). eauto.
    + destruct H. intros f Hf Hn. apply He, Exists_exists. eauto.
  - intros (f & -> & Hf) H. by apply (H f).
Qed.

Lemma index_subdir_names (m : Memory) (d : Dir) (name : string) :
  index_in (λ p, name_at m p = Some name) (children d) ≠ -1
  ↔ name ∈ subdir_names m d.
Proof.
  rewrite index_in_none. unfold subdir_names. rewrite list_elem_of_omap.
  rewrite Forall_forall. split.
  - intros H.
    destruct (decide (Exists (λ p, name_at m p = Some name) (children d)))
      as [He|He].
    + apply Exists_exists in He as (p & ? & ?). eauto.
    + destruct H. intros p Hp Hn. apply He, Exists_exists. eauto.
  - intros (p & Hp & Hn) H. by apply (H p).
Qed.

(** ** What the commands do to a well-formed heap *)

(** A name is taken in a directory when a file or a sub-directory in use
    carries it. *)
Definition taken (m : Memory) (d : Dir) (name : string) : Prop :=
  name ∈ file_names d ∨ name ∈ subdir_names m d.

Global Instance taken_dec m d name : Decision (taken m d name).
Proof. unfold taken. apply _. Defined.

(** The heap with block [a] replaced. *)
Definition upd (m : Memory) (a : addr) (d : Dir) : Memory :=
  mkMem (<[a := d]> (cells m)) (pool m).

(** The file [touch] creates. *)
Definition new_file (name : string) : File :=
  mkFile (strncpy name (NAME_LEN - 1)) 0 "rw-" "".

(** The block after a file was written into its first free slot. *)
Definition add_file (d : Dir) (f : File) : Dir :=
  set_files (set_file_count d (d_file_count d + 1))
            (<[Z.to_nat (d_file_count d) := f]> (d_files d)).

(** The array after [n] rounds of the compaction loop started at [i]. *)
Definition shifted (fs : list File) (n : nat) (i : nat) : list File :=
  take i fs ++ take n (drop (S i) fs) ++ drop (i + n) fs.

(** The block after the file at [idx] was removed. *)
Definition del_file (d : Dir) (idx : Z) : Dir :=
  set_file_count
    (set_files d (shifted (d_files d) (Z.to_nat (d_file_count d - 1 - idx))
                          (Z.to_nat idx)))
    (d_file_count d - 1).

(** The block after the file at [idx] was changed by [g]. *)
Definition alter_file (d : Dir) (idx : Z) (g : File -> File) : Dir :=
  set_files d (alter g (Z.to_nat idx) (d_files d)).

(** The block [create_dir] makes of the raw block [b]. *)
Definition init_dir (b : Dir) (name : string) (parent : ptr) : Dir :=
  set_subdir_count
    (set_file_count
       (set_parent (set_name b (strncpy name (NAME_LEN - 1))) parent) 0) 0.

(** The block after a sub-directory pointer was written into its first
    free slot. *)
Definition add_subdir (d : Dir) (p : ptr) : Dir :=
  set_subdirs (set_subdir_count d (d_subdir_count d + 1))
              (<[Z.to_nat (d_subdir_count d) := p]> (d_subdirs d)).

Lemma load_live (m : Memory) (a : addr) (d : Dir) :
  cells m !! a = Some d -> load m (Some a) = Ok d.
Proof. intros H. simpl. by rewrite H. Qed.

Lemma store_live (m : Memory) (a : addr) (d d' : Dir) :
  cells m !! a = Some d -> store m (Some a) d' = Ok (upd m a d').
Proof. intros H. simpl. by rewrite H. Qed.

Lemma touch_init_new (f : File) (name : string) :
  touch_init f name = new_file name.
Proof. done. Qed.

Lemma L2_touch_init_new (f : File) (name : string) :
  L2.touch_init f name = new_file name.
Proof. done. Qed.

Lemma rm_shift_spec (fs : list File) (n : nat) (i : Z) :
  0 <= i -> (Z.to_nat i + n < length fs)%nat ->
  rm_shift fs n i = Ok (shifted fs n (Z.to_nat i)).
Proof.
  revert fs i. induction n as [|n IH]; intros fs i Hi Hlen.
  - simpl. unfold shifted. rewrite Nat.add_0_r. simpl.
    by rewrite take_drop.
  - destruct (lookup_lt_is_Some_2 fs (S (Z.to_nat i))) as [f Hf]; [lia|].
    simpl. rewrite (aget_Ok _ _ f); [|lia|by replace (Z.to_nat (i + 1)) with (S (Z.to_nat i)) by lia].
    simpl. rewrite aset_Ok by lia. simpl.
    rewrite IH; [|lia|rewrite length_insert; lia].
    f_equal. unfold shifted.
    replace (Z.to_nat (i + 1)) with (S (Z.to_nat i)) by lia.
    set (k := Z.to_nat i) in *.
    rewrite (take_S_r (<[k:=f]> fs) k f)
      by (apply list_lookup_insert_eq; lia).
    rewrite take_insert_ge by lia.
    rewrite !drop_insert_lt by lia.
    rewrite (drop_S fs f (S k) Hf). simpl.
    rewrite <- app_assoc. simpl.
    by replace (S (k + n))%nat with (k + S n)%nat by lia.
Qed.

Lemma file_check (d : Dir) (name : string) :
  bool_decide (index_in (λ f, f_name f = name) (files_of d) ≠ -1)
  = bool_decide (name ∈ file_names d).
Proof. apply bool_decide_ext, index_file_names. Qed.

Lemma subdir_check (m : Memory) (d : Dir) (name : string) :
  bool_decide (index_in (λ p, name_at m p = Some name) (children d) ≠ -1)
  = bool_decide (name ∈ subdir_names m d).
Proof. apply bool_decide_ext, index_subdir_names. Qed.

Lemma free_slot (d : Dir) (m : Memory) :
  wf_dir m d -> ¬ d_file_count d >= MAX_FILES ->
  ∃ f, d_files d !! Z.to_nat (d_file_count d) = Some f.
Proof.
  intros [[Hf _] Hfc _ _ _] Hlt. apply lookup_lt_is_Some_2.
  unfold MAX_FILES in *. lia.
Qed.

Ltac lookup_specs Ha Hwf :=
  rewrite ?(find_file_index_spec _ _ _ _ Ha Hwf),
          ?(find_subdir_index_spec _ _ _ _ Ha Hwf),
          ?(load_live _ _ _ Ha); simpl;
  rewrite ?file_check, ?subdir_check, ?Ha; simpl.

(** Case analysis on a test of the code and of the statement at once. *)
Ltac split_on P H :=
  destruct (decide P) as [H|H];
  [ rewrite ?(bool_decide_true P) by exact H
  | rewrite ?(bool_decide_false P) by exact H ];
  simpl.

Lemma LC_touch_spec (m : Memory) (a : addr) (d : Dir) (name : string) :
  cells m !! a = Some d -> wf_dir m d ->
  LinuxCommands.touch_cmd m (Some a) (Some name) =
    Ok (if decide (taken m d name) then (m, puts "name already exists")
        else if decide (d_file_count d >= MAX_FILES)
             then (m, puts "file limit reached")
             else (upd m a (add_file d (new_file name)),
                   "file '" +:+ name +:+ "' created" +:+ nl)).
Proof.
  intros Ha Hwf. unfold LinuxCommands.touch_cmd, taken.
  lookup_specs Ha Hwf.
  split_on (name ∈ file_names d) Hf.
  { by rewrite decide_True by auto. }
  split_on (name ∈ subdir_names m d) Hs.
  { by rewrite decide_True by auto. }
  rewrite decide_False by tauto.
  split_on (d_file_count d >= MAX_FILES) Hc; [done|].
  destruct (free_slot d m Hwf Hc) as [f Hslot].
  destruct Hwf as [[Hlen _] Hfc _ _ _].
  rewrite (aget_Ok _ _ f) by (done || lia). simpl.
  rewrite aset_Ok by (unfold MAX_FILES in *; lia). done.
Qed.

Lemma L2_touch_spec (m : Memory) (a : addr) (d : Dir) (name : string) :
  cells m !! a = Some d -> wf_dir m d ->
  L2.touch_cmd m (Some a) (Some name) =
    Ok (if decide (name ∈ file_names d)
        then (m, "file '" +:+ name +:+ "' already exists" +:+ nl)
        else if decide (d_file_count d >= MAX_FILES)
        then (m, puts "file limit reached")
        else if decide (name ∈ subdir_names m d)
        then (m, "name '" +:+ name +:+ "' already used by directory" +:+ nl)
        else (upd m a (add_file d (new_file name)),
              "file '" +:+ name +:+ "' created" +:+ nl)).
Proof.
  intros Ha Hwf. unfold L2.touch_cmd.
  lookup_specs Ha Hwf.
  split_on (name ∈ file_names d) Hf; [done|].
  split_on (d_file_count d >= MAX_FILES) Hc; [done|].
  split_on (name ∈ subdir_names m d) Hs; [done|].
  destruct (free_slot d m Hwf Hc) as [f Hslot].
  destruct Hwf as [[Hlen _] Hfc _ _ _].
  rewrite (aget_Ok _ _ f) by (done || lia). simpl.
  rewrite aset_Ok by (unfold MAX_FILES in *; lia). done.
Qed.

(** The index [find_file_index] returns in a well-formed directory. *)
Definition file_index (d : Dir) (name : string) : Z :=
  index_in (λ f, f_name f = name) (files_of d).

Lemma files_of_length (m : Memory) (d : Dir) :
  wf_dir m d -> length (files_of d) = Z.to_nat (d_file_count d).
Proof.
  intros [[Hf _] Hfc _ _ _]. unfold files_of. rewrite length_take.
  unfold MAX_FILES in *. lia.
Qed.

Lemma children_length (m : Memory) (d : Dir) :
  wf_dir m d -> length (children d) = Z.to_nat (d_subdir_count d).
Proof.
  intros [[_ Hs] _ Hsc _ _]. unfold children. rewrite length_take.
  unfold MAX_SUBDIRS in *. lia.
Qed.

Lemma file_index_found (m : Memory) (d : Dir) (name : string) :
  wf_dir m d -> name ∈ file_names d ->
  0 <= file_index d name < d_file_count d ∧
  ∃ f, d_files d !! Z.to_nat (file_index d name) = Some f ∧ f_name f = name.
Proof.
  intros Hwf Hin. apply index_file_names in Hin. fold (file_index d name) in Hin.
  pose proof (index_in_range (λ f, f_name f = name) (files_of d)) as Hr.
  fold (file_index d name) in Hr. rewrite (files_of_length m) in Hr by done.
  destruct Hr as [Hr|Hr]; [done|]. split; [lia|].
  destruct (index_in_some _ _ _ eq_refl Hin) as (f & Hf & Hn & _).
  fold (file_index d name) in Hf.
  apply lookup_take_Some in Hf as [Hf _]. eauto.
Qed.

Lemma file_index_missing (d : Dir) (name : string) :
  name ∉ file_names d -> file_index d name = -1.
Proof.
  intros Hin. destruct (decide (file_index d name = -1)) as [|Hne]; [done|].
  by apply index_file_names in Hne.
Qed.

Lemma LC_rm_spec (m : Memory) (a : addr) (d : Dir) (name : string) :
  cells m !! a = Some d -> wf_dir m d ->
  LinuxCommands.rm_cmd m (Some a) (Some name) =
    Ok (if decide (name ∈ file_names d)
        then (upd m a (del_file d (file_index d name)),
              "file '" +:+ name +:+ "' removed" +:+ nl)
        else (m, puts "no such file")).
Proof.
  intros Ha Hwf. unfold LinuxCommands.rm_cmd.
  rewrite (find_file_index_spec _ _ _ _ Ha Hwf). simpl.
  fold (file_index d name).
  destruct (decide (name ∈ file_names d)) as [Hin|Hin].
  - destruct (file_index_found m d name Hwf Hin) as [Hr _].
    rewrite bool_decide_false by lia. simpl. rewrite Ha. simpl.
    destruct Hwf as [[Hlen _] Hfc _ _ _].
    rewrite rm_shift_spec by (unfold MAX_FILES in *; lia). done.
  - rewrite (file_index_missing _ _ Hin). done.
Qed.

Lemma L2_rm_spec (m : Memory) (a : addr) (d : Dir) (name : string) :
  cells m !! a = Some d -> wf_dir m d ->
  L2.rm_cmd m (Some a) (Some name) =
    Ok (if decide (name ∈ file_names d)
        then (upd m a (del_file d (file_index d name)),
              "file '" +:+ name +:+ "' removed" +:+ nl)
        else (m, puts "no such file")).
Proof.
  intros Ha Hwf. unfold L2.rm_cmd.
  rewrite (find_file_index_spec _ _ _ _ Ha Hwf). simpl.
  fold (file_index d name).
  destruct (decide (name ∈ file_names d)) as [Hin|Hin].
  - destruct (file_index_found m d name Hwf Hin) as [Hr _].
    rewrite bool_decide_true by lia. simpl. rewrite Ha. simpl.
    destruct Hwf as [[Hlen _] Hfc _ _ _].
    rewrite rm_shift_spec by (unfold MAX_FILES in *; lia). done.
  - rewrite (file_index_missing _ _ Hin). done.
Qed.

Lemma insert_as_alter {A : Type} (g : A -> A) (l : list A) (i : nat) (x : A) :
  l !! i = Some x -> <[i := g x]> l = alter g i l.
Proof.
  intros Hx. apply list_eq. intros j.
  destruct (decide (i = j)) as [<-|Hne].
  - rewrite list_lookup_insert_eq by (by eapply lookup_lt_Some).
    by rewrite list_lookup_alter_eq, Hx.
  - by rewrite list_lookup_insert_ne, list_lookup_alter_ne.
Qed.

(** The rewriting of one file in place, shared by [mv] and [chmod]. *)
Ltac rewrite_file m d name Hwf Hin :=
  let f := fresh "f" in
  let Hf := fresh "Hf" in
  let Hr := fresh "Hr" in
  let Hlen := fresh "Hlen" in
  let Hfc := fresh "Hfc" in
  destruct (file_index_found m d name Hwf Hin) as (Hr & f & Hf & _);
  destruct Hwf as [[Hlen _] Hfc _ _ _];
  rewrite (aget_Ok _ _ f) by (done || lia); simpl;
  rewrite aset_Ok by (unfold MAX_FILES in *; lia); simpl;
  unfold upd, alter_file;
  by rewrite <- (insert_as_alter _ _ _ f Hf).

Lemma LC_mv_spec (m : Memory) (a : addr) (d : Dir) (src dst : string) :
  cells m !! a = Some d -> wf_dir m d ->
  LinuxCommands.mv_cmd m (Some a) (Some src) (Some dst) =
    Ok (if decide (src ∈ file_names d) then
          if decide (taken m d dst)
          then (m, puts "destination already exists")
          else (upd m a (alter_file d (file_index d src)
                           (λ f, set_f_name f (strncpy dst (NAME_LEN - 1)))),
                "renamed '" +:+ src +:+ "' -> '" +:+ dst +:+ "'" +:+ nl)
        else (m, puts "source not found")).
Proof.
  intros Ha Hwf. unfold LinuxCommands.mv_cmd, taken.
  rewrite (find_file_index_spec m a d src Ha Hwf). simpl.
  fold (file_index d src).
  destruct (decide (src ∈ file_names d)) as [Hin|Hin].
  2: { rewrite (file_index_missing _ _ Hin). done. }
  destruct (file_index_found m d src Hwf Hin) as [Hr _].
  rewrite bool_decide_false by lia.
  lookup_specs Ha Hwf.
  split_on (dst ∈ file_names d) Hf.
  { by rewrite decide_True by auto. }
  lookup_specs Ha Hwf.
  split_on (dst ∈ subdir_names m d) Hs.
  { by rewrite decide_True by auto. }
  rewrite decide_False by tauto.
  rewrite_file m d src Hwf Hin.
Qed.

Lemma L2_mv_spec (m : Memory) (a : addr) (d : Dir) (src dst : string) :
  cells m !! a = Some d -> wf_dir m d ->
  L2.mv_cmd m (Some a) (Some src) (Some dst) =
    Ok (if decide (src ∈ file_names d) then
          if decide (dst ∈ file_names d)
          then (m, "mv: '" +:+ dst +:+ "' already exists" +:+ nl)
          else if decide (dst ∈ subdir_names m d)
          then (m, "mv: name '" +:+ dst +:+ "' already used by directory"
                   +:+ nl)
          else (upd m a (alter_file d (file_index d src)
                           (λ f, set_f_name f (strncpy dst (NAME_LEN - 1)))),
                "file '" +:+ src +:+ "' renamed to '" +:+ dst +:+ "'" +:+ nl)
        else (m, "mv: '" +:+ src +:+ "' not found" +:+ nl)).
Proof.
  intros Ha Hwf. unfold L2.mv_cmd.
  rewrite (find_file_index_spec m a d src Ha Hwf). simpl.
  fold (file_index d src).
  destruct (decide (src ∈ file_names d)) as [Hin|Hin].
  2: { rewrite (file_index_missing _ _ Hin). done. }
  destruct (file_index_found m d src Hwf Hin) as [Hr _].
  rewrite bool_decide_false by lia.
  lookup_specs Ha Hwf.
  split_on (dst ∈ file_names d) Hf; [done|].
  lookup_specs Ha Hwf.
  split_on (dst ∈ subdir_names m d) Hs; [done|].
  rewrite_file m d src Hwf Hin.
Qed.

Lemma L2_chmod_spec (m : Memory) (a : addr) (d : Dir) (mode name : string) :
  cells m !! a = Some d -> wf_dir m d ->
  L2.chmod_cmd m (Some a) (Some mode) (Some name) =
    Ok (if decide (name ∈ file_names d)
        then (upd m a (alter_file d (file_index d name)
                         (λ f, set_f_perm f (strncpy mode (PERM_LEN - 1)))),
              "permissions of '" +:+ name +:+ "' changed to '" +:+ mode
              +:+ "'" +:+ nl)
        else (m, "chmod: '" +:+ name +:+ "' not found" +:+ nl)).
Proof.
  intros Ha Hwf. unfold L2.chmod_cmd.
  rewrite (find_file_index_spec _ _ _ _ Ha Hwf). simpl.
  fold (file_index d name).
  destruct (decide (name ∈ file_names d)) as [Hin|Hin].
  2: { rewrite (file_index_missing _ _ Hin). done. }
  destruct (file_index_found m d name Hwf Hin) as [Hr _].
  rewrite bool_decide_false by lia.
  lookup_specs Ha Hwf.
  rewrite_file m d name Hwf Hin.
Qed.

(** The heap after [mkdir] took the block [b] from the pool. *)
Definition mem_mkdir (m : Memory) (a : addr) (d : Dir) (name : string)
    (b : Dir) (rest : list Dir) : Memory :=
  let a' := fresh (dom (cells m)) in
  mkMem (<[a := add_subdir d (Some a')]>
           (<[a' := init_dir b name (Some a)]> (cells m))) rest.

Lemma fresh_not_live (m : Memory) (a : addr) (d : Dir) :
  cells m !! a = Some d -> fresh (dom (cells m)) ≠ a.
Proof.
  intros Ha Heq. apply (is_fresh (dom (cells m))). rewrite Heq.
  apply elem_of_dom. eauto.
Qed.

Lemma create_dir_spec (m : Memory) (name : string) (parent : ptr) :
  create_dir m name parent =
    Ok (match pool m with
        | [] => (m, None)
        | b :: rest =>
            (mkMem (<[fresh (dom (cells m)) := init_dir b name parent]>
                      (cells m)) rest,
             Some (fresh (dom (cells m))))
        end).
Proof.
  unfold create_dir, malloc. destruct (pool m) as [|b rest]; [done|].
  unfold load, store. simpl. rewrite lookup_insert_eq. simpl.
  by rewrite insert_insert_eq.
Qed.

(** The tail of [mkdir_cmd], after the checks, the same in both programs
    up to the message. *)
Lemma mkdir_tail (m : Memory) (a : addr) (d : Dir) (name : string)
    (err ok : string) :
  cells m !! a = Some d -> wf_dir m d -> ¬ d_subdir_count d >= MAX_SUBDIRS ->
  ('(m1, p) ← create_dir m name (Some a);
   match p with
   | None => Ok (m1, err)
   | Some _ =>
       d1 ← load m1 (Some a);
       let i := d_subdir_count d1 in
       let d1 := set_subdir_count d1 (i + 1) in
       ds ← aset (d_subdirs d1) i p;
       m2 ← store m1 (Some a) (set_subdirs d1 ds);
       Ok (m2, ok)
   end)
  = Ok (match pool m with
        | [] => (m, err)
        | b :: rest => (mem_mkdir m a d name b rest, ok)
        end).
Proof.
  intros Ha Hwf Hc. rewrite create_dir_spec.
  destruct (pool m) as [|b rest]; [done|]. simpl.
  pose proof (fresh_not_live m a d Ha) as Hne.
  rewrite lookup_insert_ne by done. rewrite Ha. simpl.
  destruct Hwf as [[_ Hlen] _ Hsc _ _].
  rewrite aset_Ok by (simpl; unfold MAX_SUBDIRS in *; lia). simpl.
  done.
Qed.

Lemma LC_mkdir_spec (m : Memory) (a : addr) (d : Dir) (name : string) :
  cells m !! a = Some d -> wf_dir m d ->
  LinuxCommands.mkdir_cmd m (Some a) (Some name) =
    Ok (if decide (d_subdir_count d >= MAX_SUBDIRS)
        then (m, puts "subdir limit reached")
        else if decide (taken m d name) then (m, puts "name already exists")
        else match pool m with
             | [] => (m, puts "memory error")
             | b :: rest =>
                 (mem_mkdir m a d name b rest,
                  "directory '" +:+ name +:+ "' created" +:+ nl)
             end).
Proof.
  intros Ha Hwf. unfold LinuxCommands.mkdir_cmd, taken.
  rewrite (load_live _ _ _ Ha). simpl.
  split_on (d_subdir_count d >= MAX_SUBDIRS) Hc; [done|].
  rewrite (find_file_index_spec _ _ _ _ Ha Hwf). simpl. rewrite file_check.
  split_on (name ∈ file_names d) Hf.
  { by rewrite decide_True by auto. }
  rewrite (find_subdir_index_spec _ _ _ _ Ha Hwf). simpl. rewrite subdir_check.
  split_on (name ∈ subdir_names m d) Hs.
  { by rewrite decide_True by auto. }
  rewrite decide_False by tauto.
  apply (mkdir_tail m a d name _ _ Ha Hwf Hc).
Qed.

Lemma L2_mkdir_spec (m : Memory) (a : addr) (d : Dir) (name : string) :
  cells m !! a = Some d -> wf_dir m d ->
  L2.mkdir_cmd m (Some a) (Some name) =
    Ok (if decide (d_subdir_count d >= MAX_SUBDIRS)
        then (m, puts "subdir limit reached")
        else if decide (taken m d name)
        then (m, "name '" +:+ name +:+ "' already exists" +:+ nl)
        else match pool m with
             | [] => (m, puts "mkdir: memory error")
             | b :: rest =>
                 (mem_mkdir m a d name b rest,
                  "directory '" +:+ name +:+ "' created" +:+ nl)
             end).
Proof.
  intros Ha Hwf. unfold L2.mkdir_cmd, taken.
  rewrite (load_live _ _ _ Ha). simpl.
  split_on (d_subdir_count d >= MAX_SUBDIRS) Hc; [done|].
  rewrite (find_subdir_index_spec _ _ _ _ Ha Hwf). simpl. rewrite subdir_check.
  split_on (name ∈ subdir_names m d) Hs.
  { by rewrite decide_True by auto. }
  rewrite (find_file_index_spec _ _ _ _ Ha Hwf). simpl. rewrite file_check.
  split_on (name ∈ file_names d) Hf.
  { by rewrite decide_True by auto. }
  rewrite decide_False by tauto.
  apply (mkdir_tail m a d name _ _ Ha Hwf Hc).
Qed.

(** ** The views after each change *)

Section views.
Context (m : Memory) (d : Dir) (Hwf : wf_dir m d).

Lemma files_of_add_file (f : File) :
  d_file_count d < MAX_FILES ->
  files_of (add_file d f) = files_of d ++ [f].
Proof using Hwf.
  intros Hlt. destruct Hwf as [[Hlen _] Hfc _ _ _].
  unfold files_of, add_file. simpl.
  replace (Z.to_nat (d_file_count d + 1))
    with (S (Z.to_nat (d_file_count d))) by lia.
  rewrite (take_S_r _ _ f).
  - by rewrite take_insert_ge by lia.
  - apply list_lookup_insert_eq. unfold MAX_FILES in *. lia.
Qed.

Lemma files_of_del_file (idx : Z) :
  0 <= idx < d_file_count d ->
  files_of (del_file d idx) = delete (Z.to_nat idx) (files_of d).
Proof using Hwf.
  intros Hidx. destruct Hwf as [[Hlen _] Hfc _ _ _].
  unfold files_of, del_file, shifted. simpl.
  set (k := Z.to_nat idx). set (fs := d_files d).
  replace (Z.to_nat (d_file_count d - 1 - idx))
    with (Z.to_nat (d_file_count d) - S k)%nat by lia.
  replace (Z.to_nat (d_file_count d - 1))
    with (k + (Z.to_nat (d_file_count d) - S k))%nat by lia.
  set (n := (Z.to_nat (d_file_count d) - S k)%nat).
  replace (Z.to_nat (d_file_count d)) with (S k + n)%nat by lia.
  assert (length (take k fs) = k) as Hk
    by (rewrite length_take; unfold fs, MAX_FILES in *; lia).
  rewrite take_app_add' by done.
  rewrite take_app_le
    by (rewrite length_take, length_drop; unfold fs, MAX_FILES in *; lia).
  rewrite take_take. replace (n `min` n)%nat with n by lia.
  rewrite delete_take_drop. rewrite take_take.
  replace (k `min` (S k + n))%nat with k by lia.
  f_equal. by rewrite take_drop_commute.
Qed.

Lemma files_of_alter_file (idx : Z) (g : File -> File) :
  files_of (alter_file d idx g) = alter g (Z.to_nat idx) (files_of d).
Proof.
  unfold files_of, alter_file. simpl.
  set (n := Z.to_nat (d_file_count d)). set (i := Z.to_nat idx).
  apply list_eq. intros j. destruct (decide (j < n)%nat).
  - rewrite lookup_take_lt by done. destruct (decide (i = j)) as [->|].
    + by rewrite !list_lookup_alter_eq, lookup_take_lt.
    + by rewrite !list_lookup_alter_ne, lookup_take_lt.
  - rewrite lookup_take_ge by lia. symmetry. apply lookup_ge_None.
    rewrite length_alter, length_take. lia.
Qed.

Lemma children_add_subdir (p : ptr) :
  d_subdir_count d < MAX_SUBDIRS ->
  children (add_subdir d p) = children d ++ [p].
Proof using Hwf.
  intros Hlt. destruct Hwf as [[_ Hlen] _ Hsc _ _].
  unfold children, add_subdir. simpl.
  replace (Z.to_nat (d_subdir_count d + 1))
    with (S (Z.to_nat (d_subdir_count d))) by lia.
  rewrite (take_S_r _ _ p).
  - by rewrite take_insert_ge by lia.
  - apply list_lookup_insert_eq. unfold MAX_SUBDIRS in *. lia.
Qed.

Lemma shape_add_file (f : File) : block_shape (add_file d f).
Proof using Hwf.
  destruct Hwf as [[? ?] _ _ _ _]. split; simpl; [|done].
  by rewrite length_insert.
Qed.

Lemma shape_del_file (idx : Z) :
  0 <= idx < d_file_count d -> block_shape (del_file d idx).
Proof using Hwf.
  intros Hidx. destruct Hwf as [[Hlen ?] Hfc _ _ _]. split; simpl; [|done].
  unfold shifted. rewrite !length_app, !length_take, !length_drop.
  unfold MAX_FILES in *. lia.
Qed.

Lemma shape_alter_file (idx : Z) (g : File -> File) :
  block_shape (alter_file d idx g).
Proof using Hwf.
  destruct Hwf as [[? ?] _ _ _ _]. split; simpl; [|done].
  by rewrite length_alter.
Qed.

Lemma shape_add_subdir (p : ptr) : block_shape (add_subdir d p).
Proof using Hwf.
  destruct Hwf as [[? ?] _ _ _ _]. split; simpl; [done|].
  by rewrite length_insert.
Qed.
End views.

(** ** Keeping the heap well formed *)

(** A block live in [m] is live in [m'] under the same name. *)
Definition names_kept (m m' : Memory) : Prop :=
  ∀ p s, name_at m p = Some s -> name_at m' p = Some s.

Lemma names_kept_live (m m' : Memory) (p : ptr) :
  names_kept m m' -> is_Some (name_at m p) -> is_Some (name_at m' p).
Proof. intros Hk [s Hs]. exists s. by apply Hk. Qed.

Lemma names_kept_upd (m : Memory) (a : addr) (d d' : Dir) :
  cells m !! a = Some d -> d_name d' = d_name d -> names_kept m (upd m a d').
Proof.
  intros Ha Hn [c|] s; simpl; [|done].
  destruct (decide (a = c)) as [<-|Hne].
  - rewrite lookup_insert_eq, Ha. simpl. by rewrite Hn.
  - by rewrite lookup_insert_ne.
Qed.

Lemma wf_dir_kept (m m' : Memory) (d : Dir) :
  names_kept m m' -> wf_dir m d -> wf_dir m' d.
Proof.
  intros Hk [Hs Hfc Hsc Hch Hp]. split; try done.
  - eapply Forall_impl; [exact Hch|]. intros p. by apply names_kept_live.
  - destruct Hp as [Hp|Hp]; [by left|right]. by eapply names_kept_live.
Qed.

Lemma subdir_names_kept (m m' : Memory) (d : Dir) :
  names_kept m m' -> wf_dir m d -> subdir_names m' d = subdir_names m d.
Proof.
  intros Hk [_ _ _ Hch _]. unfold subdir_names.
  generalize dependent (children d). intros l Hch.
  induction Hch as [|p l [s Hs] _ IH]; [done|].
  cbn. rewrite Hs, (Hk _ _ Hs). cbn. by rewrite IH.
Qed.

(** Replacing a block by one with the same name, children and parent. *)
Lemma wf_mem_upd (m : Memory) (a : addr) (d d' : Dir) :
  wf_mem m -> cells m !! a = Some d ->
  block_shape d' ->
  0 <= d_file_count d' <= MAX_FILES ->
  d_name d' = d_name d -> d_parent d' = d_parent d ->
  d_subdir_count d' = d_subdir_count d -> d_subdirs d' = d_subdirs d ->
  wf_mem (upd m a d').
Proof.
  intros [Hcells Hpool] Ha Hsh Hfc Hn Hp Hsc Hsd.
  pose proof (names_kept_upd m a d d' Ha Hn) as Hk.
  split; [|done]. intros c dc. simpl.
  destruct (decide (a = c)) as [<-|Hne].
  - rewrite lookup_insert_eq. intros [= <-].
    destruct (Hcells _ _ Ha) as [_ _ Hsc0 Hch Hp0].
    split; try done.
    + by rewrite Hsc.
    + unfold children. rewrite Hsc, Hsd.
      eapply Forall_impl; [exact Hch|]. intros p. by apply names_kept_live.
    + rewrite Hp. destruct Hp0 as [?|?]; [by left|right].
      by eapply names_kept_live.
  - rewrite lookup_insert_ne by done. intros Hc.
    eapply wf_dir_kept; eauto.
Qed.

Lemma names_kept_mkdir (m : Memory) (a : addr) (d : Dir) (name : string)
    (b : Dir) (rest : list Dir) :
  cells m !! a = Some d -> names_kept m (mem_mkdir m a d name b rest).
Proof.
  intros Ha [c|] s; simpl; [|done].
  destruct (decide (a = c)) as [<-|Hne].
  - rewrite lookup_insert_eq, Ha. done.
  - rewrite lookup_insert_ne by done.
    destruct (cells m !! c) as [dc|] eqn:Hc; [|done].
    rewrite lookup_insert_ne; [by rewrite Hc|].
    by apply (fresh_not_live m c dc).
Qed.

Lemma mkdir_new_block (m : Memory) (a : addr) (d : Dir) (name : string)
    (b : Dir) (rest : list Dir) :
  cells m !! a = Some d ->
  cells (mem_mkdir m a d name b rest) !! fresh (dom (cells m))
  = Some (init_dir b name (Some a)).
Proof.
  intros Ha. simpl. rewrite lookup_insert_ne by (symmetry; by eapply fresh_not_live).
  by rewrite lookup_insert_eq.
Qed.

Lemma mkdir_parent_block (m : Memory) (a : addr) (d : Dir) (name : string)
    (b : Dir) (rest : list Dir) :
  cells (mem_mkdir m a d name b rest) !! a
  = Some (add_subdir d (Some (fresh (dom (cells m))))).
Proof. simpl. by rewrite lookup_insert_eq. Qed.

Lemma mkdir_other_block (m : Memory) (a c : addr) (d : Dir) (name : string)
    (b : Dir) (rest : list Dir) :
  c ≠ a -> c ≠ fresh (dom (cells m)) ->
  cells (mem_mkdir m a d name b rest) !! c = cells m !! c.
Proof. intros H1 H2. simpl. by rewrite !lookup_insert_ne. Qed.

Lemma wf_mem_mkdir (m : Memory) (a : addr) (d : Dir) (name : string)
    (b : Dir) (rest : list Dir) :
  wf_mem m -> cells m !! a = Some d -> d_subdir_count d < MAX_SUBDIRS ->
  pool m = b :: rest ->
  wf_mem (mem_mkdir m a d name b rest).
Proof.
  intros [Hcells Hpool] Ha Hlt Hp.
  pose proof (names_kept_mkdir m a d name b rest Ha) as Hk.
  rewrite Hp in Hpool. apply Forall_cons in Hpool as [Hb Hrest].
  set (m' := mem_mkdir m a d name b rest).
  assert (is_Some (name_at m' (Some a))) as Hlive_a.
  { apply (names_kept_live m); [done|]. simpl. rewrite Ha. eauto. }
  assert (is_Some (name_at m' (Some (fresh (dom (cells m)))))) as Hlive_new.
  { unfold name_at, m'.
    rewrite (mkdir_new_block m a d name b rest Ha). simpl. eauto. }
  split; [|done]. intros c dc Hc.
  destruct (decide (c = a)) as [->|Hca].
  { unfold m' in Hc. rewrite mkdir_parent_block in Hc. injection Hc as <-.
    pose proof (Hcells _ _ Ha) as Hwf. destruct (Hwf) as [_ Hfc Hsc Hch Hpar].
    split.
    - by apply (shape_add_subdir m).
    - done.
    - simpl. lia.
    - rewrite (children_add_subdir m) by done. apply Forall_app. split.
      + eapply Forall_impl; [exact Hch|]. intros p. by apply names_kept_live.
      + by apply Forall_singleton.
    - simpl. destruct Hpar as [?|?]; [by left|right].
      by eapply names_kept_live. }
  destruct (decide (c = fresh (dom (cells m)))) as [->|Hcn].
  { unfold m' in Hc. rewrite (mkdir_new_block m a d name b rest Ha) in Hc.
    injection Hc as <-. split.
    - exact Hb.
    - simpl. unfold MAX_FILES. lia.
    - simpl. unfold MAX_SUBDIRS. lia.
    - unfold children. simpl. apply Forall_nil_2.
    - right. exact Hlive_a. }
  unfold m' in Hc. rewrite mkdir_other_block in Hc by done.
  eapply wf_dir_kept; eauto.
Qed.

(** ** One semantics for both programs *)

(** The heap a command leaves, the current directory being the block [d]
    at [a].  The two programs test in different orders and print different
    messages, and only L2.c has [chmod]; what they do to the heap is the
    same. *)
Definition effect (prog : Program) (m : Memory) (a : addr) (d : Dir)
    (c : Cmd) : Memory :=
  match c with
  | Touch (Some name) =>
      if decide (taken m d name ∨ d_file_count d >= MAX_FILES) then m
      else upd m a (add_file d (new_file name))
  | Rm (Some name) =>
      if decide (name ∈ file_names d)
      then upd m a (del_file d (file_index d name)) else m
  | Mv (Some src) (Some dst) =>
      if decide (src ∈ file_names d ∧ ¬ taken m d dst)
      then upd m a (alter_file d (file_index d src)
                      (λ f, set_f_name f (strncpy dst (NAME_LEN - 1))))
      else m
  | Mkdir (Some name) =>
      if decide (taken m d name ∨ d_subdir_count d >= MAX_SUBDIRS) then m
      else match pool m with
           | [] => m
           | b :: rest => mem_mkdir m a d name b rest
           end
  | Chmod (Some mode) (Some name) =>
      match prog with
      | L2_c =>
          if decide (name ∈ file_names d)
          then upd m a (alter_file d (file_index d name)
                          (λ f, set_f_perm f (strncpy mode (PERM_LEN - 1))))
          else m
      | linux_commands_c => m
      end
  | _ => m
  end.

(** The index [find_subdir_index] returns in a well-formed directory. *)
Definition subdir_index (m : Memory) (d : Dir) (name : string) : Z :=
  index_in (λ p, name_at m p = Some name) (children d).

(** Where [cd] leads. *)
Definition cd_target (m : Memory) (a : addr) (d : Dir) (root : ptr)
    (arg : string) : ptr :=
  if decide (arg = "/") then root
  else if decide (arg = ".") then Some a
  else if decide (arg = "..") then
    match d_parent d with Some _ => d_parent d | None => Some a end
  else if decide (arg ∈ subdir_names m d)
  then default (None : ptr) (d_subdirs d !! Z.to_nat (subdir_index m d arg))
  else Some a.

Lemma subdir_index_found (m : Memory) (d : Dir) (name : string) :
  wf_dir m d -> name ∈ subdir_names m d ->
  0 <= subdir_index m d name < d_subdir_count d ∧
  ∃ c, d_subdirs d !! Z.to_nat (subdir_index m d name) = Some c ∧
       name_at m c = Some name ∧ c ∈ children d.
Proof.
  intros Hwf Hin. apply index_subdir_names in Hin.
  fold (subdir_index m d name) in Hin.
  pose proof (index_in_range (λ p, name_at m p = Some name) (children d)) as Hr.
  fold (subdir_index m d name) in Hr. rewrite (children_length m) in Hr by done.
  destruct Hr as [Hr|Hr]; [done|]. split; [lia|].
  destruct (index_in_some _ _ _ eq_refl Hin) as (c & Hc & Hn & _).
  fold (subdir_index m d name) in Hc.
  exists c. split; [|split; [done|]].
  - by apply lookup_take_Some in Hc as [Hc _].
  - by eapply list_elem_of_lookup_2.
Qed.

Lemma subdir_index_missing (m : Memory) (d : Dir) (name : string) :
  name ∉ subdir_names m d -> subdir_index m d name = -1.
Proof.
  intros Hin. destruct (decide (subdir_index m d name = -1)) as [|Hne]; [done|].
  by apply index_subdir_names in Hne.
Qed.

Lemma LC_cd_spec (m : Memory) (a : addr) (d : Dir) (arg : string) (r : ptr) :
  cells m !! a = Some d -> wf_dir m d ->
  LinuxCommands.cd_cmd m (Some a) (Some arg) r =
    Ok (cd_target m a d r arg,
        if decide (arg = "/" ∨ arg = "." ∨ arg = ".." ∨ arg ∈ subdir_names m d)
        then "" else puts "no such directory").
Proof.
  intros Ha Hwf. unfold LinuxCommands.cd_cmd, cd_target, streq.
  split_on (arg = "/") H1; [by rewrite decide_True by auto|].
  split_on (arg = ".") H2; [by rewrite decide_True by auto|].
  split_on (arg = "..") H3.
  { rewrite Ha. simpl. by rewrite decide_True by auto. }
  rewrite (find_subdir_index_spec m a d arg Ha Hwf). simpl.
  fold (subdir_index m d arg).
  destruct (decide (arg ∈ subdir_names m d)) as [Hin|Hin].
  - destruct (subdir_index_found m d arg Hwf Hin) as (Hr & c & Hc & _).
    rewrite bool_decide_true by lia. rewrite Ha. simpl.
    rewrite (aget_Ok _ _ c) by (done || lia). rewrite Hc. simpl.
    by rewrite decide_True by auto.
  - rewrite (subdir_index_missing _ _ _ Hin). simpl.
    by rewrite decide_False by tauto.
Qed.

Lemma L2_cd_spec (m : Memory) (a : addr) (d : Dir) (arg : string) (r : ptr) :
  cells m !! a = Some d -> wf_dir m d ->
  L2.cd_cmd m (Some a) (Some arg) r =
    Ok (cd_target m a d r arg,
        if decide (arg = "/" ∨ arg = "." ∨ arg = ".." ∨ arg ∈ subdir_names m d)
        then "" else "cd: no such directory: " +:+ arg +:+ nl).
Proof.
  intros Ha Hwf. unfold L2.cd_cmd, cd_target, streq.
  split_on (arg = "/") H1; [by rewrite decide_True by auto|].
  split_on (arg = "..") H3.
  { rewrite Ha. simpl. rewrite decide_False by (by subst).
    by rewrite decide_True by auto. }
  split_on (arg = ".") H2; [by rewrite decide_True by auto|].
  rewrite (find_subdir_index_spec m a d arg Ha Hwf). simpl.
  fold (subdir_index m d arg).
  destruct (decide (arg ∈ subdir_names m d)) as [Hin|Hin].
  - destruct (subdir_index_found m d arg Hwf Hin) as (Hr & c & Hc & _).
    rewrite bool_decide_true by lia. rewrite Ha. simpl.
    rewrite (aget_Ok _ _ c) by (done || lia). rewrite Hc. simpl.
    by rewrite decide_True by auto.
  - rewrite (subdir_index_missing _ _ _ Hin). simpl.
    by rewrite decide_False by tauto.
Qed.

Lemma exec_effect (prog : Program) (fuel : nat) (s s' : Session) (c : Cmd)
    (out : string) (a : addr) (d : Dir) :
  cwd s = Some a -> cells (mem s) !! a = Some d -> wf_dir (mem s) d ->
  exec prog fuel s c = Ok (s', out) ->
  mem s' = effect prog (mem s) a d c ∧ root s' = root s ∧
  cwd s' = match c with
           | Cd (Some arg) => cd_target (mem s) a d (root s) arg
           | _ => cwd s
           end.
Proof.
  intros Hcwd Ha Hwf. destruct s as [m r cw]. simpl in *. subst cw.
  destruct prog, c as [[n|]|o|[n|]|[n1|] [n2|]|[n|]|[n|]| |[n1|] [n2|]];
    unfold exec, keep_cwd; simpl mem; simpl cwd; simpl root;
    rewrite ?(LC_touch_spec m a d n Ha Hwf), ?(L2_touch_spec m a d n Ha Hwf),
      ?(LC_rm_spec m a d n Ha Hwf), ?(L2_rm_spec m a d n Ha Hwf),
      ?(LC_mv_spec m a d n1 n2 Ha Hwf), ?(L2_mv_spec m a d n1 n2 Ha Hwf),
      ?(LC_mkdir_spec m a d n Ha Hwf), ?(L2_mkdir_spec m a d n Ha Hwf),
      ?(L2_chmod_spec m a d n1 n2 Ha Hwf),
      ?(LC_cd_spec m a d n r Ha Hwf), ?(L2_cd_spec m a d n r Ha Hwf);
    simpl; unfold taken;
    try (intros [= <- <-]; done);
    try (intros H; apply bind_Ok in H as (o' & _ & [= <- <-]); done);
    repeat case_decide; try tauto; try (intros [= <- <-]; done);
    try (destruct (pool m); intros [= <- <-]; done).
Qed.

Lemma wf_mem_effect (prog : Program) (m : Memory) (a : addr) (d : Dir)
    (c : Cmd) :
  wf_mem m -> cells m !! a = Some d -> wf_mem (effect prog m a d c).
Proof.
  intros Hm Ha. pose proof (proj1 Hm _ _ Ha) as Hwf.
  pose proof Hwf as [_ Hfc Hsc _ _].
  destruct c as [[n|]|o|[n|]|[n1|] [n2|]|[n|]|[n|]| |[n1|] [n2|]];
    simpl; try done.
  - case_decide; [done|].
    apply (wf_mem_upd m a d); try done.
    + by apply (shape_add_file m).
    + simpl. lia.
  - case_decide as Hin; [|done].
    destruct (file_index_found m d n Hwf Hin) as [Hr _].
    apply (wf_mem_upd m a d); try done.
    + by apply (shape_del_file m).
    + simpl. lia.
  - case_decide; [|done].
    apply (wf_mem_upd m a d); try done. by apply (shape_alter_file m).
  - case_decide; [done|]. destruct (pool m) as [|b rest] eqn:Hp; [done|].
    apply wf_mem_mkdir; try done. lia.
  - destruct prog; [done|]. case_decide; [|done].
    apply (wf_mem_upd m a d); try done. by apply (shape_alter_file m).
Qed.

Lemma names_kept_effect (prog : Program) (m : Memory) (a : addr) (d : Dir)
    (c : Cmd) :
  cells m !! a = Some d -> names_kept m (effect prog m a d c).
Proof.
  intros Ha.
  destruct c as [[n|]|o|[n|]|[n1|] [n2|]|[n|]|[n|]| |[n1|] [n2|]];
    simpl; try (by intros ? ?);
    try destruct prog; repeat case_decide; try (by intros ? ?);
    try (by apply (names_kept_upd m a d)).
  all: destruct (pool m); [by intros ? ?|]; by apply names_kept_mkdir.
Qed.

Lemma cd_target_live (m : Memory) (a : addr) (d : Dir) (r : ptr)
    (arg : string) :
  cells m !! a = Some d -> wf_dir m d -> is_Some (name_at m r) ->
  is_Some (name_at m (cd_target m a d r arg)).
Proof.
  intros Ha Hwf Hr.
  assert (is_Some (name_at m (Some a))) as Hlive by (simpl; rewrite Ha; eauto).
  unfold cd_target. repeat case_decide; try done.
  - destruct Hwf as [_ _ _ _ [Hp|Hp]]; [by rewrite Hp|].
    by destruct (d_parent d).
  - destruct (subdir_index_found m d arg Hwf) as (_ & c & Hc & _ & Hin); [done|].
    rewrite Hc. simpl. destruct Hwf as [_ _ _ Hch _].
    rewrite Forall_forall in Hch. by apply Hch.
Qed.

Lemma exec_wf (prog : Program) (fuel : nat) (s s' : Session) (c : Cmd)
    (out : string) :
  wf_session s -> exec prog fuel s c = Ok (s', out) -> wf_session s'.
Proof.
  intros (Hm & Hcwd & Hroot) Hex.
  destruct (cwd s) as [a|] eqn:Ecwd; [|by destruct Hcwd].
  destruct (cells (mem s) !! a) as [d|] eqn:Ha;
    [|simpl in Hcwd; rewrite Ha in Hcwd; by destruct Hcwd].
  pose proof (proj1 Hm _ _ Ha) as Hwf.
  destruct (exec_effect prog fuel s s' c out a d Ecwd Ha Hwf Hex)
    as (Hmem & Hr & Hc).
  pose proof (names_kept_effect prog (mem s) a d c Ha) as Hk.
  unfold wf_session. rewrite Hmem, Hr, Hc. split; [|split].
  - by apply wf_mem_effect.
  - apply (names_kept_live (mem s)); [done|].
    destruct c as [| | | | | [arg|] | | ]; try (rewrite Ecwd; done).
    by apply cd_target_live.
  - by apply (names_kept_live (mem s)).
Qed.

Lemma run_wf (prog : Program) (fuel : nat) (cs : list Cmd) (s s' : Session)
    (out : string) :
  wf_session s -> run prog fuel s cs = Ok (s', out) -> wf_session s'.
Proof.
  revert s out. induction cs as [|c cs IH]; intros s out Hwf; simpl.
  - by intros [= <- _].
  - intros H. apply bind_Ok in H as ([s1 o1] & H1 & H).
    apply bind_Ok in H as ([s2 o2] & H2 & [= <- _]).
    eapply IH; [|exact H2]. by eapply exec_wf.
Qed.

(** The heap when [main] starts: no block is live, and the pool holds
    blocks of the size of a [struct Dir]. *)
Definition initial (m : Memory) : Prop :=
  cells m = ∅ ∧ Forall block_shape (pool m).

Lemma start_spec (m : Memory) :
  start m =
    Ok (match pool m with
        | [] => mkSession m None None
        | b :: rest =>
            let r := fresh (dom (cells m)) in
            mkSession (mkMem (<[r := init_dir b "/" None]> (cells m)) rest)
                      (Some r) (Some r)
        end).
Proof.
  unfold start. rewrite create_dir_spec. by destruct (pool m).
Qed.

Lemma start_wf (m : Memory) (s : Session) :
  initial m -> pool m ≠ [] -> start m = Ok s -> wf_session s.
Proof.
  intros [Hc Hp] Hne. rewrite start_spec.
  destruct (pool m) as [|b rest]; [done|]. intros [= <-].
  apply Forall_cons in Hp as [Hb Hrest]. rewrite Hc.
  split; [split; [|done]|]; simpl.
  - intros a d. rewrite lookup_insert_Some, lookup_empty.
    intros [[_ <-]|[_ [=]]].
    split; simpl;
      [ done | unfold MAX_FILES; lia | unfold MAX_SUBDIRS; lia
      | unfold children; simpl; apply Forall_nil_2 | by left ].
  - rewrite lookup_insert_eq. simpl. eauto.
Qed.

(** ** The path printed by [pwd] *)

Lemma str_app_assoc (a b c : string) : (a +:+ b) +:+ c = a +:+ b +:+ c.
Proof.
  induction a as [|x a IH]; [done|].
  change (String x ((a +:+ b) +:+ c) = String x (a +:+ b +:+ c)).
  by rewrite IH.
Qed.

Lemma str_app_empty_r (a : string) : a +:+ "" = a.
Proof.
  induction a as [|x a IH]; [done|].
  change (String x (a +:+ "") = String x a). by rewrite IH.
Qed.

(** The names on the way from a block up to the root, nearest first. *)
Inductive chain (m : Memory) : ptr -> list string -> Prop :=
| chain_nil : chain m None []
| chain_cons (a : addr) (d : Dir) (ns : list string) :
    cells m !! a = Some d -> chain m (d_parent d) ns ->
    chain m (Some a) (d_name d :: ns).

(** The text of a list of names, nearest first: the farthest name comes
    first, and every name but the nearest is followed by the separator. *)
Fixpoint ancestors_text (up : list string) : string :=
  match up with
  | [] => ""
  | s :: up' => ancestors_text up' +:+ s +:+ "/"
  end.

Definition path_text (ns : list string) : string :=
  match ns with
  | [] => ""
  | s :: up => ancestors_text up +:+ s
  end.

Lemma ancestors_text_snoc (up : list string) (s : string) :
  ancestors_text (up ++ [s]) = s +:+ "/" +:+ ancestors_text up.
Proof.
  induction up as [|x up IH]; simpl.
  - by rewrite str_app_empty_r.
  - by rewrite IH, !str_app_assoc.
Qed.

Lemma path_text_snoc (ns : list string) (s : string) :
  ns ≠ [] -> path_text (ns ++ [s]) = s +:+ "/" +:+ path_text ns.
Proof.
  destruct ns as [|x up]; [done|]. intros _. simpl.
  by rewrite ancestors_text_snoc, !str_app_assoc.
Qed.

Lemma pwd_print_spec (parts : list (option string)) (ns : list string)
    (k : nat) :
  (k <= length ns)%nat ->
  take (length ns) parts = Some <$> ns ->
  pwd_print parts k (Z.of_nat k - 1) = Ok (path_text (take k ns)).
Proof.
  intros Hk Hparts. induction k as [|k IH]; [done|].
  destruct (lookup_lt_is_Some_2 ns k) as [s Hs]; [lia|].
  assert (parts !! k = Some (Some s)) as Hp.
  { rewrite <- (lookup_take_lt parts (length ns)) by lia.
    by rewrite Hparts, list_lookup_fmap, Hs. }
  simpl pwd_print. replace (Z.of_nat (S k) - 1) with (Z.of_nat k) by lia.
  rewrite (aget_Ok _ _ (Some s)) by (lia || by rewrite Nat2Z.id). simpl.
  replace (Z.of_nat k - 1) with (Z.of_nat k - 1) in IH by done.
  rewrite IH by lia. simpl. f_equal.
  rewrite (take_S_r _ _ s) by done.
  destruct k as [|k].
  - simpl. rewrite str_app_empty_r. unfold streq.
    case_bool_decide; simpl; [by subst|by rewrite str_app_empty_r].
  - rewrite path_text_snoc by (destruct ns; [simpl in Hk; lia|done]).
    repeat case_bool_decide; try lia. simpl. by rewrite str_app_assoc.
Qed.

(** The array [parts] after the names [ns] were written from [depth] on. *)
Definition written (parts : list (option string)) (depth : Z)
    (ns : list string) : list (option string) :=
  take (Z.to_nat depth) parts ++ (Some <$> ns)
  ++ drop (Z.to_nat depth + length ns) parts.

Lemma written_nil (parts : list (option string)) (depth : Z) :
  written parts depth [] = parts.
Proof. unfold written. simpl. rewrite Nat.add_0_r. apply take_drop. Qed.

Lemma written_cons (parts : list (option string)) (depth : Z) (s : string)
    (ns : list string) :
  0 <= depth < Z.of_nat (length parts) ->
  written (<[Z.to_nat depth := Some s]> parts) (depth + 1) ns
  = written parts depth (s :: ns).
Proof.
  intros Hd. unfold written.
  replace (Z.to_nat (depth + 1)) with (S (Z.to_nat depth)) by lia.
  rewrite (take_S_r _ _ (Some s)) by (apply list_lookup_insert_eq; lia).
  rewrite take_insert_ge by lia. rewrite drop_insert_lt by lia.
  rewrite <- app_assoc. simpl.
  by replace (S (Z.to_nat depth + length ns)) with
    (Z.to_nat depth + S (length ns))%nat by lia.
Qed.

Lemma LC_pwd_walk_spec (m : Memory) (p : ptr) (ns : list string) :
  chain m p ns ->
  ∀ (fuel : nat) (parts : list (option string)) (depth : Z),
    0 <= depth -> depth + Z.of_nat (length ns) <= Z.of_nat (length parts) ->
    (length ns < fuel)%nat ->
    LinuxCommands.pwd_walk fuel m p parts depth
    = Ok (written parts depth ns, depth + Z.of_nat (length ns)).
Proof.
  induction 1 as [|a d ns Ha _ IH]; intros fuel parts depth Hd Hlen Hfuel.
  - destruct fuel; [simpl in Hfuel; lia|]. simpl.
    rewrite written_nil. do 2 f_equal. lia.
  - destruct fuel; [simpl in Hfuel; lia|]. simpl in *. rewrite Ha. simpl.
    rewrite aset_Ok by lia. simpl.
    rewrite IH; [|lia|rewrite length_insert; lia|lia].
    rewrite written_cons by lia. do 2 f_equal. lia.
Qed.

(** Past the end of [parts] the walk of linux-commands.c writes out of
    bounds. *)
Lemma LC_pwd_walk_overflow (m : Memory) (p : ptr) (ns : list string) :
  chain m p ns ->
  ∀ (fuel : nat) (parts : list (option string)) (depth : Z),
    0 <= depth <= Z.of_nat (length parts) ->
    Z.of_nat (length parts) < depth + Z.of_nat (length ns) ->
    (length ns <= fuel)%nat ->
    LinuxCommands.pwd_walk fuel m p parts depth = Fault.
Proof.
  induction 1 as [|a d ns Ha _ IH]; intros fuel parts depth Hd Hlen Hfuel.
  - simpl in Hlen. lia.
  - destruct fuel; [simpl in Hfuel; lia|]. simpl in *. rewrite Ha. simpl.
    destruct (decide (depth < Z.of_nat (length parts))) as [Hlt|Hge].
    + rewrite aset_Ok by lia. simpl.
      apply IH; rewrite ?length_insert; lia.
    + by rewrite aset_out by lia.
Qed.

(** The names met on the first [k] steps from a block towards the root. *)
Fixpoint ancestors (m : Memory) (k : nat) (p : ptr) : list string :=
  match k, p with
  | S k', Some a =>
      match cells m !! a with
      | Some d => d_name d :: ancestors m k' (d_parent d)
      | None => []
      end
  | _, _ => []
  end.

Lemma ancestors_length (m : Memory) (k : nat) (p : ptr) :
  (length (ancestors m k p) <= k)%nat.
Proof.
  revert p. induction k as [|k IH]; intros [a|]; simpl; try lia.
  destruct (cells m !! a); simpl; [|lia]. specialize (IH (d_parent d)). lia.
Qed.

Lemma ancestors_chain (m : Memory) (p : ptr) (ns : list string) (k : nat) :
  chain m p ns -> ancestors m k p = take k ns.
Proof.
  intros Hc. revert k. induction Hc as [|a d ns Ha _ IH]; intros [|k]; simpl;
    try done.
  by rewrite Ha, IH.
Qed.

(** The walk of L2.c stops by itself after [MAX_DEPTH] blocks, whatever
    the heap looks like. *)
Lemma L2_pwd_walk_spec (m : Memory) (fuel : nat) :
  wf_mem m ->
  ∀ (p : ptr) (parts : list (option string)) (depth : Z),
    p = None ∨ is_Some (name_at m p) ->
    0 <= depth <= L2.MAX_DEPTH -> Z.of_nat (length parts) = L2.MAX_DEPTH ->
    (Z.to_nat (L2.MAX_DEPTH - depth) < fuel)%nat ->
    let ns := ancestors m (Z.to_nat (L2.MAX_DEPTH - depth)) p in
    L2.pwd_walk fuel m p parts depth
    = Ok (written parts depth ns, depth + Z.of_nat (length ns)).
Proof.
  intros Hm. induction fuel as [|fuel IH]; intros p parts depth Hp Hd Hlen Hfuel;
    [lia|].
  destruct p as [a|].
  2: { simpl. destruct (Z.to_nat _); simpl; rewrite written_nil;
       do 2 f_equal; lia. }
  destruct Hp as [|[s Hs]]; [done|]. simpl in Hs.
  destruct (cells m !! a) as [d|] eqn:Ha; [|done].
  simpl L2.pwd_walk.
  destruct (decide (depth < L2.MAX_DEPTH)) as [Hlt|Hge].
  - rewrite bool_decide_true by done. simpl. rewrite Ha. simpl.
    rewrite aset_Ok by lia. simpl.
    rewrite IH; [| |lia|rewrite length_insert; lia|lia].
    + replace (Z.to_nat (L2.MAX_DEPTH - depth))
        with (S (Z.to_nat (L2.MAX_DEPTH - (depth + 1)))) by lia.
      simpl. rewrite Ha. rewrite written_cons by lia. simpl.
      do 2 f_equal. lia.
    + destruct (proj1 Hm _ _ Ha) as [_ _ _ _ Hpar]. exact Hpar.
  - rewrite bool_decide_false by done.
    replace (Z.to_nat (L2.MAX_DEPTH - depth)) with 0%nat by lia.
    simpl. rewrite written_nil. do 2 f_equal. lia.
Qed.

Lemma written_take (ns : list string) (n : nat) :
  (length ns <= n)%nat ->
  take (length ns) (written (replicate n None) 0 ns) = Some <$> ns.
Proof.
  intros Hn. unfold written. simpl.
  rewrite take_app_le by (by rewrite length_fmap).
  rewrite take_ge by (by rewrite length_fmap). done.
Qed.

(** At the root both programs print the separator alone. *)
Lemma LC_pwd_root (m : Memory) (fuel : nat) (a : addr) (d : Dir) :
  cells m !! a = Some d -> d_parent d = None ->
  LinuxCommands.pwd_cmd fuel m (Some a) = Ok (puts "/").
Proof.
  intros Ha Hp. unfold LinuxCommands.pwd_cmd. simpl. rewrite Ha. simpl.
  by rewrite Hp.
Qed.

Lemma L2_pwd_root (m : Memory) (fuel : nat) (a : addr) (d : Dir) :
  cells m !! a = Some d -> d_parent d = None ->
  L2.pwd_cmd fuel m (Some a) = Ok (puts "/").
Proof.
  intros Ha Hp. unfold L2.pwd_cmd. simpl. rewrite Ha. simpl. by rewrite Hp.
Qed.

(** Below the root, linux-commands.c prints the names of the chain, the
    root's first, each but the last followed by the separator. *)
Lemma LC_pwd_chain (m : Memory) (fuel : nat) (a : addr) (ns : list string) :
  chain m (Some a) ns -> (2 <= length ns <= 64)%nat -> (length ns < fuel)%nat ->
  LinuxCommands.pwd_cmd fuel m (Some a) = Ok (path_text ns +:+ nl).
Proof.
  intros Hc Hlen Hfuel. unfold LinuxCommands.pwd_cmd.
  pose proof Hc as Hc'. inversion Hc' as [|a' d ns' Ha Hup]; subst.
  simpl. rewrite Ha. simpl.
  destruct (d_parent d) as [q|] eqn:Hq.
  2: { inversion Hup; subst. simpl in Hlen. lia. }
  rewrite <- Hq in Hup.
  rewrite (LC_pwd_walk_spec m (Some a) (d_name d :: ns') Hc);
    [|lia|simpl in *; lia|done].
  replace (0 + Z.of_nat (length (d_name d :: ns')))
    with (Z.of_nat (length (d_name d :: ns'))) by lia.
  cbn [mbind res_bind]. rewrite Nat2Z.id.
  rewrite (pwd_print_spec _ (d_name d :: ns'));
    [|done|apply (written_take _ 64); simpl in *; lia].
  rewrite take_ge by done. done.
Qed.

(** On a chain of more than 64 blocks it writes past the end of [parts]. *)
Lemma LC_pwd_overflow (m : Memory) (fuel : nat) (a : addr) (ns : list string) :
  chain m (Some a) ns -> (64 < length ns)%nat -> (length ns <= fuel)%nat ->
  LinuxCommands.pwd_cmd fuel m (Some a) = Fault.
Proof.
  intros Hc Hlen Hfuel. unfold LinuxCommands.pwd_cmd.
  pose proof Hc as Hc'. inversion Hc' as [|a' d ns' Ha Hup]; subst.
  simpl. rewrite Ha. simpl.
  destruct (d_parent d) as [q|] eqn:Hq.
  2: { inversion Hup; subst. simpl in Hlen. lia. }
  rewrite (LC_pwd_walk_overflow m (Some a) (d_name d :: ns') Hc);
    [done|simpl; lia|simpl in *; lia|done].
Qed.

(** L2.c prints the names of the nearest 64 blocks, on every well-formed
    heap and with any budget above 64 rounds. *)
Lemma L2_pwd_spec (m : Memory) (fuel : nat) (a : addr) (d : Dir) :
  wf_mem m -> cells m !! a = Some d -> d_parent d ≠ None -> (64 < fuel)%nat ->
  L2.pwd_cmd fuel m (Some a)
  = Ok (path_text (ancestors m 64 (Some a)) +:+ nl).
Proof.
  intros Hm Ha Hp Hfuel. unfold L2.pwd_cmd. simpl load. rewrite Ha.
  cbn [mbind res_bind]. destruct (d_parent d) as [q|] eqn:Hq; [|done].
  rewrite (L2_pwd_walk_spec m fuel Hm);
    [|right; simpl; rewrite Ha; simpl; eauto|unfold L2.MAX_DEPTH; lia
     |by rewrite length_replicate, Z2Nat.id|unfold L2.MAX_DEPTH; lia].
  change (Z.to_nat (L2.MAX_DEPTH - 0)) with 64%nat.
  change (Z.to_nat L2.MAX_DEPTH) with 64%nat.
  set (ns := ancestors m 64 (Some a)).
  cbn [mbind res_bind].
  replace (0 + Z.of_nat (length ns)) with (Z.of_nat (length ns)) by lia.
  rewrite Nat2Z.id.
  rewrite (pwd_print_spec _ ns);
    [|done|apply written_take, ancestors_length].
  by rewrite take_ge by done.
Qed.

(** ** Entering the directory [mkdir] just made *)

Lemma index_in_app_last {A : Type} (P : A -> Prop) `{!∀ x, Decision (P x)}
    (l : list A) (x : A) :
  Forall (λ y, ¬ P y) l -> P x -> index_in P (l ++ [x]) = Z.of_nat (length l).
Proof.
  intros Hl Hx. induction Hl as [|y l Hy _ IH]; simpl.
  - rewrite index_in_cons. by rewrite decide_True.
  - rewrite index_in_cons, decide_False by done. rewrite IH.
    rewrite decide_False by lia. lia.
Qed.

Lemma omap_names_kept (m m' : Memory) (l : list ptr) :
  names_kept m m' -> Forall (λ p, is_Some (name_at m p)) l ->
  omap (name_at m') l = omap (name_at m) l.
Proof.
  intros Hk Hl. induction Hl as [|p l [s Hs] _ IH]; [done|].
  cbn. rewrite Hs, (Hk _ _ Hs). cbn. by rewrite IH.
Qed.

Definition special (n : string) : Prop := n = "/" ∨ n = "." ∨ n = "..".

Section mkdir_cd.
Context (m : Memory) (a : addr) (d : Dir) (n : string) (b : Dir)
        (rest : list Dir).
Context (Ha : cells m !! a = Some d) (Hwf : wf_dir m d).
Context (Hroom : d_subdir_count d < MAX_SUBDIRS).
Context (Hshort : (String.length n <= 31)%nat).
Context (Hfree : n ∉ subdir_names m d).

Let a' := fresh (dom (cells m)).
Let m' := mem_mkdir m a d n b rest.
Let d' := add_subdir d (Some a').

Lemma mkdir_stored_name :
  name_at m' (Some a') = Some (strncpy n (NAME_LEN - 1)).
Proof using Ha.
  unfold name_at, m', a'. by rewrite (mkdir_new_block m a d n b rest Ha).
Qed.

Lemma mkdir_stored_names :
  subdir_names m' d' = subdir_names m d ++ [strncpy n (NAME_LEN - 1)].
Proof using Ha Hwf Hroom.
  unfold subdir_names, d'. rewrite (children_add_subdir m) by done.
  rewrite omap_app.
  rewrite (omap_names_kept m m');
    [|by apply names_kept_mkdir|by destruct Hwf].
  f_equal.
  change (omap (name_at m') [Some a'])
    with (match name_at m' (Some a') with Some y => [y] | None => [] end).
  by rewrite mkdir_stored_name.
Qed.

Lemma mkdir_new_name : name_at m' (Some a') = Some n.
Proof using Ha Hshort.
  rewrite mkdir_stored_name. by rewrite strncpy_short.
Qed.

Lemma mkdir_subdir_names : subdir_names m' d' = subdir_names m d ++ [n].
Proof using Ha Hwf Hroom Hshort.
  rewrite mkdir_stored_names. by rewrite strncpy_short.
Qed.

Lemma mkdir_subdir_index : subdir_index m' d' n = d_subdir_count d.
Proof using Ha Hwf Hroom Hshort Hfree.
  unfold subdir_index, d'. rewrite (children_add_subdir m) by done.
  rewrite index_in_app_last.
  - rewrite (children_length m) by done. destruct Hwf. lia.
  - apply Forall_forall. intros p Hp Hn. apply Hfree.
    unfold subdir_names. rewrite list_elem_of_omap. exists p. split; [done|].
    destruct Hwf as [_ _ _ Hch _]. rewrite Forall_forall in Hch.
    destruct (Hch p Hp) as [s Hs].
    pose proof (names_kept_mkdir m a d n b rest Ha _ _ Hs) as Hs'.
    fold m' in Hs'. congruence.
  - apply mkdir_new_name.
Qed.

(** [cd n] leads into the new block, whose parent is [a]. *)
Lemma mkdir_cd_target (r : ptr) :
  ¬ special n -> cd_target m' a d' r n = Some a'.
Proof using Ha Hwf Hroom Hshort Hfree.
  intros Hsp. unfold cd_target, special in *.
  rewrite !decide_False by tauto.
  rewrite decide_True by (rewrite mkdir_subdir_names; set_solver).
  rewrite mkdir_subdir_index. unfold d'. simpl.
  rewrite list_lookup_insert_eq; [done|].
  destruct Hwf as [[_ Hlen] _ Hsc _ _]. unfold MAX_SUBDIRS in *. lia.
Qed.

Lemma chain_kept_mkdir (p : ptr) (ns : list string) :
  chain m p ns -> chain m' p ns.
Proof using Ha.
  induction 1 as [|c dc ns Hc _ IH]; [constructor|].
  destruct (decide (c = a)) as [->|Hne].
  - assert (dc = d) as -> by congruence.
    apply (chain_cons m' a d'); [apply mkdir_parent_block|exact IH].
  - apply (chain_cons m' c dc); [|exact IH].
    unfold m'. rewrite mkdir_other_block; [done..|].
    intros ->. by apply (fresh_not_live m (fresh (dom (cells m))) dc).
Qed.

Lemma chain_new_block (ns : list string) :
  chain m (Some a) ns -> chain m' (Some a') (n :: ns).
Proof using Ha Hshort.
  intros Hc.
  pose proof (chain_cons m' a' (init_dir b n (Some a)) ns) as Hnew.
  simpl in Hnew. rewrite strncpy_short in Hnew by done.
  apply Hnew; [apply (mkdir_new_block m a d n b rest Ha)|].
  by apply chain_kept_mkdir.
Qed.
End mkdir_cd.

(** What [mkdir] prints when it makes the directory. *)
Definition created (n : string) : string :=
  "directory '" +:+ n +:+ "' created" +:+ nl.

Lemma exec_mkdir_ok (prog : Program) (fuel : nat) (s : Session) (a : addr)
    (d : Dir) (n : string) (b : Dir) (rest : list Dir) :
  cwd s = Some a -> cells (mem s) !! a = Some d -> wf_dir (mem s) d ->
  d_subdir_count d < MAX_SUBDIRS -> ¬ taken (mem s) d n ->
  pool (mem s) = b :: rest ->
  exec prog fuel s (Mkdir (Some n))
  = Ok (mkSession (mem_mkdir (mem s) a d n b rest) (root s) (Some a),
        created n).
Proof.
  intros Hcwd Ha Hwf Hroom Hfree Hpool. destruct s as [m r cw].
  simpl in *. subst cw.
  destruct prog; unfold exec, keep_cwd; simpl mem; simpl cwd; simpl root;
    rewrite ?(LC_mkdir_spec m a d n Ha Hwf), ?(L2_mkdir_spec m a d n Ha Hwf);
    rewrite decide_False by lia; rewrite decide_False by done;
    by rewrite Hpool.
Qed.

(** The message of [cd] for a name it cannot resolve. *)
Definition no_such_directory (prog : Program) (arg : string) : string :=
  match prog with
  | linux_commands_c => puts "no such directory"
  | L2_c => "cd: no such directory: " +:+ arg +:+ nl
  end.

Lemma exec_cd (prog : Program) (fuel : nat) (s : Session) (a : addr)
    (d : Dir) (arg : string) :
  cwd s = Some a -> cells (mem s) !! a = Some d -> wf_dir (mem s) d ->
  exec prog fuel s (Cd (Some arg))
  = Ok (mkSession (mem s) (root s) (cd_target (mem s) a d (root s) arg),
        if decide (arg = "/" ∨ arg = "." ∨ arg = ".."
                   ∨ arg ∈ subdir_names (mem s) d)
        then "" else no_such_directory prog arg).
Proof.
  intros Hcwd Ha Hwf. destruct s as [m r cw]. simpl in *. subst cw.
  destruct prog; unfold exec; simpl mem; simpl cwd; simpl root;
    rewrite ?(LC_cd_spec m a d arg r Ha Hwf), ?(L2_cd_spec m a d arg r Ha Hwf);
    done.
Qed.

(** [mkdir n] then [cd n]: the session is in the new block. *)
Lemma run_mkdir_cd (prog : Program) (fuel : nat) (s : Session) (a : addr)
    (d : Dir) (n : string) (b : Dir) (rest : list Dir) :
  wf_mem (mem s) -> cwd s = Some a -> cells (mem s) !! a = Some d ->
  d_subdir_count d < MAX_SUBDIRS -> ¬ taken (mem s) d n ->
  (String.length n <= 31)%nat -> ¬ special n ->
  pool (mem s) = b :: rest ->
  run prog fuel s [Mkdir (Some n); Cd (Some n)]
  = Ok (mkSession (mem_mkdir (mem s) a d n b rest) (root s)
          (Some (fresh (dom (cells (mem s))))),
        created n).
Proof.
  intros Hm Hcwd Ha Hroom Hfree Hshort Hsp Hpool.
  pose proof (proj1 Hm _ _ Ha) as Hwf.
  assert (n ∉ subdir_names (mem s) d) as Hns by (unfold taken in Hfree; tauto).
  pose proof (wf_mem_mkdir (mem s) a d n b rest Hm Ha Hroom Hpool) as Hm'.
  pose proof (mkdir_parent_block (mem s) a d n b rest) as Ha'.
  simpl run.
  rewrite (exec_mkdir_ok prog fuel s a d n b rest) by done.
  cbn [mbind res_bind].
  set (s1 := mkSession _ _ _).
  rewrite (exec_cd prog fuel s1 a _ n eq_refl Ha' (proj1 Hm' _ _ Ha')).
  cbn [mbind res_bind]. simpl mem. simpl root.
  rewrite decide_True
    by (rewrite (mkdir_subdir_names (mem s) a d n b rest); try done;
        do 3 right; apply elem_of_app; right; by apply list_elem_of_singleton).
  rewrite (mkdir_cd_target (mem s) a d n b rest) by done.
  unfold created. by rewrite !str_app_assoc, str_app_empty_r.
Qed.

Lemma run_app (prog : Program) (fuel : nat) (cs1 cs2 : list Cmd) (s : Session) :
  run prog fuel s (cs1 ++ cs2)
  = '(s1, o1) ← run prog fuel s cs1;
    '(s2, o2) ← run prog fuel s1 cs2;
    Ok (s2, o1 +:+ o2).
Proof.
  revert s. induction cs1 as [|c cs1 IH]; intros s; simpl.
  - by destruct (run prog fuel s cs2) as [[s2 o2]| |].
  - destruct (exec prog fuel s c) as [[s1 o1]| |]; simpl; [|done..].
    rewrite IH. destruct (run prog fuel s1 cs1) as [[s2 o2]| |]; simpl; [|done..].
    destruct (run prog fuel s2 cs2) as [[s3 o3]| |]; simpl; [|done..].
    by rewrite str_app_assoc.
Qed.

(** A fresh directory block holds nothing. *)
Lemma init_dir_empty (m : Memory) (b : Dir) (n name : string) (p : ptr) :
  ¬ taken m (init_dir b n p) name.
Proof.
  unfold taken, file_names, subdir_names, files_of, children. simpl.
  intros [H|H]; by apply elem_of_nil in H.
Qed.

(** ** Sessions the programs can be in *)

(** [main] starts on a heap without live blocks, obtains the root, and then
    runs commands.  (When the first [malloc] fails the root is [NULL] and
    the first command that looks at it crashes: such a start is left out.) *)
Inductive reachable (prog : Program) : Session -> Prop :=
| reach_start (m : Memory) (s : Session) :
    initial m -> pool m ≠ [] -> start m = Ok s -> reachable prog s
| reach_step (fuel : nat) (s s' : Session) (c : Cmd) (out : string) :
    reachable prog s -> exec prog fuel s c = Ok (s', out) ->
    reachable prog s'.

Lemma reachable_run (prog : Program) (fuel : nat) (cs : list Cmd)
    (s s' : Session) (out : string) :
  reachable prog s -> run prog fuel s cs = Ok (s', out) -> reachable prog s'.
Proof.
  revert s out. induction cs as [|c cs IH]; intros s out Hr; simpl.
  - by intros [= <- _].
  - intros H. apply bind_Ok in H as ([s1 o1] & H1 & H).
    apply bind_Ok in H as ([s2 o2] & H2 & [= <- _]).
    eapply IH; [|exact H2]. by eapply reach_step.
Qed.

Lemma reachable_wf (prog : Program) (s : Session) :
  reachable prog s -> wf_session s.
Proof.
  induction 1 as [m s Hi Hp Hs|fuel s s' c out _ IH Hex].
  - by eapply start_wf.
  - by eapply exec_wf.
Qed.

(** The current directory of a reachable session is a live block. *)
Lemma reachable_cwd (prog : Program) (s : Session) :
  reachable prog s ->
  ∃ a d, cwd s = Some a ∧ cells (mem s) !! a = Some d ∧ wf_dir (mem s) d.
Proof.
  intros Hr. destruct (reachable_wf prog s Hr) as (Hm & [n Hn] & _).
  destruct (cwd s) as [a|]; [|done]. simpl in Hn.
  destruct (cells (mem s) !! a) as [d|] eqn:Ha; [|done].
  exists a, d. split; [done|]. split; [done|]. exact (proj1 Hm a d Ha).
Qed.

(** Every stored name fits the 32-byte field. *)
Definition names_short (m : Memory) : Prop :=
  ∀ a d, cells m !! a = Some d ->
    (String.length (d_name d) <= 31)%nat ∧
    Forall (λ n, (String.length n <= 31)%nat) (file_names d).

Lemma names_short_upd (m : Memory) (a : addr) (d d' : Dir) :
  names_short m -> d_name d' = d_name d ->
  cells m !! a = Some d ->
  Forall (λ n, (String.length n <= 31)%nat) (file_names d') ->
  names_short (upd m a d').
Proof.
  intros Hs Hn Ha Hf c dc. simpl.
  destruct (decide (a = c)) as [<-|Hne].
  - rewrite lookup_insert_eq. intros [= <-]. rewrite Hn.
    split; [apply (Hs _ _ Ha)|done].
  - rewrite lookup_insert_ne by done. apply Hs.
Qed.

Lemma file_names_alter_name (m : Memory) (d : Dir) (idx : Z) (n : string) :
  wf_dir m d ->
  file_names (alter_file d idx (λ f, set_f_name f n))
  = alter (λ _, n) (Z.to_nat idx) (file_names d).
Proof.
  intros Hwf. unfold file_names. rewrite (files_of_alter_file).
  apply list_fmap_alter. by apply Forall_forall.
Qed.

Lemma file_names_alter_perm (m : Memory) (d : Dir) (idx : Z) (p : string) :
  wf_dir m d ->
  file_names (alter_file d idx (λ f, set_f_perm f p)) = file_names d.
Proof.
  intros Hwf. unfold file_names. rewrite (files_of_alter_file).
  rewrite (list_fmap_alter f_name (λ f, set_f_perm f p) id)
    by (by apply Forall_forall).
  by apply list_alter_id.
Qed.

Lemma Forall_alter_const {A : Type} (P : A -> Prop) (l : list A) (i : nat)
    (x : A) :
  Forall P l -> P x -> Forall P (alter (λ _, x) i l).
Proof.
  intros Hl Hx. apply Forall_lookup. intros j y.
  destruct (decide (i = j)) as [<-|Hne].
  - rewrite list_lookup_alter_eq. destruct (l !! i); simpl; [|done].
    by intros [= <-].
  - rewrite list_lookup_alter_ne by done. rewrite Forall_lookup in Hl.
    apply Hl.
Qed.

Lemma names_short_effect (prog : Program) (m : Memory) (a : addr) (d : Dir)
    (c : Cmd) :
  wf_mem m -> names_short m -> cells m !! a = Some d ->
  names_short (effect prog m a d c).
Proof.
  intros Hm Hs Ha. pose proof (proj1 Hm _ _ Ha) as Hwf.
  destruct (Hs _ _ Ha) as [Hdn Hfn].
  destruct c as [[n|]|o|[n|]|[n1|] [n2|]|[n|]|[n|]| |[n1|] [n2|]];
    simpl; try done.
  - case_decide as Hc; [done|].
    apply (names_short_upd m a d); try done.
    unfold file_names. rewrite (files_of_add_file m) by (done || lia).
    rewrite fmap_app. apply Forall_app. split; [done|].
    apply Forall_singleton. apply strncpy_length.
  - case_decide as Hin; [|done].
    destruct (file_index_found m d n Hwf Hin) as [Hr _].
    apply (names_short_upd m a d); try done.
    unfold file_names. rewrite (files_of_del_file m) by done.
    rewrite list_fmap_delete, delete_take_drop. apply Forall_app.
    split; [by apply Forall_take|by apply Forall_drop].
  - case_decide; [|done].
    apply (names_short_upd m a d); try done.
    rewrite (file_names_alter_name m) by done.
    apply Forall_alter_const; [done|apply strncpy_length].
  - case_decide; [done|]. destruct (pool m) as [|b rest] eqn:Hp; [done|].
    intros c dc Hc.
    destruct (decide (c = a)) as [->|Hca].
    { rewrite mkdir_parent_block in Hc. by injection Hc as <-. }
    destruct (decide (c = fresh (dom (cells m)))) as [->|Hcn].
    { rewrite (mkdir_new_block m a d n b rest Ha) in Hc. injection Hc as <-.
      split; [apply strncpy_length|]. unfold file_names, files_of. simpl.
      apply Forall_nil_2. }
    rewrite mkdir_other_block in Hc by done. exact (Hs c dc Hc).
  - destruct prog; [done|]. case_decide; [|done].
    apply (names_short_upd m a d); try done.
    by rewrite (file_names_alter_perm m).
Qed.

Lemma reachable_names_short (prog : Program) (s : Session) :
  reachable prog s -> names_short (mem s).
Proof.
  induction 1 as [m s [Hc _] Hp Hs|fuel s s' c out Hr IH Hex].
  - rewrite start_spec in Hs. destruct (pool m) as [|b rest]; [done|].
    injection Hs as <-. unfold names_short. simpl. rewrite Hc. intros a d.
    rewrite lookup_insert_Some, lookup_empty.
    intros [[_ <-]|[_ [=]]]. split; [simpl; lia|].
    unfold file_names, files_of. simpl. apply Forall_nil_2.
  - destruct (reachable_cwd prog s Hr) as (a & d & Hcwd & Ha & Hwf).
    destruct (exec_effect prog fuel s s' c out a d Hcwd Ha Hwf Hex)
      as (-> & _ & _).
    apply names_short_effect; [apply (reachable_wf prog s Hr)|done|done].
Qed.

(** No command renames a directory or moves it to another parent. *)
Lemma effect_block_kept (prog : Program) (m : Memory) (a : addr) (d : Dir)
    (c : Cmd) (x : addr) (dx : Dir) :
  cells m !! a = Some d -> cells m !! x = Some dx ->
  ∃ dx', cells (effect prog m a d c) !! x = Some dx' ∧
         d_name dx' = d_name dx ∧ d_parent dx' = d_parent dx.
Proof.
  intros Ha Hx.
  assert (∀ d', d_name d' = d_name d -> d_parent d' = d_parent d ->
            ∃ dx', cells (upd m a d') !! x = Some dx' ∧
                   d_name dx' = d_name dx ∧ d_parent dx' = d_parent dx) as Hupd.
  { intros d' Hn Hp. simpl. destruct (decide (a = x)) as [->|Hne].
    - rewrite lookup_insert_eq. exists d'. by replace dx with d by congruence.
    - rewrite lookup_insert_ne by done. eauto. }
  destruct c as [[n|]|o|[n|]|[n1|] [n2|]|[n|]|[n|]| |[n1|] [n2|]];
    simpl; eauto; try destruct prog; repeat case_decide; eauto.
  all: destruct (pool m) as [|b rest]; eauto.
  all: destruct (decide (x = a)) as [->|Hne];
    [ rewrite mkdir_parent_block; replace dx with d by congruence; eauto
    | rewrite mkdir_other_block;
      [eauto|done|intros ->; by apply (fresh_not_live m _ dx Hx)] ].
Qed.

(** The root has no parent. *)
Lemma reachable_root (prog : Program) (s : Session) :
  reachable prog s ->
  ∃ r d, root s = Some r ∧ cells (mem s) !! r = Some d ∧ d_parent d = None.
Proof.
  induction 1 as [m s [Hc _] Hp Hs|fuel s s' c out Hr IH Hex].
  - rewrite start_spec in Hs. destruct (pool m) as [|b rest]; [done|].
    injection Hs as <-. simpl. eexists _, _. split; [done|].
    by rewrite lookup_insert_eq.
  - destruct IH as (r & d & Hroot & Hd & Hpar).
    destruct (reachable_cwd prog s Hr) as (a & da & Hcwd & Ha & Hwf).
    destruct (exec_effect prog fuel s s' c out a da Hcwd Ha Hwf Hex)
      as (-> & -> & _).
    destruct (effect_block_kept prog (mem s) a da c r d Ha Hd)
      as (d' & Hd' & _ & Hp').
    exists r, d'. by rewrite Hp'.
Qed.

(** ** Sample heaps *)

(** A block as [malloc] may return it: nothing in it means anything. *)
Definition junk_file : File := mkFile "junk" (-7) "???" "junk".
Definition raw_block : Dir :=
  mkDir "junk" (Some 99%nat) (replicate 16 junk_file) 42
        (replicate 16 (Some 99%nat)) 42.

(** The heap of a process that can obtain [k] blocks. *)
Definition boot (k : nat) : Memory := mkMem ∅ (replicate k raw_block).

Lemma boot_initial (k : nat) : initial (boot k).
Proof.
  split; [done|]. apply Forall_replicate. by split.
Qed.

(** The session after [main] has run the commands [cs] on [boot k]. *)
Definition session_after (prog : Program) (k : nat) (cs : list Cmd)
    : res Session :=
  s ← start (boot k);
  '(s, _) ← run prog 100 s cs;
  Ok s.

Lemma session_after_reachable (prog : Program) (k : nat) (cs : list Cmd)
    (s : Session) :
  session_after prog (S k) cs = Ok s -> reachable prog s.
Proof.
  unfold session_after. intros H.
  apply bind_Ok in H as (s0 & Hs0 & H).
  apply bind_Ok in H as ([s1 o] & Hrun & [= ->]).
  eapply reachable_run; [|exact Hrun].
  eapply reach_start; [apply (boot_initial (S k))|done|exact Hs0].
Qed.

(** * The claims *)

(** ** C1: the path printed after [mkdir a; cd a; mkdir b; cd b] *)

(** C1.  The specification expects [pwd] to print [/a/b] after
    [mkdir a], [cd a], [mkdir b], [cd b] from the root.  Both programs
    print [//a/b]: the root is stored under the name [/], it is not the
    entry of index 0 in [parts] but the last one, so the rendering loop
    prints its name and then the separator.  The theorem gives what a
    whole session prints, on every initial heap with three blocks to
    hand out. *)
Theorem C1_pwd_doubles_the_root_separator (prog : Program) (fuel : nat)
    (m : Memory) (b1 b2 b3 : Dir) (rest : list Dir) :
  initial m -> pool m = b1 :: b2 :: b3 :: rest -> (64 < fuel)%nat ->
  ∃ s',
    (s ← start m;
     run prog fuel s [Mkdir (Some "a"); Cd (Some "a");
                      Mkdir (Some "b"); Cd (Some "b"); Pwd])
    = Ok (s', created "a" +:+ created "b" +:+ "//a/b" +:+ nl).
Proof.
  intros Hinit Hpool Hfuel.
  assert (pool m ≠ []) as Hne by (by rewrite Hpool).
  pose proof (start_wf m _ Hinit Hne (start_spec m)) as Hwf0.
  rewrite start_spec. rewrite Hpool in *. destruct Hinit as [Hcells Hshape].
  cbn [mbind res_bind]. cbv zeta.
  set (r := fresh (dom (cells m))) in *.
  set (d0 := init_dir b1 "/" None) in *.
  set (s0 := mkSession _ _ _) in *.
  assert (cells (mem s0) !! r = Some d0) as Hr by apply lookup_insert_eq.
  (* mkdir a; cd a *)
  change [Mkdir (Some "a"); Cd (Some "a"); Mkdir (Some "b"); Cd (Some "b"); Pwd]
    with ([Mkdir (Some "a"); Cd (Some "a")]
          ++ [Mkdir (Some "b"); Cd (Some "b")] ++ [Pwd]).
  rewrite run_app.
  rewrite (run_mkdir_cd prog fuel s0 r d0 "a" b2 (b3 :: rest));
    [|apply Hwf0|done|done|by unfold MAX_SUBDIRS|apply init_dir_empty
     |simpl; lia|by intros [?|[?|?]]|done].
  cbn [mbind res_bind].
  set (m1 := mem_mkdir (mem s0) r d0 "a" b2 (b3 :: rest)).
  set (a1 := fresh (dom (cells (mem s0)))).
  set (d1 := init_dir b2 "a" (Some r)).
  assert (wf_mem m1) as Hm1.
  { apply wf_mem_mkdir; [apply Hwf0|done|by unfold MAX_SUBDIRS|done]. }
  assert (cells m1 !! a1 = Some d1) as Ha1 by (by apply mkdir_new_block).
  assert (chain (mem s0) (Some r) ["/"]) as Hc0.
  { apply (chain_cons _ r d0 []); [done|constructor]. }
  assert (chain m1 (Some a1) ["a"; "/"]) as Hc1.
  { apply chain_new_block; [done|simpl; lia|done]. }
  (* mkdir b; cd b *)
  rewrite run_app.
  rewrite (run_mkdir_cd prog fuel _ a1 d1 "b" b3 rest);
    [|done|done|done|by unfold MAX_SUBDIRS|apply init_dir_empty
     |simpl; lia|by intros [?|[?|?]]|done].
  cbn [mbind res_bind]. simpl mem. simpl root.
  set (m2 := mem_mkdir m1 a1 d1 "b" b3 rest).
  set (a2 := fresh (dom (cells m1))).
  set (d2 := init_dir b3 "b" (Some a1)).
  assert (wf_mem m2) as Hm2.
  { apply wf_mem_mkdir; [done|done|by unfold MAX_SUBDIRS|done]. }
  assert (cells m2 !! a2 = Some d2) as Ha2 by (by apply mkdir_new_block).
  assert (chain m2 (Some a2) ["b"; "a"; "/"]) as Hc2.
  { apply chain_new_block; [done|simpl; lia|done]. }
  (* pwd *)
  assert (∀ r', exec prog fuel (mkSession m2 r' (Some a2)) Pwd
                = Ok (mkSession m2 r' (Some a2), "//a/b" +:+ nl)) as Hpwd.
  { intros r'. destruct prog; unfold exec; simpl mem; simpl cwd.
    - rewrite (LC_pwd_chain m2 fuel a2 _ Hc2); [done|simpl; lia|simpl; lia].
    - rewrite (L2_pwd_spec m2 fuel a2 d2 Hm2 Ha2); [|done|done].
      by rewrite (ancestors_chain m2 _ _ 64 Hc2). }
  simpl run. rewrite Hpwd. cbn [mbind res_bind].
  eexists. do 2 f_equal.
Qed.

(** C1, on the heap of a process that can obtain three blocks. *)
Lemma C1_witness :
  ∃ s',
    (s ← start (boot 3);
     run linux_commands_c 65 s [Mkdir (Some "a"); Cd (Some "a");
                                Mkdir (Some "b"); Cd (Some "b"); Pwd])
    = Ok (s', created "a" +:+ created "b" +:+ "//a/b" +:+ nl).
Proof.
  apply (C1_pwd_doubles_the_root_separator linux_commands_c 65 (boot 3)
           raw_block raw_block raw_block []).
  - apply boot_initial.
  - reflexivity.
  - lia.
Defined.

(** ** C4: [cd] *)

(** C4.  In every reachable session, whose current directory is the
    block [d]: [cd] with a name that no sub-directory of [d] carries
    (and that is not one of the tokens [/], [.], [..]) reports that there
    is no such directory and leaves the session, so the current directory,
    as it was; [cd ..] at the root stays at the root and prints nothing;
    [cd .] stays where it is; [cd /] leads to the root. *)
Theorem C4_cd_navigation (prog : Program) (fuel : nat) (s : Session)
    (a : addr) (d : Dir) :
  reachable prog s -> cwd s = Some a -> cells (mem s) !! a = Some d ->
  (∀ arg, ¬ special arg -> arg ∉ subdir_names (mem s) d ->
     exec prog fuel s (Cd (Some arg)) = Ok (s, no_such_directory prog arg))
  ∧ (cwd s = root s -> exec prog fuel s (Cd (Some "..")) = Ok (s, ""))
  ∧ exec prog fuel s (Cd (Some ".")) = Ok (s, "")
  ∧ exec prog fuel s (Cd (Some "/"))
    = Ok (mkSession (mem s) (root s) (root s), "").
Proof.
  intros Hr Hcwd Ha.
  destruct (reachable_wf prog s Hr) as (Hm & _ & _).
  pose proof (proj1 Hm a d Ha) as Hwf.
  destruct s as [m r cw]. simpl in *. subst cw.
  split; [|split; [|split]].
  - intros arg Hsp Hno. unfold special in Hsp.
    destruct prog; unfold exec, no_such_directory; simpl mem; simpl cwd;
      simpl root;
      rewrite ?(LC_cd_spec m a d arg r Ha Hwf),
        ?(L2_cd_spec m a d arg r Ha Hwf);
      unfold cd_target; rewrite !decide_False by tauto; done.
  - intros <-.
    destruct (reachable_root prog _ Hr) as (r' & d' & Hroot & Hd' & Hpar).
    simpl in *. injection Hroot as <-. replace d' with d in * by congruence.
    destruct prog; unfold exec; simpl mem; simpl cwd; simpl root;
      rewrite ?(LC_cd_spec m a d ".." _ Ha Hwf),
        ?(L2_cd_spec m a d ".." _ Ha Hwf);
      unfold cd_target; simpl; by rewrite Hpar.
  - destruct prog; reflexivity.
  - destruct prog; reflexivity.
Qed.

(** C4 in the session that has made the directory [a] at the root. *)
Lemma C4_witness :
  ∃ s : Session,
    session_after L2_c 3 [Mkdir (Some "a")] = Ok s ∧
    exec L2_c 0 s (Cd (Some "b")) = Ok (s, no_such_directory L2_c "b") ∧
    exec L2_c 0 s (Cd (Some "..")) = Ok (s, "").
Proof.
  eexists. split; [vm_compute; reflexivity|].
  match goal with |- exec _ _ ?s _ = _ ∧ _ =>
    assert (reachable L2_c s) as Hr
      by (apply (session_after_reachable L2_c 2 [Mkdir (Some "a")]);
          vm_compute; reflexivity);
    destruct (C4_cd_navigation L2_c 0 s 0%nat
                (add_subdir (init_dir raw_block "/" None) (Some 1%nat)) Hr)
      as (H1 & H2 & _); [reflexivity|vm_compute; reflexivity|]
  end.
  split.
  - apply H1; [by intros [?|[?|?]]|]. vm_compute.
    intros H. apply list_elem_of_In in H. simpl in H. destruct H as [H|[]].
    discriminate H.
  - apply H2. reflexivity.
Defined.

(** ** C5: [mkdir n], [cd n], [cd ..] *)

Lemma mkdir_created_inv (prog : Program) (fuel : nat) (s s1 : Session)
    (a : addr) (d : Dir) (n : string) :
  cwd s = Some a -> cells (mem s) !! a = Some d -> wf_dir (mem s) d ->
  exec prog fuel s (Mkdir (Some n)) = Ok (s1, created n) ->
  d_subdir_count d < MAX_SUBDIRS ∧ ¬ taken (mem s) d n ∧
  ∃ b rest, pool (mem s) = b :: rest.
Proof.
  intros Hcwd Ha Hwf. destruct s as [m r cw]. simpl in *. subst cw.
  destruct prog; unfold exec, keep_cwd, created; simpl mem; simpl cwd;
    simpl root;
    rewrite ?(LC_mkdir_spec m a d n Ha Hwf), ?(L2_mkdir_spec m a d n Ha Hwf);
    repeat case_decide; simpl; try (intros [= _ Hout]; discriminate Hout);
    (destruct (pool m) as [|b rest]; simpl;
     [intros [= _ Hout]; discriminate Hout|]);
    intros _; (split; [lia|split; [done|eauto]]).
Qed.

(** C5, as amended.  In every reachable session: when [mkdir n] makes the
    directory, for a name [n] of at most 31 bytes that is none of the
    tokens [/], [.], [..], then [cd n] enters a block other than the
    current one and [cd ..] leads back to the very block the session was
    in (the same address). *)
Theorem C5_mkdir_cd_back (prog : Program) (fuel : nat) (s s1 : Session)
    (n : string) :
  reachable prog s -> (String.length n <= 31)%nat -> ¬ special n ->
  exec prog fuel s (Mkdir (Some n)) = Ok (s1, created n) ->
  ∃ s2 s3,
    exec prog fuel s1 (Cd (Some n)) = Ok (s2, "") ∧
    exec prog fuel s2 (Cd (Some "..")) = Ok (s3, "") ∧
    cwd s2 ≠ cwd s ∧ cwd s3 = cwd s.
Proof.
  intros Hr Hshort Hsp Hmk.
  destruct (reachable_cwd prog s Hr) as (a & d & Hcwd & Ha & Hwf).
  destruct (reachable_wf prog s Hr) as (Hm & _ & _).
  destruct (mkdir_created_inv prog fuel s s1 a d n Hcwd Ha Hwf Hmk)
    as (Hroom & Hfree & b & rest & Hpool).
  rewrite (exec_mkdir_ok prog fuel s a d n b rest) in Hmk by done.
  injection Hmk as <-.
  assert (n ∉ subdir_names (mem s) d) as Hns by (unfold taken in Hfree; tauto).
  pose proof (wf_mem_mkdir (mem s) a d n b rest Hm Ha Hroom Hpool) as Hm'.
  pose proof (mkdir_parent_block (mem s) a d n b rest) as Ha'.
  pose proof (mkdir_new_block (mem s) a d n b rest Ha) as Hnew.
  eexists _, _. split; [|split; [|split]].
  - rewrite (exec_cd prog fuel (mkSession _ (root s) (Some a)) a _ n
               eq_refl Ha' (proj1 Hm' _ _ Ha')).
    simpl mem. simpl root.
    rewrite decide_True
      by (rewrite (mkdir_subdir_names (mem s) a d n b rest);
          try done; do 3 right; apply elem_of_app; right;
          by apply list_elem_of_singleton).
    rewrite (mkdir_cd_target (mem s) a d n b rest) by done. reflexivity.
  - rewrite (exec_cd prog fuel (mkSession _ (root s) (Some _)) _ _ ".."
               eq_refl Hnew (proj1 Hm' _ _ Hnew)).
    reflexivity.
  - simpl. rewrite Hcwd. intros [= Heq]. by apply (fresh_not_live _ _ _ Ha).
  - simpl. by rewrite Hcwd.
Qed.

(** C5 in the directory [a] made at the root: [mkdir b], [cd b], [cd ..]. *)
Lemma C5_witness :
  ∃ s s1 s2 s3 : Session,
    session_after linux_commands_c 3 [Mkdir (Some "a"); Cd (Some "a")] = Ok s ∧
    exec linux_commands_c 0 s (Mkdir (Some "b")) = Ok (s1, created "b") ∧
    exec linux_commands_c 0 s1 (Cd (Some "b")) = Ok (s2, "") ∧
    exec linux_commands_c 0 s2 (Cd (Some "..")) = Ok (s3, "") ∧
    cwd s2 ≠ cwd s ∧ cwd s3 = cwd s.
Proof.
  eexists _, _.
  match goal with |- ∃ s2 s3, ?A ∧ ?B ∧ _ =>
    assert A as HA by (vm_compute; reflexivity);
    assert B as HB by (vm_compute; reflexivity)
  end.
  assert (String.length "b" <= 31)%nat as Hshort by (simpl; lia).
  assert (¬ special "b") as Hsp by (by intros [?|[?|?]]).
  destruct (C5_mkdir_cd_back linux_commands_c 0 _ _ "b"
              (session_after_reachable _ 2 _ _ HA) Hshort Hsp HB)
    as (s2 & s3 & H).
  exists s2, s3. split; [exact HA|]. split; [exact HB|]. exact H.
Defined.

(** C5 as stated fails.  In the directory [a], [mkdir .] makes a
    directory named [.], but [cd .] stays in [a] and [cd ..] then leaves
    for the root: the tokens are tested before the names.  And after
    [mkdir] with a name of 32 bytes, [cd] with that name finds nothing
    (the stored name has 31 bytes), so [cd ..] again ends at the root.
    Blocks 0 and 1 are the root and [a]. *)
Lemma C5_counterexample :
  (s ← session_after linux_commands_c 3 [Mkdir (Some "a"); Cd (Some "a")];
   '(s3, out) ← run linux_commands_c 0 s
                  [Mkdir (Some "."); Cd (Some "."); Cd (Some "..")];
   Ok (cwd s, out, cwd s3))
  = Ok (Some 1%nat, created ".", Some 0%nat)
  ∧
  (s ← session_after linux_commands_c 3 [Mkdir (Some "a"); Cd (Some "a")];
   '(s3, out) ← run linux_commands_c 0 s
                  [Mkdir (Some "abcdefghijklmnopqrstuvwxyz012345");
                   Cd (Some "abcdefghijklmnopqrstuvwxyz012345");
                   Cd (Some "..")];
   Ok (cwd s, out, cwd s3))
  = Ok (Some 1%nat,
        created "abcdefghijklmnopqrstuvwxyz012345"
        +:+ puts "no such directory",
        Some 0%nat).
Proof. split; vm_compute; reflexivity. Qed.

(** ** C3: the seventeenth file *)

(** What [touch] prints when it makes the file. *)
Definition file_created (n : string) : string :=
  "file '" +:+ n +:+ "' created" +:+ nl.

Definition touch_all (ns : list string) : list Cmd :=
  (λ n, Touch (Some n)) <$> ns.

Definition concat_str (l : list string) : string := foldr String.append "" l.

(** Two blocks that differ in their files only. *)
Definition same_frame (d d' : Dir) : Prop :=
  d_name d' = d_name d ∧ d_parent d' = d_parent d ∧
  d_subdirs d' = d_subdirs d ∧ d_subdir_count d' = d_subdir_count d.

Lemma same_frame_trans (d1 d2 d3 : Dir) :
  same_frame d1 d2 -> same_frame d2 d3 -> same_frame d1 d3.
Proof. unfold same_frame. intros (?&?&?&?) (?&?&?&?). repeat split; congruence. Qed.

Lemma subdir_names_upd (m : Memory) (a : addr) (d d' : Dir) :
  cells m !! a = Some d -> wf_dir m d -> same_frame d d' ->
  subdir_names (upd m a d') d' = subdir_names m d.
Proof.
  intros Ha Hwf (Hn & _ & Hs & Hc). unfold subdir_names, children.
  rewrite Hs, Hc. apply omap_names_kept; [by eapply names_kept_upd|].
  by destruct Hwf.
Qed.

Lemma upd_upd (m : Memory) (a : addr) (d d' : Dir) :
  upd (upd m a d) a d' = upd m a d'.
Proof. unfold upd. simpl. by rewrite insert_insert_eq. Qed.

Lemma upd_same (m : Memory) (a : addr) (d : Dir) :
  cells m !! a = Some d -> upd m a d = m.
Proof. intros Ha. destruct m as [c p]. unfold upd. simpl in *. by rewrite insert_id. Qed.

Lemma exec_touch_ok (prog : Program) (fuel : nat) (s : Session) (a : addr)
    (d : Dir) (n : string) :
  cwd s = Some a -> cells (mem s) !! a = Some d -> wf_dir (mem s) d ->
  ¬ taken (mem s) d n -> d_file_count d < MAX_FILES ->
  exec prog fuel s (Touch (Some n))
  = Ok (mkSession (upd (mem s) a (add_file d (new_file n))) (root s) (Some a),
        file_created n).
Proof.
  intros Hcwd Ha Hwf Hfree Hroom. destruct s as [m r cw].
  simpl in *. subst cw. unfold taken in Hfree.
  destruct prog; unfold exec, keep_cwd; simpl mem; simpl cwd; simpl root;
    rewrite ?(LC_touch_spec m a d n Ha Hwf), ?(L2_touch_spec m a d n Ha Hwf);
    unfold taken; rewrite !decide_False by (tauto || lia); done.
Qed.

Lemma exec_touch_full (prog : Program) (fuel : nat) (s : Session) (a : addr)
    (d : Dir) (n : string) :
  cwd s = Some a -> cells (mem s) !! a = Some d -> wf_dir (mem s) d ->
  ¬ taken (mem s) d n -> d_file_count d >= MAX_FILES ->
  exec prog fuel s (Touch (Some n)) = Ok (s, puts "file limit reached").
Proof.
  intros Hcwd Ha Hwf Hfree Hfull. destruct s as [m r cw].
  simpl in *. subst cw. unfold taken in Hfree.
  destruct prog; unfold exec, keep_cwd; simpl mem; simpl cwd; simpl root;
    rewrite ?(LC_touch_spec m a d n Ha Hwf), ?(L2_touch_spec m a d n Ha Hwf);
    unfold taken; rewrite decide_False by tauto; by rewrite decide_True.
Qed.

(** A run of [touch] with distinct unused names of at most 31 bytes, as
    long as the directory has room: every call makes its file. *)
Lemma touch_many (prog : Program) (fuel : nat) (r : ptr) (a : addr)
    (ns : list string) :
  ∀ (m : Memory) (d : Dir),
    wf_mem m -> cells m !! a = Some d ->
    NoDup ns ->
    Forall (λ n, (String.length n <= 31)%nat ∧ ¬ taken m d n) ns ->
    d_file_count d + Z.of_nat (length ns) <= MAX_FILES ->
    ∃ d',
      run prog fuel (mkSession m r (Some a)) (touch_all ns)
      = Ok (mkSession (upd m a d') r (Some a),
            concat_str (file_created <$> ns)) ∧
      wf_mem (upd m a d') ∧ same_frame d d' ∧
      files_of d' = files_of d ++ (new_file <$> ns) ∧
      d_file_count d' = d_file_count d + Z.of_nat (length ns).
Proof.
  induction ns as [|n ns IH]; intros m d Hm Ha Hnd Hns Hroom.
  - exists d. rewrite (upd_same m a d Ha). simpl.
    split; [done|]. split; [done|]. split; [done|].
    split; [by rewrite app_nil_r|lia].
  - apply NoDup_cons in Hnd as [Hn Hnd].
    apply Forall_cons in Hns as [[Hshort Hfree] Hns].
    pose proof (proj1 Hm a d Ha) as Hwf.
    simpl length in Hroom.
    assert (d_file_count d < MAX_FILES) as Hlt by lia.
    set (d1 := add_file d (new_file n)).
    assert (same_frame d d1) as Hfr by done.
    assert (wf_mem (upd m a d1)) as Hm1.
    { apply (wf_mem_upd m a d); try done.
      - by apply (shape_add_file m).
      - destruct Hwf. simpl. lia. }
    assert (cells (upd m a d1) !! a = Some d1) as Ha1
      by apply lookup_insert_eq.
    assert (file_names d1 = file_names d ++ [n]) as Hfn.
    { unfold file_names, d1. rewrite (files_of_add_file m) by done.
      rewrite fmap_app. simpl. by rewrite strncpy_short. }
    destruct (IH (upd m a d1) d1 Hm1 Ha1 Hnd) as (d' & Hrun & Hm' & Hfr' & Hf' & Hc').
    { rewrite Forall_forall in Hns |- *. intros n' Hin.
      destruct (Hns n' Hin) as [Hs' Hfree']. split; [done|].
      unfold taken in *. rewrite Hfn, (subdir_names_upd m a d d1) by done.
      rewrite elem_of_app, list_elem_of_singleton.
      intros [[?|Heq]|?]; [tauto|subst; tauto|tauto]. }
    { unfold d1. simpl. lia. }
    rewrite upd_upd in *.
    exists d'. split; [|split; [done|split; [|split]]].
    + simpl run.
      rewrite (exec_touch_ok prog fuel (mkSession m r (Some a)) a d n)
        by done.
      cbn [mbind res_bind]. simpl mem. simpl root.
      fold (touch_all ns). fold d1. rewrite Hrun. done.
    + by eapply same_frame_trans.
    + rewrite Hf'. unfold d1. rewrite (files_of_add_file m) by done.
      by rewrite <- app_assoc.
    + rewrite Hc'. unfold d1. simpl. lia.
Qed.

(** C3, as amended.  In a reachable session whose current directory holds
    no file, [touch] with 17 distinct names of at most 31 bytes, none of
    them in use there: the first 16 calls each make their file, which
    fills the directory; the 17th reports that the file limit is reached
    and leaves the whole session, so the files and their count, as it
    was. *)
Theorem C3_touch_capacity (prog : Program) (fuel : nat) (s : Session)
    (a : addr) (d : Dir) (ns : list string) (last : string) :
  reachable prog s -> cwd s = Some a -> cells (mem s) !! a = Some d ->
  d_file_count d = 0 -> length ns = Z.to_nat MAX_FILES ->
  NoDup (ns ++ [last]) ->
  Forall (λ n, (String.length n <= 31)%nat ∧ ¬ taken (mem s) d n)
         (ns ++ [last]) ->
  ∃ s16 d16,
    run prog fuel s (touch_all ns)
    = Ok (s16, concat_str (file_created <$> ns)) ∧
    cwd s16 = Some a ∧ cells (mem s16) !! a = Some d16 ∧
    d_file_count d16 = MAX_FILES ∧ files_of d16 = new_file <$> ns ∧
    exec prog fuel s16 (Touch (Some last))
    = Ok (s16, puts "file limit reached").
Proof.
  intros Hr Hcwd Ha Hfc Hlen Hnd Hns.
  destruct (reachable_wf prog s Hr) as (Hm & _ & _).
  pose proof (proj1 Hm a d Ha) as Hwf.
  apply NoDup_app in Hnd as (Hnd & Hlast & _).
  apply Forall_app in Hns as [Hns Hl].
  apply Forall_singleton in Hl as [_ Hlfree].
  destruct (touch_many prog fuel (root s) a ns (mem s) d Hm Ha Hnd Hns)
    as (d' & Hrun & Hm' & Hfr & Hf' & Hc').
  { rewrite Hfc, Hlen. unfold MAX_FILES. lia. }
  destruct s as [m r cw]. simpl in *. subst cw.
  assert (files_of d = []) as Hnil.
  { unfold files_of. by rewrite Hfc. }
  rewrite Hnil in Hf'. simpl in Hf'.
  assert (cells (upd m a d') !! a = Some d') as Ha' by apply lookup_insert_eq.
  eexists _, d'. split; [exact Hrun|]. split; [done|]. split; [done|].
  split; [rewrite Hc', Hfc, Hlen; by unfold MAX_FILES|]. split; [done|].
  apply (exec_touch_full prog fuel _ a d'); try done.
  - exact (proj1 Hm' a d' Ha').
  - unfold taken in *. unfold file_names at 1. rewrite Hf'. simpl mem.
    rewrite (subdir_names_upd m a d d') by done.
    intros [Hin|Hin]; [|tauto].
    apply list_elem_of_fmap in Hin as (f & Hname & Hin).
    apply list_elem_of_fmap in Hin as (n & -> & Hin).
    simpl in Hname. rewrite Forall_forall in Hns.
    destruct (Hns n Hin) as [Hshort _].
    rewrite strncpy_short in Hname by done. subst n.
    apply (Hlast last Hin). by apply list_elem_of_singleton.
  - rewrite Hc', Hfc, Hlen. unfold MAX_FILES. lia.
Qed.

Definition seventeen : list string :=
  ["f0"; "f1"; "f2"; "f3"; "f4"; "f5"; "f6"; "f7"; "f8"; "f9"; "f10"; "f11";
   "f12"; "f13"; "f14"; "f15"; "f16"].

(** C3 at the root of a fresh session, with the names [f0] to [f16]. *)
Lemma C3_witness :
  ∃ s s16 : Session,
    session_after L2_c 1 [] = Ok s ∧
    run L2_c 0 s (touch_all (take 16 seventeen))
    = Ok (s16, concat_str (file_created <$> take 16 seventeen)) ∧
    exec L2_c 0 s16 (Touch (Some "f16")) = Ok (s16, puts "file limit reached").
Proof.
  eexists.
  match goal with |- ∃ s16, ?A ∧ _ =>
    assert A as HA by (vm_compute; reflexivity)
  end.
  destruct (C3_touch_capacity L2_c 0 _ 0%nat (init_dir raw_block "/" None)
              (take 16 seventeen) "f16" (session_after_reachable _ 0 _ _ HA))
    as (s16 & d16 & Hrun & _ & _ & _ & _ & Hlast).
  - reflexivity.
  - vm_compute. reflexivity.
  - reflexivity.
  - reflexivity.
  - apply (bool_decide_unpack _). vm_compute. exact I.
  - apply (bool_decide_unpack _). vm_compute. exact I.
  - exists s16. split; [exact HA|]. split; [exact Hrun|exact Hlast].
Defined.

(** C3 as stated fails when a name is longer than the field: after
    [touch] with a 32-byte name, the 31-byte name that is its beginning is
    taken, though the two names differ and the directory was empty. *)
Lemma C3_counterexample :
  "abcdefghijklmnopqrstuvwxyz01234x" ≠ "abcdefghijklmnopqrstuvwxyz01234" ∧
  (s ← session_after linux_commands_c 1 [];
   '(_, out) ← run linux_commands_c 0 s
                 [Touch (Some "abcdefghijklmnopqrstuvwxyz01234x");
                  Touch (Some "abcdefghijklmnopqrstuvwxyz01234")];
   Ok out)
  = Ok (file_created "abcdefghijklmnopqrstuvwxyz01234x"
        +:+ puts "name already exists").
Proof. split; [discriminate|vm_compute; reflexivity]. Qed.

(** ** C6: [mv] *)

(** What [mv] prints when the new name is in use, and when it renames. *)
Definition mv_collision (prog : Program) (d : Dir) (dst : string) : string :=
  match prog with
  | linux_commands_c => puts "destination already exists"
  | L2_c =>
      if decide (dst ∈ file_names d)
      then "mv: '" +:+ dst +:+ "' already exists" +:+ nl
      else "mv: name '" +:+ dst +:+ "' already used by directory" +:+ nl
  end.

Definition mv_done (prog : Program) (src dst : string) : string :=
  match prog with
  | linux_commands_c =>
      "renamed '" +:+ src +:+ "' -> '" +:+ dst +:+ "'" +:+ nl
  | L2_c => "file '" +:+ src +:+ "' renamed to '" +:+ dst +:+ "'" +:+ nl
  end.

Lemma exec_mv_taken (prog : Program) (fuel : nat) (s : Session) (a : addr)
    (d : Dir) (src dst : string) :
  cwd s = Some a -> cells (mem s) !! a = Some d -> wf_dir (mem s) d ->
  src ∈ file_names d -> taken (mem s) d dst ->
  exec prog fuel s (Mv (Some src) (Some dst)) = Ok (s, mv_collision prog d dst).
Proof.
  intros Hcwd Ha Hwf Hsrc Htaken. destruct s as [m r cw].
  simpl in *. subst cw.
  destruct prog; unfold exec, keep_cwd, mv_collision; simpl mem; simpl cwd;
    simpl root;
    rewrite ?(LC_mv_spec m a d src dst Ha Hwf),
      ?(L2_mv_spec m a d src dst Ha Hwf);
    rewrite (decide_True (P := src ∈ file_names d)) by done.
  - by rewrite decide_True.
  - unfold taken in Htaken. case_decide; [done|].
    rewrite decide_True by tauto. done.
Qed.

Lemma exec_mv_ok (prog : Program) (fuel : nat) (s : Session) (a : addr)
    (d : Dir) (src dst : string) :
  cwd s = Some a -> cells (mem s) !! a = Some d -> wf_dir (mem s) d ->
  src ∈ file_names d -> ¬ taken (mem s) d dst ->
  exec prog fuel s (Mv (Some src) (Some dst))
  = Ok (mkSession
          (upd (mem s) a
             (alter_file d (file_index d src)
                (λ f, set_f_name f (strncpy dst (NAME_LEN - 1)))))
          (root s) (Some a),
        mv_done prog src dst).
Proof.
  intros Hcwd Ha Hwf Hsrc Hfree. destruct s as [m r cw].
  simpl in *. subst cw. unfold taken in Hfree.
  destruct prog; unfold exec, keep_cwd, mv_done; simpl mem; simpl cwd;
    simpl root;
    rewrite ?(LC_mv_spec m a d src dst Ha Hwf),
      ?(L2_mv_spec m a d src dst Ha Hwf);
    rewrite (decide_True (P := src ∈ file_names d)) by done;
    unfold taken; rewrite !decide_False by tauto; done.
Qed.

(** C6.  In a reachable session whose current directory holds a file
    named [old]: when [new] is the name of a file or of a sub-directory
    there, [mv old new] reports the collision and leaves the session as
    it was, so the entry of [old] keeps its name, tag and size; otherwise
    [mv] renames, and the directory afterwards holds the same number of
    files in the same slots, each with the size, the tag and the content
    it had, all but the renamed one unchanged altogether; its name,
    parent and sub-directories are the same, and so are the other
    blocks. *)
Theorem C6_mv_frame (prog : Program) (fuel : nat) (s : Session) (a : addr)
    (d : Dir) (old new : string) :
  reachable prog s -> cwd s = Some a -> cells (mem s) !! a = Some d ->
  old ∈ file_names d ->
  (taken (mem s) d new ->
     exec prog fuel s (Mv (Some old) (Some new))
     = Ok (s, mv_collision prog d new))
  ∧
  (¬ taken (mem s) d new ->
     ∃ d',
       exec prog fuel s (Mv (Some old) (Some new))
       = Ok (mkSession (upd (mem s) a d') (root s) (cwd s),
             mv_done prog old new) ∧
       same_frame d d' ∧ d_file_count d' = d_file_count d ∧
       length (files_of d') = length (files_of d) ∧
       ∀ j f, files_of d !! j = Some f ->
         ∃ f', files_of d' !! j = Some f' ∧
               f_size f' = f_size f ∧ f_perm f' = f_perm f ∧
               f_content f' = f_content f ∧
               (j ≠ Z.to_nat (file_index d old) -> f' = f)).
Proof.
  intros Hr Hcwd Ha Hold.
  destruct (reachable_wf prog s Hr) as (Hm & _ & _).
  pose proof (proj1 Hm a d Ha) as Hwf.
  split; intros Hnew.
  - by apply (exec_mv_taken prog fuel s a d).
  - eexists. split; [rewrite Hcwd; by apply (exec_mv_ok prog fuel s a d)|].
    split; [done|]. split; [done|].
    rewrite (files_of_alter_file), length_alter. split; [done|].
    intros j f Hj. destruct (decide (Z.to_nat (file_index d old) = j)) as [<-|Hne].
    + rewrite list_lookup_alter_eq, Hj. simpl. eexists. split; [done|].
      repeat split; try done.
    + rewrite list_lookup_alter_ne by done. exists f. repeat split; done.
Qed.

(** C6 in a session that holds the files [f] and [g] and the directory [a]
    at the root: [mv f a] and [mv f g] collide. *)
Lemma C6_witness :
  ∃ (s : Session) (d : Dir),
    session_after L2_c 2
      [Touch (Some "f"); Touch (Some "g"); Mkdir (Some "a")] = Ok s ∧
    cells (mem s) !! 0%nat = Some d ∧
    exec L2_c 0 s (Mv (Some "f") (Some "a"))
    = Ok (s, mv_collision L2_c d "a") ∧
    exec L2_c 0 s (Mv (Some "f") (Some "g"))
    = Ok (s, mv_collision L2_c d "g").
Proof.
  eexists _, _.
  match goal with |- ?A ∧ ?B ∧ _ =>
    assert A as HA by (vm_compute; reflexivity);
    assert B as HB by (vm_compute; reflexivity)
  end.
  split; [exact HA|]. split; [exact HB|].
  pose proof (session_after_reachable _ 1 _ _ HA) as Hr.
  split.
  - refine (proj1 (C6_mv_frame L2_c 0 _ 0%nat _ "f" "a" Hr eq_refl HB _) _);
      apply (bool_decide_unpack _); vm_compute; exact I.
  - refine (proj1 (C6_mv_frame L2_c 0 _ 0%nat _ "f" "g" Hr eq_refl HB _) _);
      apply (bool_decide_unpack _); vm_compute; exact I.
Defined.

(** ** C7: [touch f], [rm f], [ls], [rm f] *)

Definition file_removed (n : string) : string :=
  "file '" +:+ n +:+ "' removed" +:+ nl.

(** What [ls] prints in a directory without entries. *)
Definition ls_empty (prog : Program) : string :=
  match prog with
  | linux_commands_c => ""
  | L2_c => puts "ls: no entries"
  end.

Lemma exec_rm_ok (prog : Program) (fuel : nat) (s : Session) (a : addr)
    (d : Dir) (n : string) :
  cwd s = Some a -> cells (mem s) !! a = Some d -> wf_dir (mem s) d ->
  n ∈ file_names d ->
  exec prog fuel s (Rm (Some n))
  = Ok (mkSession (upd (mem s) a (del_file d (file_index d n))) (root s)
          (Some a),
        file_removed n).
Proof.
  intros Hcwd Ha Hwf Hin. destruct s as [m r cw]. simpl in *. subst cw.
  destruct prog; unfold exec, keep_cwd; simpl mem; simpl cwd; simpl root;
    rewrite ?(LC_rm_spec m a d n Ha Hwf), ?(L2_rm_spec m a d n Ha Hwf);
    by rewrite decide_True.
Qed.

Lemma exec_rm_missing (prog : Program) (fuel : nat) (s : Session) (a : addr)
    (d : Dir) (n : string) :
  cwd s = Some a -> cells (mem s) !! a = Some d -> wf_dir (mem s) d ->
  n ∉ file_names d ->
  exec prog fuel s (Rm (Some n)) = Ok (s, puts "no such file").
Proof.
  intros Hcwd Ha Hwf Hin. destruct s as [m r cw]. simpl in *. subst cw.
  destruct prog; unfold exec, keep_cwd; simpl mem; simpl cwd; simpl root;
    rewrite ?(LC_rm_spec m a d n Ha Hwf), ?(L2_rm_spec m a d n Ha Hwf);
    by rewrite decide_False.
Qed.

Lemma exec_ls_empty (prog : Program) (fuel : nat) (s : Session) (a : addr)
    (d : Dir) (opt : option string) :
  cwd s = Some a -> cells (mem s) !! a = Some d ->
  d_file_count d = 0 -> d_subdir_count d = 0 ->
  exec prog fuel s (Ls opt) = Ok (s, ls_empty prog).
Proof.
  intros Hcwd Ha Hfc Hsc. destruct s as [m r cw]. simpl in *. subst cw.
  destruct prog; unfold exec, LinuxCommands.ls_cmd, L2.ls_cmd; simpl;
    rewrite Ha; simpl; rewrite Hfc, Hsc; done.
Qed.

(** C7, as amended.  In a reachable session: [rm] of a file the current
    directory holds removes it, the files after it move down by one slot
    and nothing else changes; and in a directory without entries, for a
    name [f] of at most 31 bytes, [touch f] then [rm f] succeed, [ls]
    then lists nothing (linux-commands.c prints nothing at all, L2.c the
    line [ls: no entries]) and a second [rm f] reports that there is no
    such file. *)
Theorem C7_touch_rm_ls (prog : Program) (fuel : nat) (s : Session)
    (a : addr) (d : Dir) :
  reachable prog s -> cwd s = Some a -> cells (mem s) !! a = Some d ->
  (∀ n, n ∈ file_names d ->
     ∃ d',
       exec prog fuel s (Rm (Some n))
       = Ok (mkSession (upd (mem s) a d') (root s) (cwd s), file_removed n) ∧
       same_frame d d' ∧ d_file_count d' = d_file_count d - 1 ∧
       files_of d' = delete (Z.to_nat (file_index d n)) (files_of d))
  ∧
  (∀ f opt, d_file_count d = 0 -> d_subdir_count d = 0 ->
     (String.length f <= 31)%nat ->
     ∃ s2,
       run prog fuel s [Touch (Some f); Rm (Some f)]
       = Ok (s2, file_created f +:+ file_removed f) ∧
       exec prog fuel s2 (Ls opt) = Ok (s2, ls_empty prog) ∧
       exec prog fuel s2 (Rm (Some f)) = Ok (s2, puts "no such file")).
Proof.
  intros Hr Hcwd Ha.
  destruct (reachable_wf prog s Hr) as (Hm & _ & _).
  pose proof (proj1 Hm a d Ha) as Hwf.
  split.
  - intros n Hin. destruct (file_index_found (mem s) d n Hwf Hin) as [Hidx _].
    eexists. split; [rewrite Hcwd; by apply (exec_rm_ok prog fuel s a d)|].
    split; [done|]. split; [done|]. by apply (files_of_del_file (mem s)).
  - intros f opt Hfc Hsc Hshort.
    assert (files_of d = []) as Hnil by (unfold files_of; by rewrite Hfc).
    assert (children d = []) as Hch by (unfold children; by rewrite Hsc).
    assert (¬ taken (mem s) d f) as Hfree.
    { unfold taken, file_names, subdir_names. rewrite Hnil, Hch. simpl.
      intros [H|H]; by apply elem_of_nil in H. }
    set (d1 := add_file d (new_file f)).
    set (s1 := mkSession (upd (mem s) a d1) (root s) (Some a)).
    assert (wf_mem (mem s1)) as Hm1.
    { apply (wf_mem_upd (mem s) a d); try done.
      - by apply (shape_add_file (mem s)).
      - simpl. rewrite Hfc. unfold MAX_FILES. lia. }
    assert (cells (mem s1) !! a = Some d1) as Ha1 by apply lookup_insert_eq.
    assert (files_of d1 = [new_file f]) as Hf1.
    { unfold d1. rewrite (files_of_add_file (mem s)); [by rewrite Hnil|done|].
      rewrite Hfc. by unfold MAX_FILES. }
    assert (file_names d1 = [f]) as Hn1.
    { unfold file_names. rewrite Hf1. simpl. by rewrite strncpy_short. }
    assert (f ∈ file_names d1) as Hin1
      by (rewrite Hn1; by apply list_elem_of_singleton).
    assert (file_index d1 f = 0) as Hidx.
    { unfold file_index. rewrite Hf1. unfold index_in. simpl.
      rewrite decide_True; [done|]. simpl. by rewrite strncpy_short. }
    set (d2 := del_file d1 (file_index d1 f)).
    set (s2 := mkSession (upd (mem s1) a d2) (root s) (Some a)).
    assert (d_file_count d2 = 0) as Hfc2.
    { unfold d2, d1. simpl. lia. }
    assert (cells (mem s2) !! a = Some d2) as Ha2 by apply lookup_insert_eq.
    assert (wf_mem (mem s2)) as Hm2.
    { apply (wf_mem_upd (mem s1) a d1); try done.
      - apply (shape_del_file (mem s1)); [exact (proj1 Hm1 a d1 Ha1)|].
        rewrite Hidx. unfold d1. simpl. lia.
      - rewrite Hfc2. unfold MAX_FILES. lia. }
    exists s2. split; [|split].
    + simpl run.
      rewrite (exec_touch_ok prog fuel s a d f) by (done || rewrite Hfc; done).
      cbn [mbind res_bind]. fold d1. fold s1.
      rewrite (exec_rm_ok prog fuel s1 a d1 f eq_refl Ha1 (proj1 Hm1 a d1 Ha1) Hin1).
      cbn [mbind res_bind]. fold d2. simpl root. fold s2.
      by rewrite str_app_empty_r.
    + by apply (exec_ls_empty prog fuel s2 a d2).
    + apply (exec_rm_missing prog fuel s2 a d2); try done.
      * exact (proj1 Hm2 a d2 Ha2).
      * unfold file_names, files_of. rewrite Hfc2. simpl. apply not_elem_of_nil.
Qed.

(** C7 at the root of a fresh session. *)
Lemma C7_witness :
  ∃ s s2 : Session,
    session_after linux_commands_c 1 [] = Ok s ∧
    run linux_commands_c 0 s [Touch (Some "f"); Rm (Some "f")]
    = Ok (s2, file_created "f" +:+ file_removed "f") ∧
    exec linux_commands_c 0 s2 (Ls None) = Ok (s2, "") ∧
    exec linux_commands_c 0 s2 (Rm (Some "f")) = Ok (s2, puts "no such file").
Proof.
  eexists.
  match goal with |- ∃ s2, ?A ∧ _ =>
    assert A as HA by (vm_compute; reflexivity)
  end.
  destruct (C7_touch_rm_ls linux_commands_c 0 _ 0%nat
              (init_dir raw_block "/" None)
              (session_after_reachable _ 0 _ _ HA) eq_refl eq_refl)
    as [_ H].
  destruct (H "f" None eq_refl eq_refl) as (s2 & H1 & H2 & H3);
    [simpl; lia|].
  exists s2. split; [exact HA|]. split; [exact H1|]. split; [exact H2|exact H3].
Defined.

(** C7 as stated fails in L2.c, whose [ls] prints a line in a directory
    without entries; and in both programs for a name of 32 bytes, which
    [rm] with the same argument does not find: the file stays, under its
    first 31 bytes. *)
Lemma C7_counterexample :
  (s ← session_after L2_c 1 [];
   '(_, out) ← run L2_c 0 s [Touch (Some "f"); Rm (Some "f"); Ls None];
   Ok out)
  = Ok (file_created "f" +:+ file_removed "f" +:+ puts "ls: no entries")
  ∧
  (s ← session_after linux_commands_c 1 [];
   '(_, out) ← run linux_commands_c 0 s
                 [Touch (Some "abcdefghijklmnopqrstuvwxyz012345");
                  Rm (Some "abcdefghijklmnopqrstuvwxyz012345"); Ls None];
   Ok out)
  = Ok (file_created "abcdefghijklmnopqrstuvwxyz012345"
        +:+ puts "no such file"
        +:+ puts "abcdefghijklmnopqrstuvwxyz01234").
Proof. split; vm_compute; reflexivity. Qed.

(** ** C10: stored names are cut to 31 bytes, tested names are not *)

Lemma touch_created_inv (prog : Program) (fuel : nat) (s s1 : Session)
    (a : addr) (d : Dir) (n : string) :
  cwd s = Some a -> cells (mem s) !! a = Some d -> wf_dir (mem s) d ->
  exec prog fuel s (Touch (Some n)) = Ok (s1, file_created n) ->
  ¬ taken (mem s) d n ∧ d_file_count d < MAX_FILES.
Proof.
  intros Hcwd Ha Hwf. destruct s as [m r cw]. simpl in *. subst cw.
  destruct prog; unfold exec, keep_cwd, file_created, taken; simpl mem;
    simpl cwd; simpl root;
    rewrite ?(LC_touch_spec m a d n Ha Hwf), ?(L2_touch_spec m a d n Ha Hwf);
    unfold taken; repeat case_decide; simpl;
    try (intros [= _ Hout]; discriminate Hout);
    try (intros [= _ Hout];
         do 2 apply (inj (String.append _)) in Hout; discriminate Hout);
    intros _; (split; [tauto|lia]).
Qed.

Lemma mv_done_inv (prog : Program) (fuel : nat) (s s1 : Session)
    (a : addr) (d : Dir) (src dst : string) :
  cwd s = Some a -> cells (mem s) !! a = Some d -> wf_dir (mem s) d ->
  exec prog fuel s (Mv (Some src) (Some dst)) = Ok (s1, mv_done prog src dst) ->
  src ∈ file_names d ∧ ¬ taken (mem s) d dst.
Proof.
  intros Hcwd Ha Hwf. destruct s as [m r cw]. simpl in *. subst cw.
  destruct prog; unfold exec, keep_cwd, mv_done, taken; simpl mem;
    simpl cwd; simpl root;
    rewrite ?(LC_mv_spec m a d src dst Ha Hwf),
      ?(L2_mv_spec m a d src dst Ha Hwf);
    unfold taken; repeat case_decide; simpl;
    try (intros [= _ Hout]; discriminate Hout);
    intros _; (split; [done|tauto]).
Qed.

(** The names of the sub-directories in use are stored names too. *)
Lemma subdir_names_short (m : Memory) (d : Dir) :
  names_short m ->
  Forall (λ n, (String.length n <= 31)%nat) (subdir_names m d).
Proof.
  intros Hs. apply Forall_forall. intros n Hin.
  apply list_elem_of_omap in Hin as (p & _ & Hp).
  destruct p as [c|]; [|done]. simpl in Hp.
  destruct (cells m !! c) as [dc|] eqn:Hc; [|done].
  injection Hp as <-. by apply (Hs c dc).
Qed.

(** A name longer than the field is never found in use. *)
Lemma long_not_taken (m : Memory) (a : addr) (d : Dir) (n : string) :
  names_short m -> cells m !! a = Some d ->
  (31 < String.length n)%nat -> ¬ taken m d n.
Proof.
  intros Hs Ha Hlong [Hin|Hin].
  - destruct (Hs a d Ha) as [_ Hf]. rewrite Forall_forall in Hf.
    specialize (Hf n Hin). lia.
  - pose proof (subdir_names_short m d Hs) as Hf. rewrite Forall_forall in Hf.
    specialize (Hf n Hin). lia.
Qed.

Lemma alter_const_insert {A : Type} (l : list A) (i : nat) (x : A) :
  alter (λ _, x) i l = <[i := x]> l.
Proof.
  apply list_eq. intros j. destruct (decide (i = j)) as [<-|Hne].
  - rewrite list_lookup_alter_eq.
    destruct (l !! i) eqn:E; simpl.
    + rewrite list_lookup_insert_eq; [done|]. by eapply lookup_lt_Some.
    + rewrite list_insert_ge; [done|]. by apply lookup_ge_None.
  - by rewrite list_lookup_alter_ne, list_lookup_insert_ne.
Qed.

Section long_names.
Context (prog : Program) (fuel : nat) (s : Session) (a : addr) (d : Dir).
Context (Hr : reachable prog s) (Hcwd : cwd s = Some a).
Context (Ha : cells (mem s) !! a = Some d).

Let Hwf : wf_dir (mem s) d := proj1 (proj1 (reachable_wf prog s Hr)) a d Ha.

Lemma touch_stores (n : string) (s1 : Session) :
  exec prog fuel s (Touch (Some n)) = Ok (s1, file_created n) ->
  reachable prog s1 ∧ cwd s1 = Some a ∧
  ∃ d1, cells (mem s1) !! a = Some d1 ∧ same_frame d d1 ∧
        d_file_count d1 = d_file_count d + 1 ∧
        file_names d1 = file_names d ++ [str_take 31 n].
Proof using Hr Hcwd Ha.
  intros Hex. split; [by eapply reach_step|].
  destruct (touch_created_inv prog fuel s s1 a d n Hcwd Ha Hwf Hex)
    as [Hfree Hroom].
  rewrite (exec_touch_ok prog fuel s a d n) in Hex by done.
  injection Hex as <-. split; [done|]. eexists. split; [apply lookup_insert_eq|].
  split; [done|]. split; [done|].
  unfold file_names. rewrite (files_of_add_file (mem s)) by done.
  by rewrite fmap_app.
Qed.

Lemma mkdir_stores (n : string) (s1 : Session) :
  exec prog fuel s (Mkdir (Some n)) = Ok (s1, created n) ->
  reachable prog s1 ∧ cwd s1 = Some a ∧
  ∃ d1 b, cells (mem s1) !! a = Some d1 ∧
        d_subdir_count d1 = d_subdir_count d + 1 ∧
        files_of d1 = files_of d ∧
        pool (mem s) = b :: pool (mem s1) ∧
        subdir_names (mem s1) d1 = subdir_names (mem s) d ++ [str_take 31 n].
Proof using Hr Hcwd Ha.
  intros Hex. split; [by eapply reach_step|].
  destruct (mkdir_created_inv prog fuel s s1 a d n Hcwd Ha Hwf Hex)
    as (Hroom & Hfree & b & rest & Hpool).
  rewrite (exec_mkdir_ok prog fuel s a d n b rest) in Hex by done.
  injection Hex as <-. split; [done|]. eexists _, b.
  split; [apply mkdir_parent_block|]. split; [done|]. split; [done|].
  split; [done|]. simpl mem.
  by rewrite (mkdir_stored_names (mem s) a d n b rest Ha Hwf Hroom).
Qed.

Lemma mv_stores (old new : string) (s1 : Session) :
  exec prog fuel s (Mv (Some old) (Some new)) = Ok (s1, mv_done prog old new) ->
  reachable prog s1 ∧ cwd s1 = Some a ∧
  ∃ d1, cells (mem s1) !! a = Some d1 ∧
        file_names d1
        = <[Z.to_nat (file_index d old) := str_take 31 new]> (file_names d).
Proof using Hr Hcwd Ha.
  intros Hex. split; [by eapply reach_step|].
  destruct (mv_done_inv prog fuel s s1 a d old new Hcwd Ha Hwf Hex)
    as [Hold Hfree].
  rewrite (exec_mv_ok prog fuel s a d old new) in Hex by done.
  injection Hex as <-. split; [done|]. eexists. split; [apply lookup_insert_eq|].
  rewrite (file_names_alter_name (mem s)) by done.
  apply alter_const_insert.
Qed.

Lemma long_not_found (n : string) :
  (31 < String.length n)%nat ->
  find_file_index (mem s) (Some a) n = Ok (-1) ∧
  find_subdir_index (mem s) (Some a) n = Ok (-1).
Proof using Hr Hcwd Ha.
  intros Hlong.
  pose proof (long_not_taken (mem s) a d n (reachable_names_short prog s Hr)
                Ha Hlong) as Hfree.
  unfold taken in Hfree.
  rewrite (find_file_index_spec _ _ _ n Ha Hwf),
    (find_subdir_index_spec _ _ _ n Ha Hwf).
  split; f_equal.
  - apply (file_index_missing d n). tauto.
  - apply (subdir_index_missing (mem s) d n). tauto.
Qed.

Lemma touch_long (n : string) :
  (31 < String.length n)%nat -> d_file_count d < MAX_FILES ->
  ∃ s1, exec prog fuel s (Touch (Some n)) = Ok (s1, file_created n).
Proof using Hr Hcwd Ha.
  intros Hlong Hroom. eexists. apply (exec_touch_ok prog fuel s a d n); try done.
  by apply (long_not_taken (mem s) a d n (reachable_names_short prog s Hr)).
Qed.

Lemma mkdir_long (n : string) (b : Dir) (rest : list Dir) :
  (31 < String.length n)%nat -> d_subdir_count d < MAX_SUBDIRS ->
  pool (mem s) = b :: rest ->
  ∃ s1, exec prog fuel s (Mkdir (Some n)) = Ok (s1, created n).
Proof using Hr Hcwd Ha.
  intros Hlong Hroom Hpool. eexists.
  apply (exec_mkdir_ok prog fuel s a d n b rest); try done.
  by apply (long_not_taken (mem s) a d n (reachable_names_short prog s Hr)).
Qed.

Lemma mv_long (old new : string) :
  (31 < String.length new)%nat -> old ∈ file_names d ->
  ∃ s1, exec prog fuel s (Mv (Some old) (Some new))
        = Ok (s1, mv_done prog old new).
Proof using Hr Hcwd Ha.
  intros Hlong Hold. eexists.
  apply (exec_mv_ok prog fuel s a d old new); try done.
  by apply (long_not_taken (mem s) a d new (reachable_names_short prog s Hr)).
Qed.
End long_names.

Lemma run_two (prog : Program) (fuel : nat) (s s1 s2 : Session) (c1 c2 : Cmd)
    (o1 o2 : string) :
  exec prog fuel s c1 = Ok (s1, o1) -> exec prog fuel s1 c2 = Ok (s2, o2) ->
  run prog fuel s [c1; c2] = Ok (s2, o1 +:+ o2).
Proof.
  intros H1 H2. simpl. rewrite H1. simpl. rewrite H2. simpl.
  by rewrite str_app_empty_r.
Qed.

(** C10.  In every reachable session, whose current directory is the
    block [d] at [a]:
    - when [touch n], [mkdir n] or [mv old new] does its work, the name
      it stores is [n] (or [new]) cut to its first 31 bytes;
    - the look-ups that make the test for a name in use compare the
      argument as it was given: for an argument of more than 31 bytes
      both return -1;
    - so two arguments of more than 31 bytes with the same first 31
      bytes are both accepted, by [touch] (given room for two files), by
      [mkdir] (given room and two blocks) and by [mv] (of two files), and
      the directory then holds two entries under the same stored name. *)
Theorem C10_stored_names_are_truncated (prog : Program) (fuel : nat)
    (s : Session) (a : addr) (d : Dir) :
  reachable prog s -> cwd s = Some a -> cells (mem s) !! a = Some d ->
  (∀ n s1, exec prog fuel s (Touch (Some n)) = Ok (s1, file_created n) ->
     ∃ d1, cells (mem s1) !! a = Some d1 ∧
           file_names d1 = file_names d ++ [str_take 31 n])
  ∧
  (∀ n s1, exec prog fuel s (Mkdir (Some n)) = Ok (s1, created n) ->
     ∃ d1, cells (mem s1) !! a = Some d1 ∧
           subdir_names (mem s1) d1
           = subdir_names (mem s) d ++ [str_take 31 n])
  ∧
  (∀ old new s1,
     exec prog fuel s (Mv (Some old) (Some new))
     = Ok (s1, mv_done prog old new) ->
     ∃ d1, cells (mem s1) !! a = Some d1 ∧
           file_names d1
           = <[Z.to_nat (file_index d old) := str_take 31 new]>
               (file_names d))
  ∧
  (∀ n, (31 < String.length n)%nat ->
     find_file_index (mem s) (Some a) n = Ok (-1) ∧
     find_subdir_index (mem s) (Some a) n = Ok (-1))
  ∧
  (∀ x y, (31 < String.length x)%nat -> (31 < String.length y)%nat ->
     str_take 31 x = str_take 31 y ->
     (d_file_count d + 2 <= MAX_FILES ->
        ∃ s2 d2,
          run prog fuel s [Touch (Some x); Touch (Some y)]
          = Ok (s2, file_created x +:+ file_created y) ∧
          cells (mem s2) !! a = Some d2 ∧
          file_names d2 = file_names d ++ [str_take 31 x; str_take 31 x])
     ∧
     (d_subdir_count d + 2 <= MAX_SUBDIRS ->
      (2 <= length (pool (mem s)))%nat ->
        ∃ s2 d2,
          run prog fuel s [Mkdir (Some x); Mkdir (Some y)]
          = Ok (s2, created x +:+ created y) ∧
          cells (mem s2) !! a = Some d2 ∧
          subdir_names (mem s2) d2
          = subdir_names (mem s) d ++ [str_take 31 x; str_take 31 x])
     ∧
     (∀ o1 o2, o1 ≠ o2 -> o1 ∈ file_names d -> o2 ∈ file_names d ->
        ∃ s2 d2 i j,
          run prog fuel s [Mv (Some o1) (Some x); Mv (Some o2) (Some y)]
          = Ok (s2, mv_done prog o1 x +:+ mv_done prog o2 y) ∧
          cells (mem s2) !! a = Some d2 ∧ i ≠ j ∧
          file_names d2 !! i = Some (str_take 31 x) ∧
          file_names d2 !! j = Some (str_take 31 x))).
Proof.
  intros Hr Hcwd Ha.
  split; [|split; [|split; [|split]]].
  - intros n s1 Hex.
    destruct (touch_stores prog fuel s a d Hr Hcwd Ha n s1 Hex)
      as (_ & _ & d1 & ? & _ & _ & ?). eauto.
  - intros n s1 Hex.
    destruct (mkdir_stores prog fuel s a d Hr Hcwd Ha n s1 Hex)
      as (_ & _ & d1 & b & ? & _ & _ & _ & ?). eauto.
  - intros old new s1 Hex.
    destruct (mv_stores prog fuel s a d Hr Hcwd Ha old new s1 Hex)
      as (_ & _ & d1 & ? & ?). eauto.
  - intros n. apply (long_not_found prog s a d Hr Hcwd Ha).
  - intros x y Hx Hy Hxy. split; [|split].
    + intros Hroom.
      destruct (touch_long prog fuel s a d Hr Hcwd Ha x Hx) as [s1 H1]; [lia|].
      destruct (touch_stores prog fuel s a d Hr Hcwd Ha x s1 H1)
        as (Hr1 & Hcwd1 & d1 & Ha1 & _ & Hfc1 & Hn1).
      destruct (touch_long prog fuel s1 a d1 Hr1 Hcwd1 Ha1 y Hy)
        as [s2 H2]; [lia|].
      destruct (touch_stores prog fuel s1 a d1 Hr1 Hcwd1 Ha1 y s2 H2)
        as (_ & _ & d2 & Ha2 & _ & _ & Hn2).
      exists s2, d2. split; [by eapply run_two|]. split; [done|].
      rewrite Hn2, Hn1, <- Hxy. by rewrite <- app_assoc.
    + intros Hroom Hpool.
      destruct (pool (mem s)) as [|b1 [|b2 rest]] eqn:Hp;
        [simpl in Hpool; lia..|].
      destruct (mkdir_long prog fuel s a d Hr Hcwd Ha x b1 (b2 :: rest) Hx)
        as [s1 H1]; [lia|done|].
      destruct (mkdir_stores prog fuel s a d Hr Hcwd Ha x s1 H1)
        as (Hr1 & Hcwd1 & d1 & b & Ha1 & Hsc1 & _ & Hpool1 & Hn1).
      rewrite Hp in Hpool1. injection Hpool1 as _ Hpool1.
      destruct (mkdir_long prog fuel s1 a d1 Hr1 Hcwd1 Ha1 y b2 rest Hy)
        as [s2 H2]; [lia|done|].
      destruct (mkdir_stores prog fuel s1 a d1 Hr1 Hcwd1 Ha1 y s2 H2)
        as (_ & _ & d2 & b' & Ha2 & _ & _ & _ & Hn2).
      exists s2, d2. split; [by eapply run_two|]. split; [done|].
      rewrite Hn2, Hn1, <- Hxy. by rewrite <- app_assoc.
    + intros o1 o2 Hne Ho1 Ho2.
      destruct (mv_long prog fuel s a d Hr Hcwd Ha o1 x Hx Ho1) as [s1 H1].
      destruct (mv_stores prog fuel s a d Hr Hcwd Ha o1 x s1 H1)
        as (Hr1 & Hcwd1 & d1 & Ha1 & Hn1).
      pose proof (proj1 (proj1 (reachable_wf prog s Hr)) a d Ha) as Hwf.
      destruct (file_index_found (mem s) d o1 Hwf Ho1) as (Hi1 & f1 & Hf1 & Hname1).
      set (i1 := Z.to_nat (file_index d o1)) in *.
      assert (file_names d !! i1 = Some o1) as Hat1.
      { unfold file_names, files_of. rewrite list_lookup_fmap.
        rewrite lookup_take_lt by lia. by rewrite Hf1, <- Hname1. }
      apply list_elem_of_lookup in Ho2 as [j2 Hj2].
      assert (j2 ≠ i1) as Hj by (intros ->; congruence).
      assert (o2 ∈ file_names d1) as Ho2'.
      { rewrite Hn1. apply list_elem_of_lookup. exists j2.
        by rewrite list_lookup_insert_ne. }
      destruct (mv_long prog fuel s1 a d1 Hr1 Hcwd1 Ha1 o2 y Hy Ho2')
        as [s2 H2].
      destruct (mv_stores prog fuel s1 a d1 Hr1 Hcwd1 Ha1 o2 y s2 H2)
        as (_ & _ & d2 & Ha2 & Hn2).
      pose proof (proj1 (proj1 (reachable_wf prog s1 Hr1)) a d1 Ha1) as Hwf1.
      destruct (file_index_found (mem s1) d1 o2 Hwf1 Ho2')
        as (Hi2 & f2 & Hf2 & Hname2).
      set (i2 := Z.to_nat (file_index d1 o2)) in *.
      assert (i1 < length (file_names d))%nat as Hlt1
        by (by eapply lookup_lt_Some).
      assert (i2 < length (file_names d1))%nat as Hlt2.
      { unfold file_names. rewrite length_fmap, (files_of_length (mem s1)) by done.
        lia. }
      assert (file_names d2 !! i2 = Some (str_take 31 x)) as Hat2.
      { rewrite Hn2, <- Hxy. by apply list_lookup_insert_eq. }
      destruct (decide (i2 = i1)) as [Heq|Hneq].
      * exists s2, d2, i2, j2. split; [by eapply run_two|]. split; [done|].
        split; [congruence|]. split; [done|].
        (* the file at [i1] was already named like the truncation *)
        assert (file_names d1 !! i2 = Some o2) as Hat.
        { unfold file_names, files_of. rewrite list_lookup_fmap.
          rewrite lookup_take_lt by lia. by rewrite Hf2, <- Hname2. }
        rewrite Hn1, Heq, list_lookup_insert_eq in Hat by done.
        apply (inj Some) in Hat.
        rewrite Hn2, Hn1. rewrite !list_lookup_insert_ne by congruence.
        by rewrite Hj2, Hat.
      * exists s2, d2, i2, i1. split; [by eapply run_two|]. split; [done|].
        split; [done|]. split; [done|].
        rewrite Hn2, list_lookup_insert_ne by done.
        rewrite Hn1. by apply list_lookup_insert_eq.
Qed.

(** C10 at the root of a fresh session: two names of 32 bytes that differ
    in their last byte. *)
Lemma C10_witness :
  ∃ (s s2 : Session) (d2 : Dir),
    session_after linux_commands_c 1 [] = Ok s ∧
    run linux_commands_c 0 s
      [Touch (Some "abcdefghijklmnopqrstuvwxyz01234x");
       Touch (Some "abcdefghijklmnopqrstuvwxyz01234y")]
    = Ok (s2, file_created "abcdefghijklmnopqrstuvwxyz01234x"
              +:+ file_created "abcdefghijklmnopqrstuvwxyz01234y") ∧
    cells (mem s2) !! 0%nat = Some d2 ∧
    file_names d2
    = ["abcdefghijklmnopqrstuvwxyz01234"; "abcdefghijklmnopqrstuvwxyz01234"].
Proof.
  eexists.
  match goal with |- ∃ s2 d2, ?A ∧ _ =>
    assert A as HA by (vm_compute; reflexivity)
  end.
  destruct (C10_stored_names_are_truncated linux_commands_c 0 _ 0%nat
              (init_dir raw_block "/" None)
              (session_after_reachable _ 0 _ _ HA) eq_refl eq_refl)
    as (_ & _ & _ & _ & H).
  destruct (H "abcdefghijklmnopqrstuvwxyz01234x"
              "abcdefghijklmnopqrstuvwxyz01234y") as [Htouch _];
    [simpl; lia|simpl; lia|reflexivity|].
  destruct Htouch as (s2 & d2 & H1 & H2 & H3); [simpl; unfold MAX_FILES; lia|].
  exists s2, d2. split; [exact HA|]. split; [exact H1|]. split; [exact H2|].
  exact H3.
Defined.

(** ** C2: no two children under one name *)

(** In every live directory the names of the files and of the
    sub-directories in use are pairwise different. *)
Definition unique_names (m : Memory) : Prop :=
  ∀ a d, cells m !! a = Some d -> NoDup (file_names d ++ subdir_names m d).

(** A command whose new name, if it has one, fits the 32-byte field. *)
Definition short_cmd (c : Cmd) : Prop :=
  match c with
  | Touch (Some n) | Mkdir (Some n) | Mv _ (Some n) =>
      (String.length n <= 31)%nat
  | _ => True
  end.

(** The sessions reached by such commands. *)
Inductive reachable_short (prog : Program) : Session -> Prop :=
| rs_start (m : Memory) (s : Session) :
    initial m -> pool m ≠ [] -> start m = Ok s -> reachable_short prog s
| rs_step (fuel : nat) (s s' : Session) (c : Cmd) (out : string) :
    reachable_short prog s -> short_cmd c ->
    exec prog fuel s c = Ok (s', out) -> reachable_short prog s'.

Lemma reachable_short_reachable (prog : Program) (s : Session) :
  reachable_short prog s -> reachable prog s.
Proof.
  induction 1; [by eapply reach_start|by eapply reach_step].
Qed.

Lemma NoDup_insert_app {A : Type} (l k : list A) (i : nat) (x : A) :
  NoDup (l ++ k) -> x ∉ l -> x ∉ k -> NoDup (<[i := x]> l ++ k).
Proof.
  intros Hnd Hl Hk. destruct (decide (i < length l)%nat) as [Hi|Hi].
  2: { by rewrite list_insert_ge by lia. }
  rewrite insert_take_drop by done. rewrite <- app_assoc. simpl.
  rewrite <- Permutation_middle. apply NoDup_cons. split.
  - rewrite app_assoc, <- delete_take_drop. rewrite elem_of_app.
    intros [Hin|Hin]; [|done]. apply Hl.
    by eapply list_elem_of_delete_inv.
  - rewrite app_assoc, <- delete_take_drop.
    eapply sublist_NoDup; [exact Hnd|].
    apply sublist_app; [apply sublist_delete|done].
Qed.

Lemma unique_names_upd (m : Memory) (a : addr) (d d' : Dir) :
  wf_mem m -> unique_names m -> cells m !! a = Some d -> same_frame d d' ->
  NoDup (file_names d' ++ subdir_names m d) ->
  unique_names (upd m a d').
Proof.
  intros Hm Hu Ha Hfr Hnd c dc. simpl.
  destruct (decide (a = c)) as [<-|Hne].
  - rewrite lookup_insert_eq. intros [= <-].
    by rewrite (subdir_names_upd m a d d') by (done || apply (proj1 Hm a d Ha)).
  - rewrite lookup_insert_ne by done. intros Hc.
    rewrite (subdir_names_kept m (upd m a d') dc).
    + exact (Hu c dc Hc).
    + apply (names_kept_upd m a d d' Ha). by destruct Hfr.
    + exact (proj1 Hm c dc Hc).
Qed.

Lemma unique_names_effect (prog : Program) (m : Memory) (a : addr) (d : Dir)
    (c : Cmd) :
  wf_mem m -> unique_names m -> cells m !! a = Some d -> short_cmd c ->
  unique_names (effect prog m a d c).
Proof.
  intros Hm Hu Ha Hshort. pose proof (proj1 Hm a d Ha) as Hwf.
  pose proof (Hu a d Ha) as Hnd.
  destruct c as [[n|]|o|[n|]|[n1|] [n2|]|[n|]|[n|]| |[n1|] [n2|]];
    simpl in *; try done.
  - case_decide as Hc; [done|]. unfold taken in Hc.
    apply (unique_names_upd m a d); try done.
    unfold file_names. rewrite (files_of_add_file m) by (done || lia).
    rewrite fmap_app. simpl. rewrite strncpy_short by done.
    rewrite <- app_assoc. simpl. rewrite <- Permutation_middle.
    apply NoDup_cons. split; [|done]. rewrite elem_of_app.
    fold (file_names d). tauto.
  - case_decide as Hin; [|done].
    destruct (file_index_found m d n Hwf Hin) as [Hr _].
    apply (unique_names_upd m a d); try done.
    unfold file_names. rewrite (files_of_del_file m) by done.
    rewrite list_fmap_delete. eapply sublist_NoDup; [exact Hnd|].
    apply sublist_app; [apply sublist_delete|done].
  - case_decide as Hc; [|done]. unfold taken in Hc.
    apply (unique_names_upd m a d); try done.
    rewrite (file_names_alter_name m) by done.
    rewrite alter_const_insert, strncpy_short by done.
    apply NoDup_insert_app; tauto.
  - case_decide as Hc; [done|]. unfold taken in Hc.
    destruct (pool m) as [|b rest] eqn:Hp; [done|].
    assert (d_subdir_count d < MAX_SUBDIRS) as Hroom by lia.
    intros c dc Hc'.
    destruct (decide (c = a)) as [->|Hca].
    { rewrite mkdir_parent_block in Hc'. injection Hc' as <-.
      rewrite (mkdir_subdir_names m a d n b rest Ha Hwf Hroom Hshort).
      change (file_names (add_subdir d (Some (fresh (dom (cells m))))))
        with (file_names d).
      rewrite app_assoc. apply NoDup_app. split; [done|]. split.
      - intros x Hx. rewrite list_elem_of_singleton. intros ->.
        apply elem_of_app in Hx. tauto.
      - apply NoDup_singleton. }
    destruct (decide (c = fresh (dom (cells m)))) as [->|Hcn].
    { rewrite (mkdir_new_block m a d n b rest Ha) in Hc'. injection Hc' as <-.
      unfold file_names, subdir_names, files_of, children. simpl.
      apply NoDup_nil_2. }
    rewrite mkdir_other_block in Hc' by done.
    rewrite (subdir_names_kept m _ dc).
    + exact (Hu c dc Hc').
    + by apply names_kept_mkdir.
    + exact (proj1 Hm c dc Hc').
  - destruct prog; [done|]. case_decide; [|done].
    apply (unique_names_upd m a d); try done.
    by rewrite (file_names_alter_perm m).
Qed.

Lemma reachable_short_unique (prog : Program) (s : Session) :
  reachable_short prog s -> unique_names (mem s).
Proof.
  induction 1 as [m s [Hc _] Hp Hs|fuel s s' c out Hr IH Hshort Hex].
  - rewrite start_spec in Hs. destruct (pool m) as [|b rest]; [done|].
    injection Hs as <-. unfold unique_names. simpl. rewrite Hc. intros a d.
    rewrite lookup_insert_Some, lookup_empty.
    intros [[_ <-]|[_ [=]]].
    unfold file_names, subdir_names, files_of, children. simpl.
    apply NoDup_nil_2.
  - pose proof (reachable_short_reachable prog s Hr) as Hr'.
    destruct (reachable_cwd prog s Hr') as (a & d & Hcwd & Ha & Hwf).
    destruct (exec_effect prog fuel s s' c out a d Hcwd Ha Hwf Hex)
      as (-> & _ & _).
    apply unique_names_effect; [apply (reachable_wf prog s Hr')|done..].
Qed.

(** What [mkdir] prints for a name in use, and what [touch] prints for the
    name of a sub-directory: in [mkdir], and in the [touch] of L2.c, the
    test for room comes first. *)
Definition mkdir_refusal (prog : Program) (d : Dir) (n : string) : string :=
  if decide (d_subdir_count d >= MAX_SUBDIRS)
  then puts "subdir limit reached"
  else match prog with
       | linux_commands_c => puts "name already exists"
       | L2_c => "name '" +:+ n +:+ "' already exists" +:+ nl
       end.

Definition touch_refusal (prog : Program) (d : Dir) (n : string) : string :=
  match prog with
  | linux_commands_c => puts "name already exists"
  | L2_c =>
      if decide (d_file_count d >= MAX_FILES)
      then puts "file limit reached"
      else "name '" +:+ n +:+ "' already used by directory" +:+ nl
  end.

Lemma exec_mkdir_refused (prog : Program) (fuel : nat) (s : Session)
    (a : addr) (d : Dir) (n : string) :
  cwd s = Some a -> cells (mem s) !! a = Some d -> wf_dir (mem s) d ->
  taken (mem s) d n ->
  exec prog fuel s (Mkdir (Some n)) = Ok (s, mkdir_refusal prog d n).
Proof.
  intros Hcwd Ha Hwf Htaken. destruct s as [m r cw]. simpl in *. subst cw.
  destruct prog; unfold exec, keep_cwd, mkdir_refusal; simpl mem; simpl cwd;
    simpl root;
    rewrite ?(LC_mkdir_spec m a d n Ha Hwf), ?(L2_mkdir_spec m a d n Ha Hwf);
    case_decide; [done| |done|]; by rewrite decide_True.
Qed.

Lemma exec_touch_refused (prog : Program) (fuel : nat) (s : Session)
    (a : addr) (d : Dir) (n : string) :
  cwd s = Some a -> cells (mem s) !! a = Some d -> wf_dir (mem s) d ->
  n ∉ file_names d -> n ∈ subdir_names (mem s) d ->
  exec prog fuel s (Touch (Some n)) = Ok (s, touch_refusal prog d n).
Proof.
  intros Hcwd Ha Hwf Hnf Hsub. destruct s as [m r cw]. simpl in *. subst cw.
  destruct prog; unfold exec, keep_cwd, touch_refusal; simpl mem; simpl cwd;
    simpl root;
    rewrite ?(LC_touch_spec m a d n Ha Hwf), ?(L2_touch_spec m a d n Ha Hwf).
  - rewrite decide_True; [done|]. by right.
  - rewrite decide_False by done. case_decide; [done|].
    by rewrite decide_True.
Qed.

(** C2, as amended.  In every session reached by commands whose new names
    have at most 31 bytes, every live directory has its files and
    sub-directories under pairwise different names.  And there, for a
    name [n] of at most 31 bytes: after [touch n] made the file,
    [mkdir n] is refused and changes nothing, with the message for a name
    in use unless the directory has no room for a sub-directory, which is
    then what [mkdir] reports; after [mkdir n] made the directory,
    [touch n] is refused and changes nothing, with the message for a name
    in use, except that L2.c reports the file limit when the directory has
    no room for a file. *)
Theorem C2_unique_child_names (prog : Program) (s : Session) :
  reachable_short prog s ->
  unique_names (mem s) ∧
  ∀ fuel a d n s1,
    cwd s = Some a -> cells (mem s) !! a = Some d ->
    (String.length n <= 31)%nat ->
    (exec prog fuel s (Touch (Some n)) = Ok (s1, file_created n) ->
       exec prog fuel s1 (Mkdir (Some n)) = Ok (s1, mkdir_refusal prog d n))
    ∧
    (exec prog fuel s (Mkdir (Some n)) = Ok (s1, created n) ->
       exec prog fuel s1 (Touch (Some n)) = Ok (s1, touch_refusal prog d n)).
Proof.
  intros Hrs. split; [by apply (reachable_short_unique prog)|].
  pose proof (reachable_short_reachable prog s Hrs) as Hr.
  intros fuel a d n s1 Hcwd Ha Hshort. split; intros Hex.
  - destruct (touch_stores prog fuel s a d Hr Hcwd Ha n s1 Hex)
      as (Hr1 & Hcwd1 & d1 & Ha1 & Hfr & _ & Hn1).
    pose proof (proj1 (proj1 (reachable_wf prog s1 Hr1)) a d1 Ha1) as Hwf1.
    rewrite (exec_mkdir_refused prog fuel s1 a d1 n Hcwd1 Ha1 Hwf1).
    + unfold mkdir_refusal. destruct Hfr as (_ & _ & _ & ->). done.
    + left. rewrite Hn1. apply elem_of_app. right.
      apply list_elem_of_singleton. symmetry. by apply str_take_all.
  - pose proof (proj1 (proj1 (reachable_wf prog s Hr)) a d Ha) as Hwf.
    destruct (mkdir_created_inv prog fuel s s1 a d n Hcwd Ha Hwf Hex)
      as (_ & Hfree & _).
    destruct (mkdir_stores prog fuel s a d Hr Hcwd Ha n s1 Hex)
      as (Hr1 & Hcwd1 & d1 & b & Ha1 & _ & Hf1 & _ & Hn1).
    pose proof (proj1 (proj1 (reachable_wf prog s1 Hr1)) a d1 Ha1) as Hwf1.
    assert (d_file_count d1 = d_file_count d) as Hfc.
    { pose proof (files_of_length _ _ Hwf1) as H1.
      pose proof (files_of_length _ _ Hwf) as H0.
      rewrite Hf1, H0 in H1. destruct Hwf, Hwf1. lia. }
    rewrite (exec_touch_refused prog fuel s1 a d1 n Hcwd1 Ha1 Hwf1).
    + unfold touch_refusal. by rewrite Hfc.
    + unfold file_names. rewrite Hf1. unfold taken in Hfree. tauto.
    + rewrite Hn1. apply elem_of_app. right.
      apply list_elem_of_singleton. symmetry. by apply str_take_all.
Qed.

Lemma reachable_short_run (prog : Program) (fuel : nat) (cs : list Cmd)
    (s s' : Session) (out : string) :
  reachable_short prog s -> Forall short_cmd cs ->
  run prog fuel s cs = Ok (s', out) -> reachable_short prog s'.
Proof.
  revert s out. induction cs as [|c cs IH]; intros s out Hr Hsh; simpl.
  - by intros [= <- _].
  - apply Forall_cons in Hsh as [Hc Hcs].
    intros H. apply bind_Ok in H as ([s1 o1] & H1 & H).
    apply bind_Ok in H as ([s2 o2] & H2 & [= <- _]).
    eapply IH; [|done|exact H2]. by eapply rs_step.
Qed.

Lemma session_after_short (prog : Program) (k : nat) (cs : list Cmd)
    (s : Session) :
  Forall short_cmd cs -> session_after prog (S k) cs = Ok s ->
  reachable_short prog s.
Proof.
  unfold session_after. intros Hsh H.
  apply bind_Ok in H as (s0 & Hs0 & H).
  apply bind_Ok in H as ([s1 o] & Hrun & [= ->]).
  eapply reachable_short_run; [|done|exact Hrun].
  eapply rs_start; [apply (boot_initial (S k))|done|exact Hs0].
Qed.

(** C2 in a session that holds the file [f] and the directory [a] at the
    root, and for the new name [g]. *)
Lemma C2_witness :
  ∃ (s s1 : Session) (d : Dir),
    session_after L2_c 3 [Touch (Some "f"); Mkdir (Some "a")] = Ok s ∧
    cells (mem s) !! 0%nat = Some d ∧
    unique_names (mem s) ∧
    exec L2_c 0 s (Touch (Some "g")) = Ok (s1, file_created "g") ∧
    exec L2_c 0 s1 (Mkdir (Some "g")) = Ok (s1, mkdir_refusal L2_c d "g").
Proof.
  eexists _, _, _.
  match goal with |- ?A ∧ ?B ∧ _ ∧ ?C ∧ _ =>
    assert A as HA by (vm_compute; reflexivity);
    assert B as HB by (vm_compute; reflexivity);
    assert C as HC by (vm_compute; reflexivity)
  end.
  assert (Forall short_cmd [Touch (Some "f"); Mkdir (Some "a")]) as Hsh.
  { repeat constructor; simpl; lia. }
  assert (String.length "g" <= 31)%nat as Hg by (simpl; lia).
  destruct (C2_unique_child_names L2_c _ (session_after_short _ 2 _ _ Hsh HA))
    as [Hu H].
  split; [exact HA|]. split; [exact HB|]. split; [exact Hu|].
  split; [exact HC|].
  exact (proj1 (H 0%nat 0%nat _ "g" _ eq_refl HB Hg) HC).
Defined.

Definition sixteen_dirs : list string :=
  ["d0"; "d1"; "d2"; "d3"; "d4"; "d5"; "d6"; "d7"; "d8"; "d9"; "d10"; "d11";
   "d12"; "d13"; "d14"; "d15"].

(** C2 as stated fails.  Two names of 32 bytes that differ in the last
    byte make two files under one stored name.  And with 16
    sub-directories in place, [mkdir f] after [touch f] reports the
    sub-directory limit, not the name in use; with 16 files in place,
    the [touch a] of L2.c after [mkdir a] reports the file limit. *)
Lemma C2_counterexample :
  (s ← session_after linux_commands_c 1
         [Touch (Some "abcdefghijklmnopqrstuvwxyz01234x");
          Touch (Some "abcdefghijklmnopqrstuvwxyz01234y")];
   d ← load (mem s) (cwd s);
   Ok (file_names d))
  = Ok ["abcdefghijklmnopqrstuvwxyz01234"; "abcdefghijklmnopqrstuvwxyz01234"]
  ∧
  (s ← session_after linux_commands_c 17
         ((λ n, Mkdir (Some n)) <$> sixteen_dirs);
   '(_, out) ← run linux_commands_c 0 s [Touch (Some "f"); Mkdir (Some "f")];
   Ok out)
  = Ok (file_created "f" +:+ puts "subdir limit reached")
  ∧
  (s ← session_after L2_c 2 (touch_all (take 16 seventeen));
   '(_, out) ← run L2_c 0 s [Mkdir (Some "a"); Touch (Some "a")];
   Ok out)
  = Ok (created "a" +:+ puts "file limit reached").
Proof. repeat split; vm_compute; reflexivity. Qed.

(** ** C8: the walk of [pwd] and the 64 entries of [parts] *)

(** The chain above a block, when it ends within [k] steps. *)
Fixpoint walk_up (m : Memory) (k : nat) (p : ptr) : option (list string) :=
  match p with
  | None => Some []
  | Some a =>
      match k with
      | O => None
      | S k' =>
          d ← cells m !! a;
          ns ← walk_up m k' (d_parent d);
          Some (d_name d :: ns)
      end
  end.

Lemma walk_up_chain (m : Memory) (k : nat) (p : ptr) (ns : list string) :
  walk_up m k p = Some ns -> chain m p ns.
Proof.
  revert p ns. induction k as [|k IH]; intros [a|] ns; simpl;
    try (intros [= <-]; constructor); try done.
  destruct (cells m !! a) as [d|] eqn:Ha; simpl; [|done].
  destruct (walk_up m k (d_parent d)) as [ns'|] eqn:Hw; simpl; [|done].
  intros [= <-]. apply (chain_cons m a d ns' Ha). by apply IH.
Qed.

(** In L2.c [pwd] returns in every reachable session, with any budget above
    64 rounds: the walk reads at most 64 blocks and the path has at most
    64 names. *)
Lemma L2_pwd_total (fuel : nat) (s : Session) :
  reachable L2_c s -> (64 < fuel)%nat ->
  ∃ ns, (length ns <= 64)%nat ∧
        (exec L2_c fuel s Pwd = Ok (s, puts "/") ∨
         exec L2_c fuel s Pwd = Ok (s, path_text ns +:+ nl)).
Proof.
  intros Hr Hfuel.
  destruct (reachable_cwd L2_c s Hr) as (a & d & Hcwd & Ha & _).
  destruct (reachable_wf L2_c s Hr) as (Hm & _ & _).
  exists (ancestors (mem s) 64 (Some a)). split; [apply ancestors_length|].
  unfold exec. rewrite Hcwd.
  destruct (d_parent d) as [q|] eqn:Hq.
  - right. rewrite (L2_pwd_spec (mem s) fuel a d Hm Ha); [done| |done].
    by rewrite Hq.
  - left. by rewrite (L2_pwd_root (mem s) fuel a d Ha Hq).
Qed.

(** C8.  The claim holds for L2.c ([L2_pwd_spec], [L2_pwd_total]) and
    fails for linux-commands.c, whose walk has no bound: whenever the
    chain from the current directory to the root has more than 64 blocks,
    the 65th round writes [parts[64]], outside the array, which is
    undefined behaviour. *)
Theorem C8_pwd_walk_overflows_parts (m : Memory) (fuel : nat) (a : addr)
    (ns : list string) :
  chain m (Some a) ns -> (64 < length ns)%nat -> (length ns <= fuel)%nat ->
  LinuxCommands.pwd_cmd fuel m (Some a) = Fault.
Proof. apply LC_pwd_overflow. Qed.

(** 64 directories, each made in the one before. *)
Definition nest (k : nat) : list Cmd :=
  mjoin (replicate k [Mkdir (Some "d"); Cd (Some "d")]).

(** C8 in the session of linux-commands.c that went down 64 directories
    from the root. *)
Lemma C8_witness :
  ∃ s : Session,
    session_after linux_commands_c 65 (nest 64) = Ok s ∧
    LinuxCommands.pwd_cmd 100 (mem s) (cwd s) = Fault.
Proof.
  eexists. split; [vm_compute; reflexivity|]. cbn [mem cwd].
  match goal with |- LinuxCommands.pwd_cmd _ ?m (Some ?a) = _ =>
    apply (C8_pwd_walk_overflows_parts m 100 a (replicate 64 "d" ++ ["/"]))
  end.
  - apply (walk_up_chain _ 100). vm_compute. reflexivity.
  - simpl. lia.
  - simpl. lia.
Defined.

(** On the same input L2.c prints the 64 nearest names, without the
    root. *)
Example L2_pwd_truncates :
  (s ← session_after L2_c 65 (nest 64);
   L2.pwd_cmd 100 (mem s) (cwd s))
  = Ok (path_text (replicate 64 "d") +:+ nl).
Proof. vm_compute. reflexivity. Qed.

(** ** C9: the order in which [free_dir] releases the blocks *)

(** The shape of a directory tree: the address of a block and the trees
    of its sub-directories in use, in the order of the array. *)
#[local] Unset Elimination Schemes.
Inductive tree := Node (a : addr) (kids : list tree).
#[local] Set Elimination Schemes.

Lemma tree_ind' (P : tree -> Prop) :
  (∀ a ks, Forall P ks -> P (Node a ks)) -> ∀ t, P t.
Proof.
  intros H. fix IH 1. intros [a ks]. apply H.
  induction ks as [|k ks IHks]; constructor; [apply IH|exact IHks].
Qed.

(** Children first, then the block itself. *)
Fixpoint postorder (t : tree) : list addr :=
  match t with
  | Node a ks => flat_map postorder ks ++ [a]
  end.

(** The budget [free_dir] needs on a tree. *)
Fixpoint budget (t : tree) : nat :=
  match t with
  | Node a ks => S (S (length ks) + list_sum (map budget ks))
  end.

(** The heap holds the tree [t] at [p]. *)
Fixpoint tree_at (m : Memory) (p : ptr) (t : tree) {struct t} : Prop :=
  match t with
  | Node a ks =>
      p = Some a ∧
      ∃ d, cells m !! a = Some d ∧
           length (children d) = Z.to_nat (d_subdir_count d) ∧
           (fix go (cs : list ptr) (ks : list tree) {struct ks} : Prop :=
              match ks, cs with
              | [], [] => True
              | k :: ks', c :: cs' => tree_at m c k ∧ go cs' ks'
              | _, _ => False
              end) (children d) ks
  end.

Lemma tree_at_unfold (m : Memory) (p : ptr) (a : addr) (ks : list tree) :
  tree_at m p (Node a ks) ↔
  p = Some a ∧
  ∃ d, cells m !! a = Some d ∧
       length (children d) = Z.to_nat (d_subdir_count d) ∧
       Forall2 (tree_at m) (children d) ks.
Proof.
  simpl. apply and_iff_compat_l.
  apply exist_proper. intros d. do 2 apply and_iff_compat_l.
  generalize (children d). induction ks as [|k ks IH]; intros [|c cs].
  - split; [constructor|done].
  - split; [done|by inversion 1].
  - split; [done|by inversion 1].
  - rewrite IH. split.
    + intros [? ?]. by constructor.
    + by inversion 1.
Qed.

(** The blocks named in [xs] are gone from [m'], the others are as in [m]. *)
Definition released (m m' : Memory) (xs : list addr) : Prop :=
  ∀ x, cells m' !! x = if decide (x ∈ xs) then None else cells m !! x.

Lemma released_nil (m : Memory) : released m m [].
Proof. intros x. rewrite decide_False; [done|apply not_elem_of_nil]. Qed.

Lemma released_app (m1 m2 m3 : Memory) (xs ys : list addr) :
  released m1 m2 xs -> released m2 m3 ys -> released m1 m3 (xs ++ ys).
Proof.
  intros H1 H2 x. rewrite H2, H1. destruct (decide (x ∈ ys)) as [Hy|Hy].
  - rewrite decide_True; [done|apply elem_of_app; by right].
  - destruct (decide (x ∈ xs)) as [Hx|Hx].
    + rewrite decide_True; [done|apply elem_of_app; by left].
    + rewrite decide_False; [done|]. rewrite elem_of_app. tauto.
Qed.

(** A tree is untouched by what happens to blocks outside of it. *)
Lemma tree_at_frame (m m' : Memory) (t : tree) :
  ∀ p, tree_at m p t ->
       (∀ x, x ∈ postorder t -> cells m' !! x = cells m !! x) ->
       tree_at m' p t.
Proof.
  induction t as [a ks IH] using tree_ind'. intros p Ht Hsame.
  apply tree_at_unfold in Ht as (-> & d & Ha & Hlen & Hks).
  apply tree_at_unfold. split; [done|]. exists d.
  split; [|split; [done|]].
  - rewrite Hsame; [done|]. simpl. apply elem_of_app. right.
    by apply list_elem_of_singleton.
  - assert (∀ x, x ∈ flat_map postorder ks -> cells m' !! x = cells m !! x)
      as Hsame'.
    { intros x Hx. apply Hsame. simpl. apply elem_of_app. by left. }
    clear Hsame Ha Hlen. revert Hsame'.
    induction Hks as [|c k cs ks Hck _ IHks]; intros Hsame; [constructor|].
    apply Forall_cons in IH as [IHk IH]. constructor.
    + apply IHk; [done|]. intros x Hx. apply Hsame. simpl.
      apply elem_of_app. by left.
    + apply IHks; [done|]. intros x Hx. apply Hsame. simpl.
      apply elem_of_app. by right.
Qed.

Lemma trees_frame (m m' : Memory) (cs : list ptr) (ks : list tree) :
  Forall2 (tree_at m) cs ks ->
  (∀ x, x ∈ flat_map postorder ks -> cells m' !! x = cells m !! x) ->
  Forall2 (tree_at m') cs ks.
Proof.
  induction 1 as [|c k cs ks Hck _ IH]; intros Hsame; [constructor|].
  constructor.
  - apply (tree_at_frame m m' k c Hck). intros x Hx. apply Hsame. simpl.
    apply elem_of_app. by left.
  - apply IH. intros x Hx. apply Hsame. simpl. apply elem_of_app. by right.
Qed.

(** The recursive call does on a tree what [free_dir] is to do. *)
Definition frees (rec : Memory -> ptr -> res (Memory * list addr))
    (k : tree) : Prop :=
  ∀ m p, tree_at m p k -> NoDup (postorder k) ->
    ∃ m', rec m p = Ok (m', postorder k) ∧ released m m' (postorder k).

Lemma free_loop_spec (rec : Memory -> ptr -> res (Memory * list addr))
    (a : addr) (d : Dir) (ks : list tree) :
  ∀ (i : nat) (fuel : nat) (m : Memory),
    cells m !! a = Some d ->
    length (children d) = Z.to_nat (d_subdir_count d) ->
    Forall2 (tree_at m) (drop i (children d)) ks ->
    NoDup (flat_map postorder ks ++ [a]) ->
    (length ks < fuel)%nat ->
    Forall (frees rec) ks ->
    ∃ m', free_loop rec fuel m (Some a) (Z.of_nat i)
          = Ok (m', flat_map postorder ks) ∧
          released m m' (flat_map postorder ks).
Proof.
  induction ks as [|k ks IH]; intros i fuel m Ha Hlen Hks Hnd Hfuel Hrec.
  - destruct fuel as [|fuel]; [simpl in Hfuel; lia|].
    apply Forall2_nil_inv_r in Hks.
    assert (length (children d) <= i)%nat as Hi.
    { destruct (decide (length (children d) <= i)%nat) as [|Hn]; [done|].
      apply (f_equal length) in Hks. rewrite length_drop in Hks.
      simpl in Hks. lia. }
    exists m. split; [|apply released_nil].
    simpl. rewrite Ha. simpl. by rewrite decide_False by lia.
  - destruct fuel as [|fuel]; [simpl in Hfuel; lia|].
    apply Forall2_cons_inv_r in Hks as (c & cs & Hck & Hcs & Hdrop).
    assert (children d !! i = Some c) as Hc.
    { pose proof (lookup_drop (children d) i 0) as Hl.
      rewrite Hdrop, Nat.add_0_r in Hl. by rewrite <- Hl. }
    assert (drop (S i) (children d) = cs) as Hdrop'.
    { replace (S i) with (i + 1)%nat by lia.
      by rewrite <- drop_drop, Hdrop. }
    pose proof (lookup_lt_Some _ _ _ Hc) as Hi.
    apply lookup_take_Some in Hc as [Hc _].
    apply Forall_cons in Hrec as [Hk Hrec].
    simpl in Hnd. rewrite <- app_assoc in Hnd.
    apply NoDup_app in Hnd as (Hndk & Hdisj & Hnd).
    destruct (Hk m c Hck Hndk) as (m1 & Hrun & Hrel).
    assert (∀ x, x ∉ postorder k -> cells m1 !! x = cells m !! x) as Hout.
    { intros x Hx. by rewrite Hrel, decide_False. }
    destruct (IH (S i) fuel m1) as (m2 & Hloop & Hrel2); try done.
    + rewrite Hout; [done|]. intros Hin. apply (Hdisj a Hin).
      apply elem_of_app. right. by apply list_elem_of_singleton.
    + rewrite Hdrop'. apply (trees_frame m m1 cs ks Hcs).
      intros x Hx. apply Hout. intros Hin. apply (Hdisj x Hin).
      apply elem_of_app. by left.
    + simpl in Hfuel. lia.
    + exists m2. split; [|by eapply released_app].
      simpl free_loop. rewrite Ha. cbn [mbind res_bind].
      rewrite decide_True by lia.
      rewrite (aget_Ok _ _ c) by (lia || by rewrite Nat2Z.id).
      cbn [mbind res_bind]. rewrite Hrun. cbn [mbind res_bind].
      replace (Z.of_nat i + 1) with (Z.of_nat (S i)) by lia.
      rewrite Hloop. done.
Qed.

Lemma budget_kid (k : tree) (ks : list tree) :
  k ∈ ks -> (budget k <= list_sum (map budget ks))%nat.
Proof.
  induction ks as [|k' ks IH]; [by intros ?%elem_of_nil|].
  intros [->|Hin]%elem_of_cons; simpl; [lia|]. specialize (IH Hin). lia.
Qed.

Lemma free_dir_spec (t : tree) :
  ∀ fuel m p,
    tree_at m p t -> NoDup (postorder t) -> (budget t <= fuel)%nat ->
    ∃ m', free_dir fuel m p = Ok (m', postorder t) ∧
          released m m' (postorder t).
Proof.
  induction t as [a ks IH] using tree_ind'. intros fuel m p Ht Hnd Hfuel.
  apply tree_at_unfold in Ht as (-> & d & Ha & Hlen & Hks).
  destruct fuel as [|fuel]; [simpl in Hfuel; lia|].
  simpl in Hfuel, Hnd.
  destruct (free_loop_spec (free_dir fuel) a d ks 0 fuel m)
    as (m1 & Hloop & Hrel); try done; [lia| |].
  { apply Forall_forall. intros k Hk m0 p0 Ht0 Hnd0.
    rewrite Forall_forall in IH. apply (IH k Hk); [done..|].
    pose proof (budget_kid k ks Hk). lia. }
  assert (cells m1 !! a = Some d) as Ha1.
  { rewrite Hrel, decide_False; [done|].
    apply NoDup_app in Hnd as (_ & Hdisj & _). intros Hin.
    apply (Hdisj a Hin). by apply list_elem_of_singleton. }
  eexists. split.
  - simpl free_dir. change (Z.of_nat 0) with 0 in Hloop. rewrite Hloop.
    cbn [mbind res_bind free]. rewrite Ha1. cbn [mbind res_bind]. reflexivity.
  - apply (released_app m m1); [done|]. intros x. simpl.
    destruct (decide (x = a)) as [->|Hne].
    + rewrite lookup_delete_eq. rewrite decide_True; [done|].
      by apply list_elem_of_singleton.
    + rewrite lookup_delete_ne by done. rewrite decide_False; [done|].
      by rewrite list_elem_of_singleton.
Qed.

(** [u] is [t] or the tree of one of its descendants. *)
Inductive subtree : tree -> tree -> Prop :=
| subtree_here (t : tree) : subtree t t
| subtree_kid (u : tree) (a : addr) (ks : list tree) (k : tree) :
    k ∈ ks -> subtree u k -> subtree u (Node a ks).

Lemma flat_map_split (k : tree) (ks : list tree) :
  k ∈ ks ->
  ∃ l1 l2, flat_map postorder ks = l1 ++ postorder k ++ l2.
Proof.
  intros (ks1 & ks2 & ->)%list_elem_of_split.
  exists (flat_map postorder ks1), (flat_map postorder ks2).
  by rewrite flat_map_app.
Qed.

Lemma postorder_subtree (u t : tree) :
  subtree u t -> ∃ l1 l2, postorder t = l1 ++ postorder u ++ l2.
Proof.
  induction 1 as [t|u a ks k Hk _ (l1 & l2 & IH)].
  - exists [], []. by rewrite app_nil_r.
  - destruct (flat_map_split k ks Hk) as (f1 & f2 & Hf).
    exists (f1 ++ l1), (l2 ++ f2 ++ [a]). simpl. rewrite Hf, IH.
    by rewrite <- !app_assoc.
Qed.

(** In the post-order of a tree every descendant of a block comes before
    the block. *)
Lemma postorder_children_first (t : tree) (x : addr) (ks : list tree)
    (y : addr) :
  subtree (Node x ks) t -> y ∈ flat_map postorder ks ->
  ∃ l1 l2 l3, postorder t = l1 ++ y :: l2 ++ x :: l3.
Proof.
  intros (l1 & l2 & Ht)%postorder_subtree (f1 & f2 & Hf)%list_elem_of_split.
  exists (l1 ++ f1), f2, l2. rewrite Ht. simpl. rewrite Hf.
  by rewrite <- !app_assoc.
Qed.

(** C9.  On a heap that holds the tree [t] at [p], each block once,
    [free_dir] returns, given the budget of this tree; the blocks it
    releases are those of the tree, in post-order: every descendant of a
    block is released before the block, and the block [p] last of all; the
    blocks of the tree are gone from the heap afterwards and no other
    block has changed.  On a leaf the only block released is the leaf. *)
Theorem C9_free_dir_releases_children_first (m : Memory) (p : ptr)
    (t : tree) (fuel : nat) :
  tree_at m p t -> NoDup (postorder t) -> (budget t <= fuel)%nat ->
  ∃ m' trace,
    free_dir fuel m p = Ok (m', trace) ∧
    trace = postorder t ∧
    released m m' trace ∧
    (∀ x ks y, subtree (Node x ks) t -> y ∈ flat_map postorder ks ->
       ∃ l1 l2 l3, trace = l1 ++ y :: l2 ++ x :: l3) ∧
    (∀ a ks, t = Node a ks -> last trace = Some a) ∧
    (∀ a, t = Node a [] -> trace = [a]).
Proof.
  intros Ht Hnd Hfuel.
  destruct (free_dir_spec t fuel m p Ht Hnd Hfuel) as (m' & Hrun & Hrel).
  exists m', (postorder t). split; [done|]. split; [done|]. split; [done|].
  split; [|split].
  - intros x ks y. apply postorder_children_first.
  - intros a ks ->. simpl. apply last_snoc.
  - by intros a ->.
Qed.

(** Proves [tree_at] on a heap and a tree that are given in full. *)
Ltac tree_here :=
  apply tree_at_unfold; split; [reflexivity|];
  eexists; split; [vm_compute; reflexivity|];
  split; [reflexivity|];
  match goal with
  | |- Forall2 _ ?cs _ =>
      let cs' := eval vm_compute in cs in change cs with cs'
  end;
  repeat (apply List.Forall2_cons; [tree_here|]);
  apply List.Forall2_nil.

(** A tree of depth 3 with two sub-directories in every directory. *)
Definition seven_dirs : list Cmd :=
  [Mkdir (Some "a"); Mkdir (Some "b");
   Cd (Some "a"); Mkdir (Some "c"); Mkdir (Some "d"); Cd (Some "..");
   Cd (Some "b"); Mkdir (Some "e"); Mkdir (Some "f"); Cd (Some "/")].

Definition seven_tree : tree :=
  Node 0%nat [Node 1%nat [Node 3%nat []; Node 4%nat []];
              Node 2%nat [Node 5%nat []; Node 6%nat []]].

(** C9 at the end of a session that made seven directories: the root
    (block 0) is released last, each directory after its two
    sub-directories, and no block stays. *)
Lemma C9_witness :
  ∃ (s : Session) (m' : Memory),
    session_after linux_commands_c 7 seven_dirs = Ok s ∧
    free_dir 20 (mem s) (root s) = Ok (m', [3; 4; 1; 5; 6; 2; 0]%nat) ∧
    cells m' = ∅.
Proof.
  eexists.
  match goal with |- ∃ m', ?A ∧ _ =>
    assert A as HA by (vm_compute; reflexivity)
  end.
  match type of HA with _ = Ok ?s =>
    assert (tree_at (mem s) (root s) seven_tree) as Ht
      by (cbn [mem root]; unfold seven_tree; tree_here);
    assert (NoDup (postorder seven_tree)) as Hnd
      by (apply (bool_decide_unpack _); vm_compute; exact I);
    assert (budget seven_tree <= 20)%nat as Hb by (vm_compute; lia);
    destruct (C9_free_dir_releases_children_first (mem s) (root s)
                seven_tree 20 Ht Hnd Hb)
      as (m' & trace & Hrun & -> & Hrel & _)
  end.
  exists m'. split; [exact HA|]. split; [exact Hrun|].
  cbn [mem root] in Hrun.
  match type of Hrun with
  | ?run = _ =>
      let v := eval vm_compute in run in
      assert (run = v) as Hc by (vm_compute; reflexivity)
  end.
  rewrite Hc in Hrun. injection Hrun as Hm. by rewrite <- Hm.
Defined.

(** ** The heap of every session is one tree *)

Lemma Forall2_kids {A B C : Type} (P : A -> B -> Prop) (Q : A -> C -> Prop)
    (f : B -> C) (cs : list A) (ks : list B) :
  Forall (λ k, ∀ c, P c k -> Q c (f k)) ks ->
  Forall2 P cs ks -> Forall2 Q cs (map f ks).
Proof.
  intros HF H2. induction H2 as [|c k cs ks Hck _ IH]; [constructor|].
  apply Forall_cons in HF as [Hk HF]. simpl.
  constructor; [by apply Hk|by apply IH].
Qed.

(** The blocks of a tree the heap holds are live. *)
Lemma tree_at_live (m : Memory) (t : tree) :
  ∀ p, tree_at m p t -> ∀ x, x ∈ postorder t -> is_Some (cells m !! x).
Proof.
  induction t as [a ks IH] using tree_ind'. intros p Ht x Hx.
  apply tree_at_unfold in Ht as (-> & d & Ha & _ & Hks).
  simpl in Hx. apply elem_of_app in Hx as [Hx|Hx].
  - clear Ha.
    induction Hks as [|c k cs ks Hck _ IHks]; simpl in Hx;
      [by apply elem_of_nil in Hx|].
    apply Forall_cons in IH as [IHk IH].
    apply elem_of_app in Hx as [Hx|Hx]; [by apply (IHk c)|by apply IHks].
  - apply list_elem_of_singleton in Hx as ->. eauto.
Qed.

(** A command that leaves the sub-directories of a block alone leaves the
    tree alone. *)
Lemma tree_at_upd (m : Memory) (a : addr) (d d' : Dir) (t : tree) :
  cells m !! a = Some d -> d_subdirs d' = d_subdirs d ->
  d_subdir_count d' = d_subdir_count d ->
  ∀ p, tree_at m p t -> tree_at (upd m a d') p t.
Proof.
  intros Ha Hs Hc. induction t as [x ks IH] using tree_ind'. intros p Ht.
  apply tree_at_unfold in Ht as (-> & dx & Hx & Hlen & Hks).
  apply tree_at_unfold. split; [done|].
  assert (Forall2 (tree_at (upd m a d')) (children dx) ks) as Hks'.
  { rewrite <- (map_id ks). by apply (Forall2_kids (tree_at m)). }
  destruct (decide (x = a)) as [->|Hne].
  - exists d'. simpl. rewrite lookup_insert_eq.
    rewrite Ha in Hx. apply (inj Some) in Hx as <-.
    assert (children d' = children d) as Hch
      by (unfold children; by rewrite Hs, Hc).
    by rewrite Hch, Hc.
  - exists dx. simpl. by rewrite lookup_insert_ne.
Qed.

(** The tree with the leaf [b] added as the last sub-directory of the
    block [a]. *)
Fixpoint graft (a b : addr) (t : tree) : tree :=
  match t with
  | Node x ks =>
      Node x (map (graft a b) ks ++
              if decide (x = a) then [Node b []] else [])
  end.

Lemma tree_at_graft (m : Memory) (a : addr) (d : Dir) (name : string)
    (blk : Dir) (rest : list Dir) (t : tree) :
  cells m !! a = Some d -> wf_dir m d -> d_subdir_count d < MAX_SUBDIRS ->
  ∀ p, tree_at m p t ->
       tree_at (mem_mkdir m a d name blk rest) p
               (graft a (fresh (dom (cells m))) t).
Proof.
  intros Ha Hwf Hroom. induction t as [x ks IH] using tree_ind'. intros p Ht.
  apply tree_at_unfold in Ht as (-> & dx & Hx & Hlen & Hks).
  simpl graft. apply tree_at_unfold. split; [done|].
  assert (Forall2 (tree_at (mem_mkdir m a d name blk rest)) (children dx)
            (map (graft a (fresh (dom (cells m)))) ks)) as Hks'
    by (by apply (Forall2_kids (tree_at m))).
  destruct (decide (x = a)) as [->|Hne].
  - rewrite Ha in Hx. apply (inj Some) in Hx as <-.
    exists (add_subdir d (Some (fresh (dom (cells m))))).
    split; [apply mkdir_parent_block|].
    rewrite (children_add_subdir m) by done. split.
    + rewrite length_app, Hlen. simpl. destruct Hwf as [_ _ Hsc _ _]. lia.
    + apply Forall2_app; [done|]. constructor; [|constructor].
      apply tree_at_unfold. split; [done|].
      exists (init_dir blk name (Some a)).
      split; [by apply mkdir_new_block|]. split; [done|constructor].
  - exists dx. rewrite app_nil_r. split; [|done].
    rewrite mkdir_other_block; [done|done|].
    intros ->. by eapply fresh_not_live.
Qed.

Lemma flat_postorder_graft (a b : addr) (ks : list tree) :
  Forall (λ k, NoDup (postorder k) ->
               postorder (graft a b k)
               ≡ₚ (if decide (a ∈ postorder k) then [b] else [])
                  ++ postorder k) ks ->
  NoDup (flat_map postorder ks) ->
  flat_map postorder (map (graft a b) ks)
  ≡ₚ (if decide (a ∈ flat_map postorder ks) then [b] else [])
     ++ flat_map postorder ks.
Proof.
  induction ks as [|k ks IHks]; intros IH Hnd; simpl.
  - done.
  - apply Forall_cons in IH as [IHk IH].
    apply NoDup_app in Hnd as (Hk & Hdisj & Hks).
    rewrite (IHk Hk), (IHks IH Hks).
    destruct (decide (a ∈ postorder k)) as [Hak|Hak].
    + rewrite (decide_False (P := a ∈ flat_map postorder ks))
        by (by apply Hdisj).
      rewrite decide_True by (apply elem_of_app; by left). done.
    + destruct (decide (a ∈ flat_map postorder ks)) as [Haks|Haks].
      * rewrite decide_True by (apply elem_of_app; by right). simpl.
        symmetry. apply Permutation_middle.
      * rewrite decide_False by (rewrite elem_of_app; tauto). done.
Qed.

(** Grafting adds the one block [b], when [a] is in the tree. *)
Lemma postorder_graft (a b : addr) (t : tree) :
  NoDup (postorder t) ->
  postorder (graft a b t)
  ≡ₚ (if decide (a ∈ postorder t) then [b] else []) ++ postorder t.
Proof.
  induction t as [x ks IH] using tree_ind'. intros Hnd. simpl.
  rewrite flat_map_app.
  apply NoDup_app in Hnd as (Hks & Hx & _).
  rewrite (flat_postorder_graft a b ks IH Hks).
  destruct (decide (x = a)) as [->|Hne].
  - rewrite (decide_False (P := a ∈ flat_map postorder ks)).
    2: { intros Hin. apply (Hx a Hin). by apply list_elem_of_singleton. }
    rewrite decide_True
      by (apply elem_of_app; right; by apply list_elem_of_singleton).
    simpl. rewrite <- app_assoc. simpl.
    rewrite <- Permutation_middle. done.
  - simpl. rewrite app_nil_r.
    destruct (decide (a ∈ flat_map postorder ks)) as [Hin|Hin].
    + rewrite decide_True by (apply elem_of_app; by left). done.
    + rewrite decide_False; [done|].
      rewrite elem_of_app, list_elem_of_singleton. intros [?|?]; [done|].
      by apply Hne.
Qed.

(** The live blocks of the heap are the blocks of the tree [t] at [p],
    each once. *)
Definition heap_tree (m : Memory) (p : ptr) (t : tree) : Prop :=
  tree_at m p t ∧ NoDup (postorder t) ∧
  ∀ x, is_Some (cells m !! x) -> x ∈ postorder t.

Lemma heap_tree_upd (m : Memory) (a : addr) (d d' : Dir) (p : ptr)
    (t : tree) :
  cells m !! a = Some d -> d_subdirs d' = d_subdirs d ->
  d_subdir_count d' = d_subdir_count d ->
  heap_tree m p t -> heap_tree (upd m a d') p t.
Proof.
  intros Ha Hs Hc (Ht & Hnd & Hall). split; [|split; [done|]].
  - by apply (tree_at_upd m a d).
  - intros x. simpl. destruct (decide (x = a)) as [->|Hne].
    + intros _. apply Hall. eauto.
    + rewrite lookup_insert_ne by done. apply Hall.
Qed.

Lemma heap_tree_mkdir (m : Memory) (a : addr) (d : Dir) (name : string)
    (blk : Dir) (rest : list Dir) (p : ptr) (t : tree) :
  cells m !! a = Some d -> wf_dir m d -> d_subdir_count d < MAX_SUBDIRS ->
  heap_tree m p t ->
  heap_tree (mem_mkdir m a d name blk rest) p
            (graft a (fresh (dom (cells m))) t).
Proof.
  intros Ha Hwf Hroom (Ht & Hnd & Hall).
  assert (a ∈ postorder t) as Hin by (apply Hall; eauto).
  pose proof (postorder_graft a (fresh (dom (cells m))) t Hnd) as Hperm.
  rewrite decide_True in Hperm by done. simpl in Hperm.
  split; [|split].
  - by apply tree_at_graft.
  - rewrite Hperm. apply NoDup_cons. split; [|done].
    intros Hb. destruct (tree_at_live m t p Ht _ Hb) as [db Hdb].
    by apply (fresh_not_live m _ db Hdb).
  - intros x Hx. rewrite Hperm. apply elem_of_cons.
    destruct (decide (x = fresh (dom (cells m)))) as [->|Hxb]; [by left|].
    right. destruct (decide (x = a)) as [->|Hxa]; [done|].
    rewrite mkdir_other_block in Hx by done. by apply Hall.
Qed.

(** No command takes a block out of the tree or shares one. *)
Lemma heap_tree_effect (prog : Program) (m : Memory) (a : addr) (d : Dir)
    (c : Cmd) (p : ptr) (t : tree) :
  wf_mem m -> cells m !! a = Some d -> heap_tree m p t ->
  ∃ t', heap_tree (effect prog m a d c) p t'.
Proof.
  intros Hm Ha Ht. pose proof (proj1 Hm _ _ Ha) as Hwf.
  destruct c as [[n|]|o|[n|]|[n1|] [n2|]|[n|]|[n|]| |[n1|] [n2|]];
    simpl; try (by exists t).
  - case_decide; [by exists t|]. exists t. by apply (heap_tree_upd m a d).
  - case_decide; [|by exists t]. exists t. by apply (heap_tree_upd m a d).
  - case_decide; [|by exists t]. exists t. by apply (heap_tree_upd m a d).
  - case_decide as Hc; [by exists t|].
    destruct (pool m) as [|b rest]; [by exists t|].
    eexists. apply heap_tree_mkdir; [done|done| |done]. lia.
  - destruct prog; [by exists t|]. case_decide; [|by exists t].
    exists t. by apply (heap_tree_upd m a d).
Qed.

(** In every session the live blocks form one tree below the root. *)
Lemma reachable_tree (prog : Program) (s : Session) :
  reachable prog s -> ∃ t, heap_tree (mem s) (root s) t.
Proof.
  induction 1 as [m s [Hc _] Hp Hs|fuel s s' c out Hr [t IH] Hex].
  - rewrite start_spec in Hs. destruct (pool m) as [|b rest]; [done|].
    injection Hs as <-. simpl. rewrite Hc.
    exists (Node (fresh (dom (∅ : gmap addr Dir))) []).
    split; [|split].
    + apply tree_at_unfold. split; [done|]. eexists.
      split; [simpl; by rewrite lookup_insert_eq|].
      split; [done|constructor].
    + simpl. apply NoDup_singleton.
    + intros x. simpl. rewrite lookup_insert_is_Some, lookup_empty.
      intros [->|[_ [? [=]]]]. by apply list_elem_of_singleton.
  - destruct (reachable_cwd prog s Hr) as (a & d & Hcwd & Ha & Hwf).
    destruct (reachable_wf prog s Hr) as (Hm & _ & _).
    destruct (exec_effect prog fuel s s' c out a d Hcwd Ha Hwf Hex)
      as (-> & -> & _).
    by apply (heap_tree_effect prog (mem s) a d c (root s) t).
Qed.

(** At [exit], [free_dir(root)] returns, releases every live block once,
    each directory after its sub-directories, and leaves no block. *)
Lemma exit_releases_every_block (prog : Program) (s : Session) :
  reachable prog s ->
  ∃ t fuel m',
    heap_tree (mem s) (root s) t ∧
    free_dir fuel (mem s) (root s) = Ok (m', postorder t) ∧
    cells m' = ∅.
Proof.
  intros Hr. destruct (reachable_tree prog s Hr) as (t & Ht & Hnd & Hall).
  destruct (free_dir_spec t (budget t) (mem s) (root s) Ht Hnd (le_n _))
    as (m' & Hrun & Hrel).
  exists t, (budget t), m'. split; [done|]. split; [done|].
  apply map_eq. intros x. rewrite Hrel, lookup_empty.
  case_decide as Hx; [done|].
  destruct (cells (mem s) !! x) as [dx|] eqn:Hdx; [|done].
  exfalso. apply Hx, Hall. by rewrite Hdx.
Qed.

(** * Further properties of the two programs *)

(** ** Listings *)

(** The lines of [ls_cmd]: [-l] selects the long format, whose directory
    line differs between the two programs. *)
Definition long_format (opt : option string) : bool :=
  match opt with Some o => streq o "-l" | None => false end.

Definition dir_line (prog : Program) (opt : option string) (n : string)
    : string :=
  if long_format opt then
    match prog with
    | linux_commands_c => "drwx ---- " +:+ n +:+ "/" +:+ nl
    | L2_c => "drwx " +:+ pad4 "-" +:+ " " +:+ n +:+ "/" +:+ nl
    end
  else n +:+ "/" +:+ nl.

Definition file_line (opt : option string) (f : File) : string :=
  if long_format opt
  then "-" +:+ f_perm f +:+ " " +:+ fmt_4d (f_size f) +:+ " " +:+ f_name f
       +:+ nl
  else f_name f +:+ nl.

Lemma ls_files_spec (d : Dir) (fileline : File -> string) (n : nat) (i : Z) :
  0 <= i -> (Z.to_nat i + n <= length (d_files d))%nat ->
  ls_files d fileline n i =
    Ok (concat_str (fileline <$> take n (drop (Z.to_nat i) (d_files d)))).
Proof.
  revert i. induction n as [|n IH]; intros i Hi Hlen; [done|].
  destruct (lookup_lt_is_Some_2 (d_files d) (Z.to_nat i)) as [f Hf]; [lia|].
  simpl. rewrite (aget_Ok _ _ f) by done. cbn [mbind res_bind].
  rewrite IH by lia. cbn [mbind res_bind].
  replace (Z.to_nat (i + 1)) with (S (Z.to_nat i)) by lia.
  by rewrite (drop_S _ _ _ Hf).
Qed.

Lemma ls_subdirs_spec (m : Memory) (d : Dir) (dirline : string -> string)
    (n : nat) (i : Z) :
  0 <= i -> (Z.to_nat i + n <= length (d_subdirs d))%nat ->
  Forall (λ p, is_Some (name_at m p))
         (take n (drop (Z.to_nat i) (d_subdirs d))) ->
  ls_subdirs m d dirline n i =
    Ok (concat_str
          (dirline <$> omap (name_at m)
                         (take n (drop (Z.to_nat i) (d_subdirs d))))).
Proof.
  revert i. induction n as [|n IH]; intros i Hi Hlen Hlive; [done|].
  destruct (lookup_lt_is_Some_2 (d_subdirs d) (Z.to_nat i)) as [c Hc]; [lia|].
  rewrite (drop_S _ _ _ Hc) in Hlive |- *. simpl take in Hlive |- *.
  apply Forall_cons in Hlive as [Hc' Hlive].
  destruct (name_at_load _ _ Hc') as (sd & Hsd & Hnm).
  simpl. rewrite (aget_Ok _ _ c) by done. cbn [mbind res_bind].
  rewrite Hsd. cbn [mbind res_bind].
  rewrite IH;
    [|lia|lia|by replace (Z.to_nat (i + 1)) with (S (Z.to_nat i)) by lia].
  cbn [mbind res_bind].
  replace (Z.to_nat (i + 1)) with (S (Z.to_nat i)) by lia.
  by rewrite Hnm.
Qed.

(** The text [ls] prints for a directory that holds an entry. *)
Definition listing (prog : Program) (opt : option string) (m : Memory)
    (d : Dir) : string :=
  concat_str (dir_line prog opt <$> subdir_names m d)
  +:+ concat_str (file_line opt <$> files_of d).

Lemma LC_ls_spec (m : Memory) (a : addr) (d : Dir) (opt : option string) :
  cells m !! a = Some d -> wf_dir m d ->
  LinuxCommands.ls_cmd m (Some a) opt
  = Ok (listing linux_commands_c opt m d).
Proof.
  intros Ha [[Hf Hs] Hfc Hsc Hch _]. unfold LinuxCommands.ls_cmd.
  simpl load. rewrite Ha. cbn [mbind res_bind].
  rewrite ls_subdirs_spec;
    [|lia|unfold MAX_SUBDIRS in *; lia|by rewrite drop_0].
  cbn [mbind res_bind].
  rewrite ls_files_spec; [|lia|unfold MAX_FILES in *; lia].
  cbn [mbind res_bind]. rewrite !drop_0. done.
Qed.

Lemma L2_ls_spec (m : Memory) (a : addr) (d : Dir) (opt : option string) :
  cells m !! a = Some d -> wf_dir m d ->
  L2.ls_cmd m (Some a) opt
  = Ok (if decide (d_subdir_count d = 0 ∧ d_file_count d = 0)
        then puts "ls: no entries" else listing L2_c opt m d).
Proof.
  intros Ha [[Hf Hs] Hfc Hsc Hch _]. unfold L2.ls_cmd.
  simpl load. rewrite Ha. cbn [mbind res_bind].
  case_decide as Hempty.
  - destruct Hempty as [-> ->]. done.
  - assert (bool_decide (d_subdir_count d = 0)
            && bool_decide (d_file_count d = 0) = false) as ->.
    { apply andb_false_iff. rewrite !bool_decide_eq_false.
      destruct (decide (d_subdir_count d = 0)); [right|left]; tauto. }
    rewrite ls_subdirs_spec;
      [|lia|unfold MAX_SUBDIRS in *; lia|by rewrite drop_0].
    cbn [mbind res_bind].
    rewrite ls_files_spec; [|lia|unfold MAX_FILES in *; lia].
    cbn [mbind res_bind]. rewrite !drop_0. done.
Qed.

(** X1.  In every reachable session [ls] returns and leaves the session
    as it is.  It prints one line for each sub-directory in use, in the
    order of the array (the order of creation), the name followed by [/],
    and then one line for each file in use, in the order of the array; with
    [-l] the lines carry the fixed directory tag, or the permission text
    and the size of the file in a field of width 4.  L2.c prints the line
    [ls: no entries] instead when the directory holds no entry. *)
Theorem ls_lists_directories_then_files (prog : Program) (fuel : nat)
    (s : Session) (a : addr) (d : Dir) (opt : option string) :
  reachable prog s -> cwd s = Some a -> cells (mem s) !! a = Some d ->
  exec prog fuel s (Ls opt)
  = Ok (s, match prog with
           | linux_commands_c => listing linux_commands_c opt (mem s) d
           | L2_c =>
               if decide (d_subdir_count d = 0 ∧ d_file_count d = 0)
               then puts "ls: no entries"
               else listing L2_c opt (mem s) d
           end).
Proof.
  intros Hr Hcwd Ha.
  destruct (reachable_wf prog s Hr) as (Hm & _ & _).
  pose proof (proj1 Hm a d Ha) as Hwf.
  destruct s as [m r cw]. simpl in *. subst cw.
  destruct prog; unfold exec; simpl mem; simpl cwd.
  - by rewrite (LC_ls_spec m a d opt Ha Hwf).
  - by rewrite (L2_ls_spec m a d opt Ha Hwf).
Qed.

(** X1 in the session of L2.c that made the directories [b] and [a] and
    the file [f], in this order. *)
Lemma ls_lists_directories_then_files_witness :
  ∃ (s : Session) (d : Dir),
    session_after L2_c 3
      [Mkdir (Some "b"); Touch (Some "f"); Mkdir (Some "a")] = Ok s ∧
    cells (mem s) !! 0%nat = Some d ∧
    exec L2_c 0 s (Ls None)
    = Ok (s, "b/" +:+ nl +:+ "a/" +:+ nl +:+ "f" +:+ nl) ∧
    exec L2_c 0 s (Ls (Some "-l"))
    = Ok (s, "drwx    - b/" +:+ nl +:+ "drwx    - a/" +:+ nl
             +:+ "-rw-    0 f" +:+ nl).
Proof.
  eexists _, _.
  match goal with |- ?A ∧ ?B ∧ _ =>
    assert A as HA by (vm_compute; reflexivity);
    assert B as HB by (vm_compute; reflexivity)
  end.
  split; [exact HA|]. split; [exact HB|].
  pose proof (session_after_reachable _ 2 _ _ HA) as Hr.
  split.
  - rewrite (ls_lists_directories_then_files L2_c 0 _ 0%nat _ None
               Hr eq_refl HB).
    vm_compute. reflexivity.
  - rewrite (ls_lists_directories_then_files L2_c 0 _ 0%nat _ (Some "-l")
               Hr eq_refl HB).
    vm_compute. reflexivity.
Defined.

(** ** No undefined behaviour *)

Lemma exec_returns (prog : Program) (fuel : nat) (s : Session) (c : Cmd) :
  reachable prog s -> (64 < fuel)%nat ->
  (prog = linux_commands_c -> c ≠ Pwd) ->
  ∃ s' out, exec prog fuel s c = Ok (s', out).
Proof.
  intros Hr Hfuel Hpwd.
  destruct (reachable_cwd prog s Hr) as (a & d & Hcwd & Ha & Hwf).
  destruct prog.
  - destruct s as [m r cw]. simpl in *. subst cw.
    destruct c as [[n|]|o|[n|]|[n1|] [n2|]|[n|]|[n|]| |n1 n2];
      unfold exec, keep_cwd; simpl mem; simpl cwd; simpl root;
      try (by eexists _, _).
    + rewrite (LC_touch_spec m a d n Ha Hwf). cbn [mbind res_bind].
      repeat case_decide; by eexists _, _.
    + rewrite (LC_ls_spec m a d o Ha Hwf). by eexists _, _.
    + rewrite (LC_rm_spec m a d n Ha Hwf). cbn [mbind res_bind].
      repeat case_decide; by eexists _, _.
    + rewrite (LC_mv_spec m a d n1 n2 Ha Hwf). cbn [mbind res_bind].
      repeat case_decide; by eexists _, _.
    + rewrite (LC_mkdir_spec m a d n Ha Hwf). cbn [mbind res_bind].
      repeat case_decide; try (by eexists _, _).
      destruct (pool m); by eexists _, _.
    + rewrite (LC_cd_spec m a d n r Ha Hwf). by eexists _, _.
    + by destruct Hpwd.
  - destruct s as [m r cw]. simpl in *. subst cw.
    destruct c as [[n|]|o|[n|]|[n1|] [n2|]|[n|]|[n|]| |[n1|] [n2|]].
    14: { destruct (L2_pwd_total fuel _ Hr Hfuel) as (ns & _ & [H|H]);
           eexists _, _; exact H. }
    all: unfold exec, keep_cwd; simpl mem; simpl cwd; simpl root;
      try (by eexists _, _).
    + rewrite (L2_touch_spec m a d n Ha Hwf). cbn [mbind res_bind].
      repeat case_decide; by eexists _, _.
    + rewrite (L2_ls_spec m a d o Ha Hwf). by eexists _, _.
    + rewrite (L2_rm_spec m a d n Ha Hwf). cbn [mbind res_bind].
      repeat case_decide; by eexists _, _.
    + rewrite (L2_mv_spec m a d n1 n2 Ha Hwf). cbn [mbind res_bind].
      repeat case_decide; by eexists _, _.
    + rewrite (L2_mkdir_spec m a d n Ha Hwf). cbn [mbind res_bind].
      repeat case_decide; try (by eexists _, _).
      destruct (pool m); by eexists _, _.
    + rewrite (L2_cd_spec m a d n r Ha Hwf). by eexists _, _.
    + rewrite (L2_chmod_spec m a d n1 n2 Ha Hwf). cbn [mbind res_bind].
      repeat case_decide; by eexists _, _.
Qed.

(** X2.  In every reachable session every command returns, whatever its
    arguments: no array is accessed outside its bounds and no pointer that
    is [NULL] or dangling is followed.  The one exception is [pwd] of
    linux-commands.c, whose walk is not bounded. *)
Theorem commands_return (prog : Program) (fuel : nat) (s : Session)
    (c : Cmd) :
  reachable prog s -> (64 < fuel)%nat ->
  (prog = linux_commands_c -> c ≠ Pwd) ->
  ∃ s' out, exec prog fuel s c = Ok (s', out).
Proof. apply exec_returns. Qed.

(** X2 for [pwd] of L2.c, one level below the root. *)
Lemma commands_return_witness :
  ∃ s : Session,
    session_after L2_c 2 [Mkdir (Some "a"); Cd (Some "a")] = Ok s ∧
    ∃ s' out, exec L2_c 65 s Pwd = Ok (s', out).
Proof.
  eexists.
  match goal with |- ?A ∧ _ =>
    assert A as HA by (vm_compute; reflexivity)
  end.
  split; [exact HA|].
  apply (commands_return L2_c 65 _ Pwd (session_after_reachable _ 1 _ _ HA));
    [lia|discriminate].
Defined.

(** ** Invariants of the sessions *)

(** X3.  In every reachable session the root and the current directory
    are live blocks and the root has no parent; and in every live block
    the two counts stay between 0 and 16, every sub-directory pointer in
    use refers to a live block, and so does the parent pointer unless it
    is [NULL]. *)
Theorem counts_and_pointers_stay_valid (prog : Program) (s : Session) :
  reachable prog s ->
  (∃ r dr c dc,
     root s = Some r ∧ cells (mem s) !! r = Some dr ∧ d_parent dr = None ∧
     cwd s = Some c ∧ cells (mem s) !! c = Some dc) ∧
  ∀ a d, cells (mem s) !! a = Some d ->
    0 <= d_file_count d <= MAX_FILES ∧
    0 <= d_subdir_count d <= MAX_SUBDIRS ∧
    Forall (λ p, ∃ x dx, p = Some x ∧ cells (mem s) !! x = Some dx)
           (children d) ∧
    (d_parent d = None ∨
     ∃ x dx, d_parent d = Some x ∧ cells (mem s) !! x = Some dx).
Proof.
  intros Hr. split.
  - destruct (reachable_root prog s Hr) as (r & dr & Hroot & Hdr & Hp).
    destruct (reachable_cwd prog s Hr) as (c & dc & Hcwd & Hdc & _).
    by exists r, dr, c, dc.
  - destruct (reachable_wf prog s Hr) as (Hm & _ & _).
    intros a d Ha. destruct (proj1 Hm a d Ha) as [_ Hfc Hsc Hch Hpar].
    assert (∀ p, is_Some (name_at (mem s) p) ->
                 ∃ x dx, p = Some x ∧ cells (mem s) !! x = Some dx) as Hlive.
    { intros [x|]; simpl; [|by intros [? ?]].
      destruct (cells (mem s) !! x) as [dx|] eqn:Hx; [|by intros [? ?]].
      intros _. by exists x, dx. }
    split; [done|]. split; [done|]. split.
    + eapply Forall_impl; [exact Hch|]. exact Hlive.
    + destruct Hpar as [Hpar|Hpar]; [by left|right]. by apply Hlive.
Qed.

(** What the programs keep true of every file in use. *)
Definition files_plain (prog : Program) (m : Memory) : Prop :=
  ∀ a d, cells m !! a = Some d ->
    Forall (λ f, f_size f = 0 ∧ f_content f = "" ∧
                 (String.length (f_perm f) <= 7)%nat ∧
                 (prog = linux_commands_c -> f_perm f = "rw-"))
           (files_of d).

Lemma files_plain_upd (prog : Program) (m : Memory) (a : addr) (d' : Dir) :
  files_plain prog m ->
  Forall (λ f, f_size f = 0 ∧ f_content f = "" ∧
               (String.length (f_perm f) <= 7)%nat ∧
               (prog = linux_commands_c -> f_perm f = "rw-"))
         (files_of d') ->
  files_plain prog (upd m a d').
Proof.
  intros Hp Hd' c dc. simpl. destruct (decide (a = c)) as [<-|Hne].
  - rewrite lookup_insert_eq. by intros [= <-].
  - rewrite lookup_insert_ne by done. apply Hp.
Qed.

Lemma Forall_alter_keeps {A : Type} (P : A -> Prop) (g : A -> A)
    (l : list A) (i : nat) :
  Forall P l -> (∀ x, P x -> P (g x)) -> Forall P (alter g i l).
Proof.
  intros Hl Hg. apply Forall_lookup. intros j y.
  destruct (decide (i = j)) as [<-|Hne].
  - rewrite list_lookup_alter_eq. intros Hy.
    apply fmap_Some in Hy as (x & Hx & ->).
    apply Hg. by eapply Forall_lookup_1.
  - rewrite list_lookup_alter_ne by done. by eapply Forall_lookup_1.
Qed.

Lemma files_plain_effect (prog : Program) (m : Memory) (a : addr) (d : Dir)
    (c : Cmd) :
  wf_mem m -> files_plain prog m -> cells m !! a = Some d ->
  files_plain prog (effect prog m a d c).
Proof.
  intros Hm Hp Ha. pose proof (proj1 Hm _ _ Ha) as Hwf.
  pose proof (Hp _ _ Ha) as Hd.
  destruct c as [[n|]|o|[n|]|[n1|] [n2|]|[n|]|[n|]| |[n1|] [n2|]];
    simpl; try done.
  - case_decide as Hc; [done|]. apply files_plain_upd; [done|].
    rewrite (files_of_add_file m) by (done || lia).
    apply Forall_app. split; [done|]. apply Forall_singleton.
    simpl. split; [done|]. split; [done|]. split; [lia|done].
  - case_decide as Hin; [|done].
    destruct (file_index_found m d n Hwf Hin) as [Hr _].
    apply files_plain_upd; [done|].
    rewrite (files_of_del_file m) by done.
    rewrite delete_take_drop. apply Forall_app.
    split; [by apply Forall_take|by apply Forall_drop].
  - case_decide; [|done]. apply files_plain_upd; [done|].
    rewrite files_of_alter_file. by apply Forall_alter_keeps.
  - case_decide; [done|]. destruct (pool m) as [|b rest] eqn:Hpool; [done|].
    intros x dx Hx.
    destruct (decide (x = a)) as [->|Hxa].
    { rewrite mkdir_parent_block in Hx. by injection Hx as <-. }
    destruct (decide (x = fresh (dom (cells m)))) as [->|Hxn].
    { rewrite (mkdir_new_block m a d n b rest Ha) in Hx. injection Hx as <-.
      unfold files_of. simpl. apply Forall_nil_2. }
    rewrite mkdir_other_block in Hx by done. exact (Hp x dx Hx).
  - destruct prog; [done|]. case_decide; [|done].
    apply files_plain_upd; [done|].
    rewrite files_of_alter_file. apply Forall_alter_keeps; [done|].
    intros f (Hs & Hc & _ & _). simpl. split; [done|]. split; [done|].
    split; [|done]. unfold strncpy. rewrite str_take_length.
    change (Z.to_nat (PERM_LEN - 1)) with 7%nat. lia.
Qed.

Lemma reachable_files_plain (prog : Program) (s : Session) :
  reachable prog s -> files_plain prog (mem s).
Proof.
  induction 1 as [m s [Hc _] Hp Hs|fuel s s' c out Hr IH Hex].
  - rewrite start_spec in Hs. destruct (pool m) as [|b rest]; [done|].
    injection Hs as <-. unfold files_plain. simpl. rewrite Hc. intros a d.
    rewrite lookup_insert_Some, lookup_empty.
    intros [[_ <-]|[_ [=]]]. unfold files_of. simpl. apply Forall_nil_2.
  - destruct (reachable_cwd prog s Hr) as (a & d & Hcwd & Ha & Hwf).
    destruct (reachable_wf prog s Hr) as (Hm & _ & _).
    destruct (exec_effect prog fuel s s' c out a d Hcwd Ha Hwf Hex)
      as (-> & _ & _).
    by apply files_plain_effect.
Qed.

(** X4.  In every reachable session every stored name is a C string that
    fits its field: the name of a directory and the name of a file have at
    most 31 bytes, the permission text of a file has at most 7. *)
Theorem stored_strings_fit_their_fields (prog : Program) (s : Session)
    (a : addr) (d : Dir) :
  reachable prog s -> cells (mem s) !! a = Some d ->
  (String.length (d_name d) < Z.to_nat NAME_LEN)%nat ∧
  Forall (λ f, (String.length (f_name f) < Z.to_nat NAME_LEN)%nat ∧
               (String.length (f_perm f) < Z.to_nat PERM_LEN)%nat)
         (files_of d).
Proof.
  intros Hr Ha.
  destruct (reachable_names_short prog s Hr a d Ha) as [Hn Hf].
  pose proof (reachable_files_plain prog s Hr a d Ha) as Hp.
  change (Z.to_nat NAME_LEN) with 32%nat.
  change (Z.to_nat PERM_LEN) with 8%nat.
  split; [lia|]. unfold file_names in Hf. rewrite Forall_fmap in Hf.
  apply Forall_lookup. intros i f Hi.
  pose proof (Forall_lookup_1 _ _ _ _ Hf Hi) as H1.
  pose proof (Forall_lookup_1 _ _ _ _ Hp Hi) as (_ & _ & H2 & _).
  simpl in H1. lia.
Qed.

(** X5.  No command writes the size or the content of a file after
    [touch] has set them: in every reachable session every file has size 0
    and empty content, and in linux-commands.c, which has no [chmod], the
    permission text [rw-]. *)
Theorem files_stay_empty (prog : Program) (s : Session) (a : addr)
    (d : Dir) (f : File) :
  reachable prog s -> cells (mem s) !! a = Some d -> f ∈ files_of d ->
  f_size f = 0 ∧ f_content f = "" ∧
  (prog = linux_commands_c -> f_perm f = "rw-").
Proof.
  intros Hr Ha Hf.
  pose proof (reachable_files_plain prog s Hr a d Ha) as Hp.
  rewrite Forall_forall in Hp. destruct (Hp f Hf) as (? & ? & _ & ?). done.
Qed.

(** X3 in a session of L2.c with one sub-directory and one file. *)
Lemma counts_and_pointers_stay_valid_witness :
  ∃ s : Session,
    session_after L2_c 2 [Mkdir (Some "a"); Touch (Some "f")] = Ok s ∧
    ∀ a d, cells (mem s) !! a = Some d ->
      0 <= d_file_count d <= MAX_FILES ∧
      0 <= d_subdir_count d <= MAX_SUBDIRS.
Proof.
  eexists.
  match goal with |- ?A ∧ _ =>
    assert A as HA by (vm_compute; reflexivity)
  end.
  split; [exact HA|]. intros a d Ha.
  destruct (proj2 (counts_and_pointers_stay_valid L2_c _
                     (session_after_reachable _ 1 _ _ HA)) a d Ha)
    as (H1 & H2 & _).
  done.
Defined.

(** X4 for the directory made by [mkdir] with a name of 40 bytes. *)
Lemma stored_strings_fit_their_fields_witness :
  ∃ (s : Session) (d : Dir),
    session_after linux_commands_c 2
      [Mkdir (Some "0123456789012345678901234567890123456789")] = Ok s ∧
    cells (mem s) !! 1%nat = Some d ∧
    (String.length (d_name d) < Z.to_nat NAME_LEN)%nat.
Proof.
  eexists _, _.
  match goal with |- ?A ∧ ?B ∧ _ =>
    assert A as HA by (vm_compute; reflexivity);
    assert B as HB by (vm_compute; reflexivity)
  end.
  split; [exact HA|]. split; [exact HB|].
  exact (proj1 (stored_strings_fit_their_fields linux_commands_c _ 1%nat _
                  (session_after_reachable _ 1 _ _ HA) HB)).
Defined.

(** X5 for a file that was renamed and whose permissions were changed. *)
Lemma files_stay_empty_witness :
  ∃ (s : Session) (d : Dir) (f : File),
    session_after L2_c 1
      [Touch (Some "f"); Mv (Some "f") (Some "g");
       Chmod (Some "r--") (Some "g")] = Ok s ∧
    cells (mem s) !! 0%nat = Some d ∧ files_of d !! 0%nat = Some f ∧
    f_size f = 0 ∧ f_content f = "".
Proof.
  eexists _, _, _.
  match goal with |- ?A ∧ ?B ∧ ?C ∧ _ =>
    assert A as HA by (vm_compute; reflexivity);
    assert B as HB by (vm_compute; reflexivity);
    assert C as HC by (vm_compute; reflexivity)
  end.
  split; [exact HA|]. split; [exact HB|]. split; [exact HC|].
  destruct (files_stay_empty L2_c _ 0%nat _ _
              (session_after_reachable _ 0 _ _ HA) HB
              (list_elem_of_lookup_2 _ _ _ HC)) as (H1 & H2 & _).
  by split.
Defined.

(** ** Parent and child *)




Lemma same_frame_add_file (d : Dir) (f : File) : same_frame d (add_file d f).
Proof. by repeat split. Qed.

Lemma same_frame_del_file (d : Dir) (idx : Z) : same_frame d (del_file d idx).
Proof. by repeat split. Qed.

Lemma same_frame_alter_file (d : Dir) (idx : Z) (g : File -> File) :
  same_frame d (alter_file d idx g).
Proof. by repeat split. Qed.





(** ** Round trips *)

(** What [ls] prints. *)
Definition ls_text (prog : Program) (opt : option string) (m : Memory)
    (d : Dir) : string :=
  match prog with
  | linux_commands_c => listing linux_commands_c opt m d
  | L2_c =>
      if decide (d_subdir_count d = 0 ∧ d_file_count d = 0)
      then puts "ls: no entries"
      else listing L2_c opt m d
  end.

Lemma exec_ls (prog : Program) (fuel : nat) (s : Session) (a : addr)
    (d : Dir) (opt : option string) :
  cwd s = Some a -> cells (mem s) !! a = Some d -> wf_dir (mem s) d ->
  exec prog fuel s (Ls opt) = Ok (s, ls_text prog opt (mem s) d).
Proof.
  intros Hcwd Ha Hwf. destruct s as [m r cw]. simpl in *. subst cw.
  destruct prog; unfold exec; simpl mem; simpl cwd.
  - by rewrite (LC_ls_spec m a d opt Ha Hwf).
  - by rewrite (L2_ls_spec m a d opt Ha Hwf).
Qed.

Lemma ls_text_same (prog : Program) (opt : option string) (m m' : Memory)
    (d d' : Dir) :
  d_subdir_count d' = d_subdir_count d -> d_file_count d' = d_file_count d ->
  files_of d' = files_of d -> subdir_names m' d' = subdir_names m d ->
  ls_text prog opt m' d' = ls_text prog opt m d.
Proof.
  intros Hsc Hfc Hf Hs. unfold ls_text, listing. by rewrite Hsc, Hfc, Hf, Hs.
Qed.

(** X7.  [rm] undoes [touch]: in a reachable session, for a name [n] of at
    most 31 bytes that is not in use in the current directory, which has
    room for a file, [touch n] then [rm n] both succeed and leave the
    directory with the files it had, in the same order; its
    sub-directories, every other block, the root and the current directory
    are as before, so [ls] prints what it printed before. *)
Theorem touch_then_rm_restores_the_directory (prog : Program) (fuel : nat)
    (s : Session) (a : addr) (d : Dir) (n : string) :
  reachable prog s -> cwd s = Some a -> cells (mem s) !! a = Some d ->
  (String.length n <= 31)%nat -> ¬ taken (mem s) d n ->
  d_file_count d < MAX_FILES ->
  ∃ d2,
    run prog fuel s [Touch (Some n); Rm (Some n)]
    = Ok (mkSession (upd (mem s) a d2) (root s) (cwd s),
          file_created n +:+ file_removed n) ∧
    same_frame d d2 ∧ d_file_count d2 = d_file_count d ∧
    files_of d2 = files_of d ∧
    ∀ opt,
      exec prog fuel (mkSession (upd (mem s) a d2) (root s) (cwd s)) (Ls opt)
      = Ok (mkSession (upd (mem s) a d2) (root s) (cwd s),
            ls_text prog opt (mem s) d).
Proof.
  intros Hr Hcwd Ha Hshort Hfree Hroom.
  destruct (reachable_wf prog s Hr) as (Hm & _ & _).
  pose proof (proj1 Hm a d Ha) as Hwf.
  pose proof Hwf as [_ Hfc _ _ _].
  set (d1 := add_file d (new_file n)).
  set (s1 := mkSession (upd (mem s) a d1) (root s) (Some a)).
  assert (exec prog fuel s (Touch (Some n)) = Ok (s1, file_created n)) as Hex1
    by (by apply (exec_touch_ok prog fuel s a d)).
  assert (reachable prog s1) as Hr1 by (by eapply reach_step).
  destruct (reachable_wf prog s1 Hr1) as (Hm1 & _ & _).
  assert (cells (mem s1) !! a = Some d1) as Ha1 by apply lookup_insert_eq.
  pose proof (proj1 Hm1 a d1 Ha1) as Hwf1.
  assert (files_of d1 = files_of d ++ [new_file n]) as Hf1
    by (by apply (files_of_add_file (mem s))).
  assert (n ∈ file_names d1) as Hin1.
  { unfold file_names. rewrite Hf1, fmap_app. apply elem_of_app. right.
    simpl. rewrite strncpy_short by done. by apply list_elem_of_singleton. }
  assert (file_index d1 n = d_file_count d) as Hidx.
  { unfold file_index. rewrite Hf1. rewrite index_in_app_last.
    - rewrite (files_of_length (mem s)) by done. lia.
    - apply Forall_forall. intros f Hf Hn. apply Hfree. left.
      unfold file_names. apply list_elem_of_fmap. by exists f.
    - simpl. by apply strncpy_short. }
  set (d2 := del_file d1 (file_index d1 n)).
  assert (files_of d2 = files_of d) as Hf2.
  { unfold d2. rewrite (files_of_del_file (mem s1)); [|done|].
    - rewrite Hf1, Hidx. rewrite <- (files_of_length (mem s) d) by done.
      rewrite delete_take_drop.
      rewrite take_app_length.
      rewrite drop_ge by (rewrite length_app; simpl; lia).
      apply app_nil_r.
    - rewrite Hidx. unfold d1. simpl. lia. }
  assert (d_file_count d2 = d_file_count d) as Hfc2
    by (unfold d2, d1; simpl; lia).
  assert (same_frame d d2) as Hfr by (by repeat split).
  exists d2. split; [|split; [done|split; [done|split; [done|]]]].
  - rewrite (run_two prog fuel s s1
               (mkSession (upd (mem s) a d2) (root s) (cwd s)) _ _
               (file_created n) (file_removed n) Hex1); [done|].
    rewrite (exec_rm_ok prog fuel s1 a d1 n eq_refl Ha1 Hwf1 Hin1).
    unfold s1. simpl mem. simpl root. rewrite upd_upd. fold d2.
    by rewrite Hcwd.
  - intros opt.
    assert (wf_mem (upd (mem s) a d2)) as Hm2.
    { apply (wf_mem_upd (mem s) a d); try done.
      - unfold d2. apply (shape_del_file (mem s1)); [done|].
        rewrite Hidx. unfold d1. simpl. lia.
      - lia. }
    rewrite (exec_ls prog fuel _ a d2 opt); [|by rewrite Hcwd| |].
    + simpl mem. f_equal. f_equal.
      apply ls_text_same; [done|done|done|].
      by apply subdir_names_upd.
    + apply lookup_insert_eq.
    + apply (proj1 Hm2 a d2). apply lookup_insert_eq.
Qed.

(** X7 in a directory that holds two files and a sub-directory. *)
Lemma touch_then_rm_restores_the_directory_witness :
  ∃ (s : Session) (d d2 : Dir),
    session_after L2_c 2
      [Touch (Some "f"); Mkdir (Some "a"); Touch (Some "g")] = Ok s ∧
    cells (mem s) !! 0%nat = Some d ∧
    run L2_c 0 s [Touch (Some "h"); Rm (Some "h")]
    = Ok (mkSession (upd (mem s) 0%nat d2) (root s) (cwd s),
          file_created "h" +:+ file_removed "h") ∧
    files_of d2 = files_of d.
Proof.
  eexists _, _.
  match goal with |- ∃ d2, ?A ∧ ?B ∧ _ =>
    assert A as HA by (vm_compute; reflexivity);
    assert B as HB by (vm_compute; reflexivity)
  end.
  destruct (touch_then_rm_restores_the_directory L2_c 0 _ 0%nat _ "h"
              (session_after_reachable _ 1 _ _ HA) eq_refl HB)
    as (d2 & H1 & _ & _ & H2 & _).
  - simpl. lia.
  - apply (bool_decide_unpack _). vm_compute. exact I.
  - vm_compute. reflexivity.
  - exists d2. by repeat split.
Defined.

Lemma index_in_first {A : Type} (P : A -> Prop) `{!∀ x, Decision (P x)}
    (l : list A) (i : nat) (x : A) :
  l !! i = Some x -> P x ->
  (∀ j y, l !! j = Some y -> (j < i)%nat -> ¬ P y) ->
  index_in P l = Z.of_nat i.
Proof.
  intros Hi Hx Hbefore. unfold index_in.
  destruct (list_find P l) as [[k y]|] eqn:E.
  - apply list_find_Some in E as (Hk & Hy & Hlt). f_equal.
    destruct (decide (k < i)%nat) as [Hki|Hki].
    { by destruct (Hbefore k y Hk Hki). }
    destruct (decide (i < k)%nat) as [Hik|Hik]; [|lia].
    by destruct (Hlt i x Hi Hik).
  - apply (list_find_None P l) in E. rewrite Forall_forall in E.
    destruct (E x); [by eapply list_elem_of_lookup_2|done].
Qed.

(** X8.  [mv] back undoes [mv]: in a session reached by commands whose
    names fit the field, for a file [old] of the current directory and a
    name [new] of at most 31 bytes that is not in use there, [mv old new]
    then [mv new old] both succeed and lead back to the very session they
    started from. *)
Theorem mv_there_and_back (prog : Program) (fuel : nat) (s : Session)
    (a : addr) (d : Dir) (old new : string) :
  reachable_short prog s -> cwd s = Some a -> cells (mem s) !! a = Some d ->
  old ∈ file_names d -> (String.length new <= 31)%nat ->
  ¬ taken (mem s) d new ->
  run prog fuel s [Mv (Some old) (Some new); Mv (Some new) (Some old)]
  = Ok (s, mv_done prog old new +:+ mv_done prog new old).
Proof.
  intros Hrs Hcwd Ha Hold Hshort Hfree.
  pose proof (reachable_short_reachable prog s Hrs) as Hr.
  pose proof (reachable_short_unique prog s Hrs a d Ha) as Hnd.
  destruct (reachable_wf prog s Hr) as (Hm & _ & _).
  pose proof (proj1 Hm a d Ha) as Hwf.
  destruct (reachable_names_short prog s Hr a d Ha) as [_ Hlen].
  assert ((String.length old <= 31)%nat) as Hold_short
    by (rewrite Forall_forall in Hlen; by apply Hlen).
  destruct (file_index_found (mem s) d old Hwf Hold) as (Hidx & f & Hf & Hfn).
  set (i := Z.to_nat (file_index d old)) in *.
  assert (files_of d !! i = Some f) as Hfi.
  { unfold files_of. rewrite lookup_take_lt by lia. done. }
  assert (file_names d !! i = Some old) as Hni.
  { unfold file_names. rewrite list_lookup_fmap, Hfi. simpl. by rewrite Hfn. }
  assert (new ≠ old) as Hne.
  { intros ->. apply Hfree. by left. }
  set (d1 := alter_file d (file_index d old)
               (λ f, set_f_name f (strncpy new (NAME_LEN - 1)))).
  set (s1 := mkSession (upd (mem s) a d1) (root s) (Some a)).
  assert (exec prog fuel s (Mv (Some old) (Some new))
          = Ok (s1, mv_done prog old new)) as Hex1
    by (by apply (exec_mv_ok prog fuel s a d)).
  assert (reachable prog s1) as Hr1 by (by eapply reach_step).
  destruct (reachable_wf prog s1 Hr1) as (Hm1 & _ & _).
  assert (cells (mem s1) !! a = Some d1) as Ha1 by apply lookup_insert_eq.
  pose proof (proj1 Hm1 a d1 Ha1) as Hwf1.
  assert (file_names d1 = alter (λ _, new) i (file_names d)) as Hn1.
  { unfold d1. rewrite (file_names_alter_name (mem s)) by done.
    by rewrite strncpy_short. }
  apply NoDup_app in Hnd as (Hndf & Hdisj & _).
  assert (new ∈ file_names d1) as Hin1.
  { rewrite Hn1. apply (list_elem_of_lookup_2 _ i).
    by rewrite list_lookup_alter_eq, Hni. }
  assert (¬ taken (mem s1) d1 old) as Hfree1.
  { intros [Hin|Hin].
    - rewrite Hn1 in Hin. apply list_elem_of_lookup in Hin as [j Hj].
      destruct (decide (i = j)) as [<-|Hij].
      + rewrite list_lookup_alter_eq, Hni in Hj. simpl in Hj. congruence.
      + rewrite list_lookup_alter_ne in Hj by done.
        apply Hij. by apply (NoDup_lookup _ i j old Hndf).
    - unfold s1, d1 in Hin. simpl mem in Hin.
      rewrite (subdir_names_upd (mem s) a d) in Hin;
        [|done|done|apply same_frame_alter_file].
      by apply (Hdisj old). }
  assert (file_index d1 new = file_index d old) as Hidx1.
  { unfold file_index at 1. unfold d1. rewrite files_of_alter_file.
    fold i. rewrite (index_in_first _ _ i (set_f_name f new)).
    - lia.
    - rewrite list_lookup_alter_eq, Hfi. simpl.
      by rewrite strncpy_short.
    - done.
    - intros j y Hj Hlt Hy. rewrite list_lookup_alter_ne in Hj by lia.
      apply Hfree. left. unfold file_names. apply list_elem_of_fmap.
      exists y. split; [done|]. by eapply list_elem_of_lookup_2. }
  assert (alter_file d1 (file_index d1 new)
            (λ f, set_f_name f (strncpy old (NAME_LEN - 1))) = d) as Hback.
  { rewrite Hidx1. unfold d1, alter_file. fold i. simpl.
    assert (alter (λ f0, set_f_name f0 (strncpy old (NAME_LEN - 1))) i
              (alter (λ f0, set_f_name f0 (strncpy new (NAME_LEN - 1))) i
                 (d_files d)) = d_files d) as ->.
    { apply list_eq. intros j. destruct (decide (i = j)) as [<-|Hij].
      - rewrite !list_lookup_alter_eq, Hf. simpl. f_equal.
        rewrite !strncpy_short by done. rewrite <- Hfn. by destruct f.
      - by rewrite !list_lookup_alter_ne. }
    by destruct d. }
  rewrite (run_two prog fuel s s1 s _ _ (mv_done prog old new)
             (mv_done prog new old) Hex1); [done|].
  rewrite (exec_mv_ok prog fuel s1 a d1 new old eq_refl Ha1 Hwf1 Hin1 Hfree1).
  rewrite Hback. unfold s1. simpl mem. simpl root.
  rewrite upd_upd, (upd_same _ _ _ Ha). destruct s as [m r cw].
  simpl in *. by rewrite Hcwd.
Qed.

(** X8 for a file between two others. *)
Lemma mv_there_and_back_witness :
  ∃ (s : Session) (d : Dir),
    session_after linux_commands_c 1
      [Touch (Some "e"); Touch (Some "f"); Touch (Some "g")] = Ok s ∧
    cells (mem s) !! 0%nat = Some d ∧
    run linux_commands_c 0 s
      [Mv (Some "f") (Some "h"); Mv (Some "h") (Some "f")]
    = Ok (s, mv_done linux_commands_c "f" "h"
             +:+ mv_done linux_commands_c "h" "f").
Proof.
  eexists _, _.
  match goal with |- ?A ∧ ?B ∧ _ =>
    assert A as HA by (vm_compute; reflexivity);
    assert B as HB by (vm_compute; reflexivity)
  end.
  split; [exact HA|]. split; [exact HB|].
  assert (Forall short_cmd
            [Touch (Some "e"); Touch (Some "f"); Touch (Some "g")]) as Hsh
    by (repeat constructor; simpl; lia).
  apply (mv_there_and_back linux_commands_c 0 _ 0%nat _ "f" "h"
           (session_after_short _ 0 _ _ Hsh HA) eq_refl HB);
    [ apply (bool_decide_unpack _); vm_compute; exact I
    | simpl; lia
    | apply (bool_decide_unpack _); vm_compute; exact I ].
Defined.

(** ** Errors and what the commands leave alone *)

(** What [mv] and [chmod] print for a source that is not a file of the
    directory; linux-commands.c has no [chmod] at all. *)
Definition mv_missing (prog : Program) (src : string) : string :=
  match prog with
  | linux_commands_c => puts "source not found"
  | L2_c => "mv: '" +:+ src +:+ "' not found" +:+ nl
  end.

Definition chmod_missing (prog : Program) (n : string) : string :=
  match prog with
  | linux_commands_c => puts "command not found"
  | L2_c => "chmod: '" +:+ n +:+ "' not found" +:+ nl
  end.

(** X9.  In a reachable session, for a name that no file of the current
    directory carries (it may be the name of a sub-directory): [rm], [mv]
    from that name and [chmod] report it and leave the session as it is;
    so none of them removes, renames or changes a directory. *)
Theorem missing_file_is_reported (prog : Program) (fuel : nat) (s : Session)
    (a : addr) (d : Dir) (n : string) :
  reachable prog s -> cwd s = Some a -> cells (mem s) !! a = Some d ->
  n ∉ file_names d ->
  exec prog fuel s (Rm (Some n)) = Ok (s, puts "no such file") ∧
  (∀ dst, exec prog fuel s (Mv (Some n) (Some dst))
          = Ok (s, mv_missing prog n)) ∧
  (∀ mode, exec prog fuel s (Chmod (Some mode) (Some n))
           = Ok (s, chmod_missing prog n)).
Proof.
  intros Hr Hcwd Ha Hn.
  destruct (reachable_wf prog s Hr) as (Hm & _ & _).
  pose proof (proj1 Hm a d Ha) as Hwf.
  split; [by apply (exec_rm_missing prog fuel s a d)|].
  destruct s as [m r cw]. simpl in *. subst cw.
  split; [intros dst|intros mode];
    destruct prog; unfold exec, keep_cwd; simpl mem; simpl cwd; simpl root;
    rewrite ?(LC_mv_spec m a d n dst Ha Hwf),
            ?(L2_mv_spec m a d n dst Ha Hwf),
            ?(L2_chmod_spec m a d mode n Ha Hwf);
    rewrite ?decide_False by done; done.
Qed.

(** X9 for the name of a sub-directory. *)
Lemma missing_file_is_reported_witness :
  ∃ (s : Session) (d : Dir),
    session_after L2_c 2 [Mkdir (Some "a"); Touch (Some "f")] = Ok s ∧
    cells (mem s) !! 0%nat = Some d ∧
    exec L2_c 0 s (Rm (Some "a")) = Ok (s, puts "no such file") ∧
    exec L2_c 0 s (Mv (Some "a") (Some "b"))
    = Ok (s, mv_missing L2_c "a").
Proof.
  eexists _, _.
  match goal with |- ?A ∧ ?B ∧ _ =>
    assert A as HA by (vm_compute; reflexivity);
    assert B as HB by (vm_compute; reflexivity)
  end.
  split; [exact HA|]. split; [exact HB|].
  destruct (missing_file_is_reported L2_c 0 _ 0%nat _ "a"
              (session_after_reachable _ 1 _ _ HA) eq_refl HB)
    as (H1 & H2 & _).
  - apply (bool_decide_unpack _). vm_compute. exact I.
  - split; [exact H1|apply H2].
Defined.

Lemma effect_frame (prog : Program) (m : Memory) (a : addr) (d : Dir)
    (c : Cmd) :
  (∀ n, c ≠ Mkdir (Some n)) ->
  effect prog m a d c = m ∨
  ∃ d', effect prog m a d c = upd m a d' ∧ same_frame d d'.
Proof.
  intros Hc.
  destruct c as [[n|]|o|[n|]|[n1|] [n2|]|[n|]|[n|]| |[n1|] [n2|]];
    simpl; try (by left).
  - case_decide; [by left|right]. eexists. split; [done|].
    apply same_frame_add_file.
  - case_decide; [right|by left]. eexists. split; [done|].
    apply same_frame_del_file.
  - case_decide; [right|by left]. eexists. split; [done|].
    apply same_frame_alter_file.
  - by destruct (Hc n).
  - destruct prog; [by left|]. case_decide; [right|by left].
    eexists. split; [done|]. apply same_frame_alter_file.
Qed.

Lemma same_frame_refl (d : Dir) : same_frame d d.
Proof. by repeat split. Qed.

(** X10.  Only [mkdir] changes the tree.  Every other command, in a
    reachable session, leaves the root, the pool and the set of live
    blocks as they are; every block keeps its name, its parent and its
    sub-directories, and every block but the current directory is left
    untouched altogether.  And only [cd] changes the current directory. *)
Theorem only_mkdir_changes_the_tree (prog : Program) (fuel : nat)
    (s s' : Session) (c : Cmd) (out : string) :
  reachable prog s -> exec prog fuel s c = Ok (s', out) ->
  (∀ n, c ≠ Mkdir (Some n)) ->
  root s' = root s ∧ pool (mem s') = pool (mem s) ∧
  ((∀ arg, c ≠ Cd (Some arg)) -> cwd s' = cwd s) ∧
  ∀ x,
    match cells (mem s) !! x with
    | None => cells (mem s') !! x = None
    | Some dx =>
        ∃ dx', cells (mem s') !! x = Some dx' ∧ same_frame dx dx' ∧
               (cwd s ≠ Some x -> dx' = dx)
    end.
Proof.
  intros Hr Hex Hc.
  destruct (reachable_cwd prog s Hr) as (a & d & Hcwd & Ha & Hwf).
  destruct (exec_effect prog fuel s s' c out a d Hcwd Ha Hwf Hex)
    as (Hmem & Hroot & Hcwd').
  split; [done|]. rewrite Hmem.
  assert (∀ x, match cells (mem s) !! x with
               | None => cells (mem s) !! x = None
               | Some dx =>
                   ∃ dx', cells (mem s) !! x = Some dx' ∧ same_frame dx dx' ∧
                          (cwd s ≠ Some x -> dx' = dx)
               end) as Hsame.
  { intros x. destruct (cells (mem s) !! x) as [dx|] eqn:Hx; [|done].
    exists dx. split; [done|]. split; [apply same_frame_refl|done]. }
  split; [|split].
  - destruct (effect_frame prog (mem s) a d c Hc) as [->|(d' & -> & _)]; done.
  - intros Hcd. rewrite Hcwd'. destruct c as [| | | | |[arg|]| |]; try done.
    by destruct (Hcd arg).
  - destruct (effect_frame prog (mem s) a d c Hc) as [->|(d' & -> & Hfr)];
      [done|].
    intros x. simpl. destruct (decide (a = x)) as [<-|Hne].
    + rewrite Ha, lookup_insert_eq. exists d'. split; [done|].
      split; [done|]. intros H. by destruct H.
    + rewrite lookup_insert_ne by done. apply Hsame.
Qed.

(** X10 for [rm] in a sub-directory: the root block is left untouched. *)
Lemma only_mkdir_changes_the_tree_witness :
  ∃ (s s' : Session) (out : string),
    session_after linux_commands_c 2
      [Touch (Some "f"); Mkdir (Some "a"); Cd (Some "a"); Touch (Some "g")]
    = Ok s ∧
    exec linux_commands_c 0 s (Rm (Some "g")) = Ok (s', out) ∧
    root s' = root s ∧ cwd s' = cwd s ∧
    cells (mem s') !! 0%nat = cells (mem s) !! 0%nat.
Proof.
  eexists _, _, _.
  match goal with |- ?A ∧ ?B ∧ _ =>
    assert A as HA by (vm_compute; reflexivity);
    assert B as HB by (vm_compute; reflexivity)
  end.
  split; [exact HA|]. split; [exact HB|].
  destruct (only_mkdir_changes_the_tree linux_commands_c 0 _ _ _ _
              (session_after_reachable _ 1 _ _ HA) HB)
    as (H1 & _ & H2 & H3); [done|].
  split; [exact H1|]. split; [by apply H2|].
  specialize (H3 0%nat). vm_compute. reflexivity.
Defined.

(** What [mkdir] prints when [malloc] fails. *)
Definition mkdir_no_memory (prog : Program) : string :=
  match prog with
  | linux_commands_c => puts "memory error"
  | L2_c => puts "mkdir: memory error"
  end.

(** X11.  [mkdir] is all or nothing.  In a reachable session it tests, in
    this order, the room for a sub-directory, the name and the result of
    [malloc]; when a test fails it prints the message of that test and
    leaves the session as it is.  Otherwise exactly one block is added to
    the heap, at an address that was not live: it carries the name cut to
    31 bytes, the current directory as its parent and no entry, and the
    current directory lists it as its last sub-directory. *)
Theorem mkdir_is_all_or_nothing (prog : Program) (fuel : nat) (s : Session)
    (a : addr) (d : Dir) (n : string) :
  reachable prog s -> cwd s = Some a -> cells (mem s) !! a = Some d ->
  exec prog fuel s (Mkdir (Some n))
  = Ok (if decide (d_subdir_count d >= MAX_SUBDIRS)
        then (s, puts "subdir limit reached")
        else if decide (taken (mem s) d n)
        then (s, mkdir_refusal prog d n)
        else match pool (mem s) with
             | [] => (s, mkdir_no_memory prog)
             | b :: rest =>
                 (mkSession (mem_mkdir (mem s) a d n b rest) (root s) (cwd s),
                  created n)
             end) ∧
  ∀ b rest, pool (mem s) = b :: rest ->
    ∃ x d' dx,
      cells (mem s) !! x = None ∧
      cells (mem_mkdir (mem s) a d n b rest)
      = <[a := d']> (<[x := dx]> (cells (mem s))) ∧
      d_name dx = str_take 31 n ∧ d_parent dx = Some a ∧
      d_file_count dx = 0 ∧ d_subdir_count dx = 0 ∧
      (d_subdir_count d < MAX_SUBDIRS ->
       children d' = children d ++ [Some x]) ∧
      files_of d' = files_of d ∧ d_name d' = d_name d ∧
      d_parent d' = d_parent d.
Proof.
  intros Hr Hcwd Ha.
  destruct (reachable_wf prog s Hr) as (Hm & _ & _).
  pose proof (proj1 Hm a d Ha) as Hwf.
  split.
  - destruct s as [m r cw]. simpl in *. subst cw.
    destruct prog; unfold exec, keep_cwd; simpl mem; simpl cwd; simpl root;
      rewrite ?(LC_mkdir_spec m a d n Ha Hwf),
              ?(L2_mkdir_spec m a d n Ha Hwf);
      unfold mkdir_refusal;
      repeat case_decide; try done; try lia;
      destruct (pool m); done.
  - intros b rest Hpool.
    exists (fresh (dom (cells (mem s)))), (add_subdir d (Some (fresh (dom (cells (mem s)))))),
           (init_dir b n (Some a)).
    split; [apply not_elem_of_dom, is_fresh|].
    split; [done|]. split; [done|]. split; [done|]. split; [done|].
    split; [done|]. split; [|done].
    intros Hroom. by apply (children_add_subdir (mem s)).
Qed.

(** X11 when [malloc] has no block left: the session goes on unchanged. *)
Lemma mkdir_is_all_or_nothing_witness :
  ∃ (s : Session) (d : Dir),
    session_after L2_c 1 [Touch (Some "f")] = Ok s ∧
    cells (mem s) !! 0%nat = Some d ∧
    exec L2_c 0 s (Mkdir (Some "a")) = Ok (s, puts "mkdir: memory error").
Proof.
  eexists _, _.
  match goal with |- ?A ∧ ?B ∧ _ =>
    assert A as HA by (vm_compute; reflexivity);
    assert B as HB by (vm_compute; reflexivity)
  end.
  split; [exact HA|]. split; [exact HB|].
  rewrite (proj1 (mkdir_is_all_or_nothing L2_c 0 _ 0%nat _ "a"
                    (session_after_reachable _ 0 _ _ HA) eq_refl HB)).
  vm_compute. reflexivity.
Defined.

(** What [chmod] of L2.c prints when it has changed the permissions. *)
Definition chmod_done (mode n : string) : string :=
  "permissions of '" +:+ n +:+ "' changed to '" +:+ mode +:+ "'" +:+ nl.

(** X12.  [chmod] of L2.c accepts any text as the mode.  For a file of
    the current directory, in a reachable session, it stores the first 7
    bytes of the mode as the permission text of the first file of that
    name and changes nothing else: the names, sizes and contents of the
    files, their order and number, and everything outside the files of the
    current directory stay as they are.  The message quotes the mode as it
    was given. *)
Theorem chmod_changes_one_permission (fuel : nat) (s : Session) (a : addr)
    (d : Dir) (mode n : string) :
  reachable L2_c s -> cwd s = Some a -> cells (mem s) !! a = Some d ->
  n ∈ file_names d ->
  ∃ d',
    exec L2_c fuel s (Chmod (Some mode) (Some n))
    = Ok (mkSession (upd (mem s) a d') (root s) (cwd s), chmod_done mode n) ∧
    same_frame d d' ∧ d_file_count d' = d_file_count d ∧
    files_of d'
    = alter (λ f, set_f_perm f (str_take 7 mode))
            (Z.to_nat (file_index d n)) (files_of d) ∧
    file_names d' = file_names d.
Proof.
  intros Hr Hcwd Ha Hn.
  destruct (reachable_wf L2_c s Hr) as (Hm & _ & _).
  pose proof (proj1 Hm a d Ha) as Hwf.
  eexists. split; [|split; [apply same_frame_alter_file|split; [done|split]]].
  - destruct s as [m r cw]. cbn [mem cwd root] in *. subst cw.
    unfold exec, keep_cwd. cbn [mem cwd root].
    rewrite (L2_chmod_spec m a d mode n Ha Hwf).
    rewrite decide_True by done. done.
  - by rewrite files_of_alter_file.
  - by apply (file_names_alter_perm (mem s)).
Qed.

(** X12 with a mode of 9 bytes: 7 are stored. *)
Lemma chmod_changes_one_permission_witness :
  ∃ (s : Session) (d d' : Dir),
    session_after L2_c 1 [Touch (Some "f")] = Ok s ∧
    cells (mem s) !! 0%nat = Some d ∧
    exec L2_c 0 s (Chmod (Some "rwxrwxrwx") (Some "f"))
    = Ok (mkSession (upd (mem s) 0%nat d') (root s) (cwd s),
          chmod_done "rwxrwxrwx" "f") ∧
    f_perm <$> files_of d' = ["rwxrwxr"].
Proof.
  eexists _, _.
  match goal with |- ∃ d', ?A ∧ ?B ∧ _ =>
    assert A as HA by (vm_compute; reflexivity);
    assert B as HB by (vm_compute; reflexivity)
  end.
  destruct (chmod_changes_one_permission 0 _ 0%nat _ "rwxrwxrwx" "f"
              (session_after_reachable _ 0 _ _ HA) eq_refl HB)
    as (d' & H1 & _ & _ & H2 & _).
  - apply (bool_decide_unpack _). vm_compute. exact I.
  - exists d'. split; [exact HA|]. split; [exact HB|]. split; [exact H1|].
    rewrite H2. vm_compute. reflexivity.
Defined.

(** ** The shape of the heap *)

(** X13.  In every reachable session the live blocks form one tree below
    the root: following the sub-directory pointers in use from the root
    reaches every live block, each exactly once, so no directory has two
    parents, no directory is its own ancestor, and no block is live
    without being reachable from the root. *)
Theorem directories_form_a_tree (prog : Program) (s : Session) :
  reachable prog s ->
  ∃ t, tree_at (mem s) (root s) t ∧ NoDup (postorder t) ∧
       ∀ x, is_Some (cells (mem s) !! x) ↔ x ∈ postorder t.
Proof.
  intros Hr. destruct (reachable_tree prog s Hr) as (t & Ht & Hnd & Hall).
  exists t. split; [done|]. split; [done|]. intros x. split; [apply Hall|].
  by apply (tree_at_live (mem s) t (root s)).
Qed.

(** X13 after seven directories were made on three levels. *)
Lemma directories_form_a_tree_witness :
  ∃ (s : Session) (t : tree),
    session_after linux_commands_c 7 seven_dirs = Ok s ∧
    tree_at (mem s) (root s) t ∧ NoDup (postorder t).
Proof.
  eexists.
  match goal with |- ∃ t, ?A ∧ _ =>
    assert A as HA by (vm_compute; reflexivity)
  end.
  destruct (directories_form_a_tree linux_commands_c _
              (session_after_reachable _ 6 _ _ HA)) as (t & Ht & Hnd & _).
  exists t. by repeat split.
Defined.

(** * The command loop of [main] *)

(** ** Reading and splitting a line *)

(** [stdin] is the string of the bytes not yet read. *)

Definition NUL : Ascii.ascii := Ascii.ascii_of_nat 0.
Definition LF : Ascii.ascii := Ascii.ascii_of_nat 10.
Definition SPACE : Ascii.ascii := Ascii.ascii_of_nat 32.
Definition TAB : Ascii.ascii := Ascii.ascii_of_nat 9.

(** The C string a buffer holds: its bytes up to the first NUL. *)
Fixpoint c_str (bytes : string) : string :=
  match bytes with
  | EmptyString => EmptyString
  | String c rest => if Ascii.eqb c NUL then EmptyString
                     else String c (c_str rest)
  end.

(** The bytes [fgets] moves into a buffer with room for [n] of them: it
    stops behind a newline, at the end of the input, or when the buffer
    is full. *)
Fixpoint fgets_bytes (n : nat) (input : string) : string * string :=
  match n, input with
  | S n', String c rest =>
      if Ascii.eqb c LF then (String c EmptyString, rest)
      else let '(l, r) := fgets_bytes n' rest in (String c l, r)
  | _, _ => (EmptyString, input)
  end.

(** [fgets(line, size, stdin)]: [None] is the [NULL] it returns at the end
    of the input; otherwise the line as a C string and the input left. *)
Definition fgets (size : Z) (input : string) : option (string * string) :=
  match input with
  | EmptyString => None
  | _ =>
      let '(bytes, rest) := fgets_bytes (Z.to_nat (size - 1)) input in
      Some (c_str bytes, rest)
  end.

(** [trim_newline], the same in both programs. *)
Definition trim_newline (s : string) : string :=
  let n := String.length s in
  if bool_decide (0 < n)%nat
     && bool_decide (String.get (n - 1) s = Some LF)
  then str_take (n - 1) s
  else s.

(** [strtok]: the state it keeps between calls is the text behind the
    last token, so [strtok(NULL, delims)] is [strtok] on that text. *)
Fixpoint is_delim (delims : string) (c : Ascii.ascii) : bool :=
  match delims with
  | EmptyString => false
  | String x delims' => Ascii.eqb c x || is_delim delims' c
  end.

Fixpoint skip_delims (delims : string) (s : string) : string :=
  match s with
  | EmptyString => EmptyString
  | String c s' => if is_delim delims c then skip_delims delims s' else s
  end.

(** The token at the head of [s] and the text behind the delimiter that
    ends it. *)
Fixpoint token_end (delims : string) (s : string) : string * string :=
  match s with
  | EmptyString => (EmptyString, EmptyString)
  | String c s' =>
      if is_delim delims c then (EmptyString, s')
      else let '(t, r) := token_end delims s' in (String c t, r)
  end.

Definition strtok (delims : string) (s : string) : option string * string :=
  match skip_delims delims s with
  | EmptyString => (None, EmptyString)
  | s' => let '(t, r) := token_end delims s' in (Some t, r)
  end.

(** ** One round *)

(** The delimiters each program passes to [strtok]. *)
Definition delimiters (prog : Program) : string :=
  match prog with
  | linux_commands_c => String SPACE EmptyString
  | L2_c => String SPACE (String TAB EmptyString)
  end.

(** The prompt: linux-commands.c prints
    [cwd == root ? "/" : cwd->name], L2.c has two [printf]. *)
Definition prompt (prog : Program) (s : Session) : res string :=
  match prog with
  | linux_commands_c =>
      name ← (if bool_decide (cwd s = root s) then Ok "/"
              else d ← load (mem s) (cwd s); Ok (d_name d));
      Ok ("pseudo-linux:" +:+ name +:+ "> ")
  | L2_c =>
      if bool_decide (cwd s = root s) then Ok "pseudo-linux:/> "
      else d ← load (mem s) (cwd s);
           Ok ("pseudo-linux:" +:+ d_name d +:+ "/> ")
  end.

(** [show_commands_jp] of L2.c *)
Definition show_commands_jp : string :=
  puts "使用できるコマンド:" +:+
  puts " touch <name>    - ファイル作成" +:+
  puts " ls [-l]         - 一覧表示" +:+
  puts " rm <name>       - ファイル削除" +:+
  puts " mv <old> <new>  - ファイルをリネーム" +:+
  puts " chmod <mode> <file> - パーミッション変更" +:+
  puts " mkdir <name>    - ディレクトリ作成" +:+
  puts " cd <dir>        - ディレクトリ移動 (/, .. 対応)" +:+
  puts " pwd / pwt       - 現在地表示" +:+
  puts " exit            - 終了".

(** The test L2.c makes on the whole line before it splits it. *)
Definition asks_for_list (prog : Program) (line : string) : bool :=
  match prog with
  | linux_commands_c => false
  | L2_c => streq line "コマンドリスト" || streq line "コマンド リスト"
  end.

(** What the chain of [strcmp] tests selects: leaving the loop, one of
    the command functions, or the last [else]. *)
Inductive Round :=
| Exit
| Run (c : Cmd)
| NotFound.

(** [cmd] and [arg] are the first two tokens, [saved] is the text behind
    them, from which [mv] (and [chmod]) take a third token. *)
Definition dispatch (prog : Program) (cmd : string) (arg : option string)
    (saved : string) : Round :=
  match prog with
  | linux_commands_c =>
      if streq cmd "exit" then Exit
      else if streq cmd "pwd" || streq cmd "pwt" then Run Pwd
      else if streq cmd "ls" then Run (Ls arg)
      else if streq cmd "touch" then Run (Touch arg)
      else if streq cmd "rm" then Run (Rm arg)
      else if streq cmd "mv"
      then Run (Mv arg (fst (strtok (delimiters linux_commands_c) saved)))
      else if streq cmd "mkdir" then Run (Mkdir arg)
      else if streq cmd "cd" then Run (Cd arg)
      else NotFound
  | L2_c =>
      if streq cmd "exit" then Exit
      else if streq cmd "touch" then Run (Touch arg)
      else if streq cmd "ls" then Run (Ls arg)
      else if streq cmd "rm" then Run (Rm arg)
      else if streq cmd "mv"
      then Run (Mv arg (fst (strtok (delimiters L2_c) saved)))
      else if streq cmd "chmod"
      then Run (Chmod arg (fst (strtok (delimiters L2_c) saved)))
      else if streq cmd "mkdir" then Run (Mkdir arg)
      else if streq cmd "cd" then Run (Cd arg)
      else if streq cmd "pwd" || streq cmd "pwt" then Run Pwd
      else NotFound
  end.

(** The body of [while (1)]: the session it leaves, what it prints, and
    the input left when the loop goes on ([None] when it breaks).
    linux-commands.c passes the first token to [strcmp] without a test:
    on a line without a token that is [strcmp(NULL, "exit")]. *)
Definition main_round (prog : Program) (fuel : nat) (s : Session)
    (input : string) : res (Session * string * option string) :=
  p ← prompt prog s;
  match fgets LINE_LEN input with
  | None =>
      Ok (s, p +:+ match prog with
                   | linux_commands_c => EmptyString
                   | L2_c => puts (nl +:+ "exit")
                   end, None)
  | Some (line, rest) =>
      let line := trim_newline line in
      if streq line EmptyString then Ok (s, p, Some rest)
      else if asks_for_list prog line
      then Ok (s, p +:+ show_commands_jp, Some rest)
      else
        let '(cmd, saved) := strtok (delimiters prog) line in
        let '(arg, saved) := strtok (delimiters prog) saved in
        match cmd with
        | None =>
            match prog with
            | linux_commands_c => Fault
            | L2_c => Ok (s, p, Some rest)
            end
        | Some cmd =>
            match dispatch prog cmd arg saved with
            | Exit => Ok (s, p, None)
            | Run c =>
                '(s', out) ← exec prog fuel s c;
                Ok (s', p +:+ out, Some rest)
            | NotFound => Ok (s, p +:+ puts "command not found", Some rest)
            end
        end
  end.

(** ** The program *)

(** The loop; [rounds] bounds the number of rounds. *)
Fixpoint main_loop (prog : Program) (rounds fuel : nat) (s : Session)
    (input : string) : res (Session * string) :=
  match rounds with
  | O => OutOfFuel
  | S rounds' =>
      '(s, out, next) ← main_round prog fuel s input;
      match next with
      | None => Ok (s, out)
      | Some rest =>
          '(s, out') ← main_loop prog rounds' fuel s rest;
          Ok (s, out +:+ out')
      end
  end.

(** [main]: the heap it leaves, what it has printed and its result.
    [fuel] bounds the walk of [pwd], [depth] the recursion of
    [free_dir]. *)
Definition main (prog : Program) (rounds fuel depth : nat) (m : Memory)
    (input : string) : res (Memory * string * Z) :=
  s ← start m;
  '(s, out) ← main_loop prog rounds fuel s input;
  '(m, _) ← free_dir depth (mem s) (root s);
  Ok (m, out, 0).

(** ** Facts about strings *)

Lemma str_app_cons (c : Ascii.ascii) (s t : string) :
  String c s +:+ t = String c (s +:+ t).
Proof. reflexivity. Qed.

Lemma str_app_nil_l (t : string) : "" +:+ t = t.
Proof. reflexivity. Qed.

Lemma str_length_app (s t : string) :
  String.length (s +:+ t) = (String.length s + String.length t)%nat.
Proof.
  induction s as [|c s IH]; [done|]. rewrite str_app_cons. simpl.
  by rewrite IH.
Qed.

Lemma str_take_app (s t : string) : str_take (String.length s) (s +:+ t) = s.
Proof.
  induction s as [|c s IH]; [by destruct t|]. rewrite str_app_cons. simpl.
  by rewrite IH.
Qed.

Lemma str_get_app (s : string) (c : Ascii.ascii) (t : string) :
  String.get (String.length s) (s +:+ String c t) = Some c.
Proof.
  induction s as [|x s IH]; [done|]. rewrite str_app_cons. simpl. exact IH.
Qed.

Lemma str_take_get (s : string) (c : Ascii.ascii) :
  (0 < String.length s)%nat ->
  String.get (String.length s - 1) s = Some c ->
  s = str_take (String.length s - 1) s +:+ String c "".
Proof.
  induction s as [|x s IH]; simpl; [lia|]. intros _.
  rewrite Nat.sub_0_r. destruct s as [|y s].
  - simpl. by intros [= ->].
  - intros Hget. simpl in *. rewrite Nat.sub_0_r in IH.
    rewrite str_app_cons. f_equal. apply IH; [lia|done].
Qed.

(** ** [trim_newline] *)

Lemma trim_newline_app (s : string) : trim_newline (s +:+ nl) = s.
Proof.
  unfold trim_newline. rewrite str_length_app. simpl.
  replace (String.length s + 1 - 1)%nat with (String.length s) by lia.
  rewrite bool_decide_eq_true_2 by lia.
  rewrite bool_decide_eq_true_2 by apply str_get_app.
  simpl. apply str_take_app.
Qed.

(** X14.  [trim_newline] removes one newline at the end of the line, and
    only that: a line that ends in a newline loses this one byte, every
    other line, the empty one included, is left as it is. *)
Theorem trim_newline_removes_one_newline (s : string) :
  trim_newline (s +:+ nl) = s ∧
  (trim_newline s = s ∨ s = trim_newline s +:+ nl).
Proof.
  split; [apply trim_newline_app|].
  unfold trim_newline.
  destruct (bool_decide (0 < String.length s)%nat) eqn:Hn; [|by left].
  destruct (bool_decide (String.get (String.length s - 1) s = Some LF))
    eqn:Hget; [|by left].
  right. simpl. apply bool_decide_eq_true in Hn, Hget.
  by apply str_take_get.
Qed.

(** ** Lines of words *)

(** A word: not empty, and free of the bytes that end a line, a C string
    or a token. *)
Fixpoint plain_chars (w : string) : bool :=
  match w with
  | EmptyString => true
  | String c w' =>
      negb (Ascii.eqb c NUL || Ascii.eqb c LF || Ascii.eqb c SPACE
            || Ascii.eqb c TAB)
      && plain_chars w'
  end.

Definition plain_word (w : string) : Prop :=
  w ≠ EmptyString ∧ plain_chars w = true.

Global Instance plain_word_dec (w : string) : Decision (plain_word w).
Proof. unfold plain_word. apply _. Defined.

(** The words separated by single spaces. *)
Fixpoint unwords (ws : list string) : string :=
  match ws with
  | [] => EmptyString
  | [w] => w
  | w :: ws' => w +:+ String SPACE (unwords ws')
  end.

(** Free of newline and NUL. *)
Fixpoint clean (s : string) : bool :=
  match s with
  | EmptyString => true
  | String c s' => negb (Ascii.eqb c NUL || Ascii.eqb c LF) && clean s'
  end.

Lemma clean_app (s t : string) : clean (s +:+ t) = clean s && clean t.
Proof.
  induction s as [|c s IH]; [done|]. rewrite str_app_cons. simpl.
  rewrite IH. by rewrite andb_assoc.
Qed.

Lemma plain_clean (w : string) : plain_chars w = true -> clean w = true.
Proof.
  induction w as [|c w IH]; [done|]. simpl.
  intros [Hc Hw]%andb_true_iff. rewrite (IH Hw), andb_true_r.
  apply negb_true_iff. apply negb_true_iff in Hc.
  apply orb_false_iff in Hc as [Hc _]. apply orb_false_iff in Hc as [Hc _].
  done.
Qed.

Lemma clean_unwords (ws : list string) :
  Forall plain_word ws -> clean (unwords ws) = true.
Proof.
  induction 1 as [|w ws [_ Hw] Hws IH]; [done|].
  destruct ws as [|w' ws]; [by apply plain_clean|].
  change (unwords (w :: w' :: ws))
    with (w +:+ String SPACE (unwords (w' :: ws))).
  rewrite clean_app, (plain_clean w Hw). simpl. exact IH.
Qed.

Lemma c_str_clean (s t : string) :
  clean s = true -> c_str (s +:+ t) = s +:+ c_str t.
Proof.
  induction s as [|c s IH]; [done|]. simpl.
  intros [Hc Hs]%andb_true_iff. apply negb_true_iff in Hc.
  apply orb_false_iff in Hc as [Hc _]. rewrite !str_app_cons. simpl.
  rewrite Hc. by rewrite IH.
Qed.

Lemma fgets_bytes_line (n : nat) (line rest : string) :
  clean line = true -> (String.length line < n)%nat ->
  fgets_bytes n (line +:+ nl +:+ rest) = (line +:+ nl, rest).
Proof.
  revert n. induction line as [|c line IH]; intros n Hc Hn.
  - destruct n as [|n]; [simpl in Hn; lia|]. done.
  - destruct n as [|n]; [simpl in Hn; lia|].
    simpl in Hc. apply andb_true_iff in Hc as [Hc Hl].
    apply negb_true_iff in Hc. apply orb_false_iff in Hc as [_ Hc].
    rewrite !str_app_cons. simpl. rewrite Hc.
    rewrite IH; [done|done|simpl in Hn; lia].
Qed.

(** A line of at most 126 bytes, free of newline and NUL, is read whole. *)
Lemma fgets_line (line rest : string) :
  clean line = true -> (String.length line <= 126)%nat ->
  fgets LINE_LEN (line +:+ nl +:+ rest) = Some (line +:+ nl, rest).
Proof.
  intros Hc Hn. unfold fgets.
  change (Z.to_nat (LINE_LEN - 1)) with 127%nat.
  rewrite fgets_bytes_line by (done || lia).
  rewrite c_str_clean by done. change (c_str nl) with nl.
  by destruct line.
Qed.

Lemma plain_not_delim (prog : Program) (c : Ascii.ascii) :
  negb (Ascii.eqb c NUL || Ascii.eqb c LF || Ascii.eqb c SPACE
        || Ascii.eqb c TAB) = true ->
  is_delim (delimiters prog) c = false.
Proof.
  intros H. apply negb_true_iff in H.
  apply orb_false_iff in H as [H Ht]. apply orb_false_iff in H as [_ Hs].
  destruct prog; simpl; by rewrite Hs, ?Ht.
Qed.

Lemma skip_delims_plain (prog : Program) (w t : string) :
  plain_word w ->
  skip_delims (delimiters prog) (w +:+ t) = w +:+ t.
Proof.
  intros [Hne Hw]. destruct w as [|c w]; [done|].
  simpl in Hw. apply andb_true_iff in Hw as [Hc _].
  rewrite str_app_cons. simpl. by rewrite (plain_not_delim prog c Hc).
Qed.

Lemma token_end_space (prog : Program) (w t : string) :
  plain_chars w = true ->
  token_end (delimiters prog) (w +:+ String SPACE t) = (w, t).
Proof.
  induction w as [|c w IH]; intros Hw.
  - rewrite str_app_nil_l. by destruct prog.
  - simpl in Hw. apply andb_true_iff in Hw as [Hc Hw].
    rewrite str_app_cons. simpl. rewrite (plain_not_delim prog c Hc).
    by rewrite (IH Hw).
Qed.

Lemma token_end_last (prog : Program) (w : string) :
  plain_chars w = true -> token_end (delimiters prog) w = (w, "").
Proof.
  induction w as [|c w IH]; intros Hw; [done|].
  simpl in Hw. apply andb_true_iff in Hw as [Hc Hw].
  simpl. rewrite (plain_not_delim prog c Hc). by rewrite (IH Hw).
Qed.

Lemma strtok_plain (prog : Program) (w t tok r : string) :
  plain_word w -> token_end (delimiters prog) (w +:+ t) = (tok, r) ->
  strtok (delimiters prog) (w +:+ t) = (Some tok, r).
Proof.
  intros Hw Htok. unfold strtok. rewrite (skip_delims_plain prog w t Hw).
  destruct w as [|c w]; [by destruct Hw|].
  rewrite str_app_cons in *. by rewrite Htok.
Qed.

(** [strtok] on words separated by single spaces: the first word, and the
    other words are what it keeps. *)
Lemma strtok_unwords (prog : Program) (ws : list string) :
  Forall plain_word ws ->
  strtok (delimiters prog) (unwords ws) = (head ws, unwords (tail ws)).
Proof.
  intros Hws. destruct ws as [|w ws]; [done|].
  apply Forall_cons in Hws as [Hw Hws].
  destruct ws as [|w' ws].
  - simpl unwords. rewrite <- (str_app_empty_r w) at 1.
    apply (strtok_plain prog w "" w "" Hw). rewrite str_app_empty_r.
    apply (token_end_last prog w (proj2 Hw)).
  - change (unwords (w :: w' :: ws))
      with (w +:+ String SPACE (unwords (w' :: ws))).
    apply (strtok_plain prog w _ w _ Hw).
    apply (token_end_space prog w _ (proj2 Hw)).
Qed.

(** What one round does with a line of words. *)
Lemma round_on_words (prog : Program) (fuel : nat) (s : Session)
    (w : string) (args : list string) (rest : string) :
  Forall plain_word (w :: args) ->
  (String.length (unwords (w :: args)) <= 126)%nat ->
  asks_for_list prog (unwords (w :: args)) = false ->
  main_round prog fuel s (unwords (w :: args) +:+ nl +:+ rest)
  = p ← prompt prog s;
    match dispatch prog w (head args) (unwords (tail args)) with
    | Exit => Ok (s, p, None)
    | Run c => '(s', out) ← exec prog fuel s c; Ok (s', p +:+ out, Some rest)
    | NotFound => Ok (s, p +:+ puts "command not found", Some rest)
    end.
Proof.
  intros Hws Hlen Hjp. unfold main_round.
  rewrite (fgets_line _ rest (clean_unwords _ Hws) Hlen).
  rewrite trim_newline_app.
  assert (streq (unwords (w :: args)) "" = false) as ->.
  { apply streq_false. apply Forall_cons in Hws as [[Hne _] _].
    destruct args; simpl; [done|]. by destruct w. }
  rewrite Hjp.
  rewrite (strtok_unwords prog (w :: args) Hws). simpl head. simpl tail.
  apply Forall_cons in Hws as [_ Hargs].
  rewrite (strtok_unwords prog args Hargs). done.
Qed.

(** ** Command lines *)

(** The line a user types for a command: the command word and the
    arguments that are present. *)
Definition words_of (c : Cmd) : list string :=
  match c with
  | Touch a => "touch" :: option_list a
  | Ls a => "ls" :: option_list a
  | Rm a => "rm" :: option_list a
  | Mv a b => "mv" :: option_list a ++ option_list b
  | Mkdir a => "mkdir" :: option_list a
  | Cd a => "cd" :: option_list a
  | Pwd => ["pwd"]
  | Chmod a b => "chmod" :: option_list a ++ option_list b
  end.

Definition command_line (c : Cmd) : string := unwords (words_of c).

(** The commands a line can stand for: the arguments are words, a second
    argument comes with a first one, and the line fits the buffer. *)
Definition typed (c : Cmd) : Prop :=
  Forall plain_word (words_of c) ∧
  (String.length (command_line c) <= 126)%nat ∧
  match c with
  | Mv None (Some _) | Chmod None (Some _) => False
  | _ => True
  end.

Global Instance typed_dec (c : Cmd) : Decision (typed c).
Proof.
  unfold typed. destruct c as [| | |[?|] [?|]| | | |[?|] [?|]]; apply _.
Defined.

Ltac strcmp_literals :=
  repeat match goal with
         | |- context [streq ?a ?b] =>
             first [ rewrite (proj2 (streq_false a b)) by discriminate
                   | rewrite (proj2 (streq_true a b)) by reflexivity ]
         end;
  cbn [orb andb].

Lemma command_line_is_no_list_request (prog : Program) (c : Cmd) :
  asks_for_list prog (command_line c) = false.
Proof.
  destruct prog; [done|]. unfold asks_for_list, command_line.
  apply orb_false_iff. rewrite !streq_false.
  destruct c as [[?|]|[?|]|[?|]|[?|] [?|]|[?|]|[?|]| |[?|] [?|]];
    split; discriminate.
Qed.

Lemma strtok_single (prog : Program) (b : string) :
  plain_word b -> strtok (delimiters prog) b = (Some b, "").
Proof. intros Hb. by apply (strtok_unwords prog [b]), Forall_singleton. Qed.

Lemma round_on_command (prog : Program) (fuel : nat)
    (s : Session) (c : Cmd) (rest : string) :
  typed c ->
  main_round prog fuel s (command_line c +:+ nl +:+ rest)
  = p ← prompt prog s;
    '(s', out) ← exec prog fuel s c;
    Ok (s', p +:+ out, Some rest).
Proof.
  intros (Hws & Hlen & Hargs). unfold command_line in *.
  destruct (words_of c) as [|w args] eqn:Hwords.
  { by destruct c. }
  rewrite (round_on_words prog fuel s w args rest Hws Hlen).
  2: { rewrite <- Hwords. apply command_line_is_no_list_request. }
  destruct (prompt prog s) as [p| |]; [|done|done]. cbn [mbind res_bind].
  rewrite Forall_forall in Hws.
  destruct c as [a|a|a|[a|] [b|]|a|a| |[a|] [b|]]; try done;
    simpl in Hwords; injection Hwords as <- <-;
    simpl head; simpl tail; simpl unwords;
    destruct prog; unfold dispatch; strcmp_literals;
    rewrite ?(strtok_single _ b) by (apply Hws; repeat constructor);
    try (by destruct a); done.
Qed.

(** X15.  A line made of a command word and its arguments, separated by
    single spaces, is one round of the loop: the prompt is printed, the
    line is read and split, and the command function of that word runs
    on the arguments, an argument that is not there being [NULL].
    linux-commands.c answers [chmod] with [command not found]. *)
Theorem command_line_runs_command (prog : Program) (fuel : nat)
    (s : Session) (c : Cmd) (rest : string) :
  typed c ->
  main_round prog fuel s (command_line c +:+ nl +:+ rest)
  = p ← prompt prog s;
    '(s', out) ← exec prog fuel s c;
    Ok (s', p +:+ out, Some rest).
Proof. apply round_on_command. Qed.

(** X15 for the first line of a session. *)
Lemma command_line_runs_command_witness :
  ∃ s0 s1 : Session,
    start (boot 1) = Ok s0 ∧
    main_round L2_c 0 s0 ("touch f" +:+ nl +:+ "ls")
    = Ok (s1, "pseudo-linux:/> " +:+ file_created "f", Some "ls").
Proof.
  eexists _, _.
  match goal with |- ?A ∧ _ =>
    assert A as HA by (vm_compute; reflexivity)
  end.
  split; [exact HA|].
  change ("touch f" +:+ nl +:+ "ls")
    with (command_line (Touch (Some "f")) +:+ nl +:+ "ls").
  rewrite command_line_runs_command.
  - vm_compute. reflexivity.
  - apply (bool_decide_unpack _). vm_compute. exact I.
Defined.

(** ** Scripts *)

(** The input that holds one line for each command. *)
Fixpoint script (cs : list Cmd) : string :=
  match cs with
  | [] => EmptyString
  | c :: cs' => command_line c +:+ nl +:+ script cs'
  end.

(** What the loop prints for a script that ends with [exit]: before each
    command the prompt of the session it runs in, then what the command
    prints, and the prompt before [exit]. *)
Fixpoint transcript (prog : Program) (fuel : nat) (s : Session)
    (cs : list Cmd) : res (Session * string) :=
  match cs with
  | [] => p ← prompt prog s; Ok (s, p)
  | c :: cs' =>
      p ← prompt prog s;
      '(s1, out) ← exec prog fuel s c;
      '(s2, out') ← transcript prog fuel s1 cs';
      Ok (s2, p +:+ out +:+ out')
  end.

Lemma round_on_exit (prog : Program) (fuel : nat) (s : Session) :
  main_round prog fuel s ("exit" +:+ nl)
  = p ← prompt prog s; Ok (s, p, None).
Proof.
  change (main_round prog fuel s ("exit" +:+ nl))
    with (main_round prog fuel s (unwords ["exit"] +:+ nl +:+ "")).
  rewrite (round_on_words prog fuel s "exit" [] "").
  - destruct (prompt prog s) as [p| |]; [|done|done]. cbn [mbind res_bind].
    by destruct prog.
  - by apply Forall_singleton.
  - simpl. lia.
  - by destruct prog.
Qed.

Lemma loop_on_script (prog : Program) (fuel : nat) (cs : list Cmd) :
  Forall typed cs ->
  ∀ rounds s, (length cs < rounds)%nat ->
    main_loop prog rounds fuel s (script cs +:+ "exit" +:+ nl)
    = transcript prog fuel s cs.
Proof.
  induction 1 as [|c cs Hc _ IH]; intros rounds s Hrounds.
  - destruct rounds as [|rounds]; [simpl in Hrounds; lia|].
    simpl script. rewrite str_app_nil_l. simpl main_loop.
    rewrite round_on_exit. simpl transcript.
    by destruct (prompt prog s).
  - destruct rounds as [|rounds]; [simpl in Hrounds; lia|].
    simpl script. rewrite !str_app_assoc. simpl main_loop.
    rewrite (round_on_command prog fuel s c _ Hc). simpl transcript.
    destruct (prompt prog s) as [p| |]; [|done|done]. cbn [mbind res_bind].
    destruct (exec prog fuel s c) as [[s1 out]| |]; [|done|done].
    cbn [mbind res_bind]. rewrite IH by (simpl in Hrounds; lia).
    destruct (transcript prog fuel s1 cs) as [[s2 out']| |]; [|done|done].
    cbn [mbind res_bind]. by rewrite str_app_assoc.
Qed.

Lemma transcript_run (prog : Program) (fuel : nat) (cs : list Cmd) :
  ∀ s s' out, transcript prog fuel s cs = Ok (s', out) ->
    ∃ out', run prog fuel s cs = Ok (s', out').
Proof.
  induction cs as [|c cs IH]; intros s s' out; simpl.
  - destruct (prompt prog s) as [p| |]; [|done|done]. cbn [mbind res_bind].
    intros [= <- _]. by eexists.
  - destruct (prompt prog s) as [p| |]; [|done|done]. cbn [mbind res_bind].
    destruct (exec prog fuel s c) as [[s1 o]| |]; [|done|done].
    cbn [mbind res_bind].
    destruct (transcript prog fuel s1 cs) as [[s2 o']| |] eqn:Ht;
      [|done|done].
    cbn [mbind res_bind]. intros [= <- _].
    destruct (IH s1 s2 o' Ht) as (out' & ->). cbn [mbind res_bind].
    by eexists.
Qed.

(** X16.  A script, one command line for each command and [exit] at the
    end, takes the loop through the sessions of [run]: the loop runs the
    commands in order, each in the session the one before has left, prints
    the prompt before each of them and before [exit], and leaves at
    [exit].  One round more than there are commands is enough. *)
Theorem main_loop_runs_the_script (prog : Program) (rounds fuel : nat)
    (s : Session) (cs : list Cmd) :
  Forall typed cs -> (length cs < rounds)%nat ->
  main_loop prog rounds fuel s (script cs +:+ "exit" +:+ nl)
  = transcript prog fuel s cs ∧
  ∀ s' out, transcript prog fuel s cs = Ok (s', out) ->
    ∃ out', run prog fuel s cs = Ok (s', out').
Proof.
  intros Hcs Hrounds. split; [by apply loop_on_script|].
  apply transcript_run.
Qed.

(** X16 for a session of three commands in linux-commands.c. *)
Lemma main_loop_runs_the_script_witness :
  ∃ s0 s1 : Session,
    start (boot 2) = Ok s0 ∧
    main_loop linux_commands_c 4 0 s0
      ("mkdir a" +:+ nl +:+ "cd a" +:+ nl +:+ "touch f" +:+ nl
       +:+ "exit" +:+ nl)
    = Ok (s1, "pseudo-linux:/> " +:+ created "a"
              +:+ "pseudo-linux:/> "
              +:+ "pseudo-linux:a> " +:+ file_created "f"
              +:+ "pseudo-linux:a> ").
Proof.
  eexists _, _.
  match goal with |- ?A ∧ _ =>
    assert A as HA by (vm_compute; reflexivity)
  end.
  split; [exact HA|].
  change ("mkdir a" +:+ nl +:+ "cd a" +:+ nl +:+ "touch f" +:+ nl
          +:+ "exit" +:+ nl)
    with (script [Mkdir (Some "a"); Cd (Some "a"); Touch (Some "f")]
          +:+ "exit" +:+ nl).
  rewrite (proj1 (main_loop_runs_the_script linux_commands_c 4 0 _
                    [Mkdir (Some "a"); Cd (Some "a"); Touch (Some "f")]
                    ltac:(apply (bool_decide_unpack _); vm_compute; exact I)
                    ltac:(simpl; lia))).
  vm_compute. reflexivity.
Defined.

(** ** Lines that are no command *)

Lemma spaces_length (k : nat) : String.length (spaces k) = k.
Proof. induction k as [|k IH]; simpl; [done|by rewrite IH]. Qed.

Lemma spaces_clean (k : nat) : clean (spaces k) = true.
Proof. induction k as [|k IH]; [done|exact IH]. Qed.

Lemma skip_delims_spaces (prog : Program) (k : nat) :
  skip_delims (delimiters prog) (spaces k) = "".
Proof. induction k as [|k IH]; [done|]. destruct prog; exact IH. Qed.

Lemma round_on_spaces (prog : Program) (fuel : nat) (s : Session)
    (k : nat) (rest : string) :
  (1 <= k <= 126)%nat ->
  main_round prog fuel s (spaces k +:+ nl +:+ rest)
  = p ← prompt prog s;
    match prog with
    | linux_commands_c => Fault
    | L2_c => Ok (s, p, Some rest)
    end.
Proof.
  intros Hk. unfold main_round.
  rewrite (fgets_line _ rest (spaces_clean k))
    by (rewrite spaces_length; lia).
  rewrite trim_newline_app.
  destruct k as [|k]; [lia|].
  assert (streq (spaces (S k)) "" = false) as -> by (by apply streq_false).
  assert (asks_for_list prog (spaces (S k)) = false) as ->.
  { destruct prog; [done|]. unfold asks_for_list.
    apply orb_false_iff. rewrite !streq_false. split; discriminate. }
  unfold strtok. rewrite skip_delims_spaces.
  destruct (prompt prog s); [|done|done]. by destruct prog.
Qed.

(** X17.  A line that holds spaces only has no token.  linux-commands.c
    passes the [NULL] that [strtok] returns to [strcmp], which is
    undefined behaviour, in the first round as in any other; L2.c tests
    the token and goes on to the next line. *)
Theorem line_of_spaces (prog : Program) (fuel : nat) (s : Session)
    (k : nat) (rest : string) :
  (1 <= k <= 126)%nat ->
  main_round prog fuel s (spaces k +:+ nl +:+ rest)
  = (p ← prompt prog s;
     match prog with
     | linux_commands_c => Fault
     | L2_c => Ok (s, p, Some rest)
     end) ∧
  ∀ rounds depth m,
    main linux_commands_c (S rounds) fuel depth m
         (spaces k +:+ nl +:+ rest) = Fault.
Proof.
  intros Hk. split; [by apply round_on_spaces|].
  intros rounds depth m. unfold main. rewrite start_spec.
  cbn [mbind res_bind]. simpl main_loop.
  rewrite (round_on_spaces linux_commands_c fuel _ k rest Hk).
  destruct (pool m); unfold prompt; cbn [cwd root];
    rewrite bool_decide_eq_true_2 by done; done.
Qed.

(** X17 for a line of two spaces at the start of the input. *)
Lemma line_of_spaces_witness :
  main linux_commands_c 5 100 100 (boot 3)
       ("  " +:+ nl +:+ "ls" +:+ nl +:+ "exit" +:+ nl) = Fault.
Proof.
  exact (proj2 (line_of_spaces linux_commands_c 100
                  (mkSession (boot 0) None None) 2
                  ("ls" +:+ nl +:+ "exit" +:+ nl)
                  ltac:(lia)) 4%nat 100%nat (boot 3)).
Defined.

(** The command words of each program. *)
Definition command_names (prog : Program) : list string :=
  match prog with
  | linux_commands_c =>
      ["exit"; "pwd"; "pwt"; "ls"; "touch"; "rm"; "mv"; "mkdir"; "cd"]
  | L2_c =>
      ["exit"; "touch"; "ls"; "rm"; "mv"; "chmod"; "mkdir"; "cd"; "pwd";
       "pwt"]
  end.



(** ** The whole program *)

Lemma fgets_bytes_le (n : nat) (input : string) :
  (String.length (fgets_bytes n input).2 <= String.length input)%nat.
Proof.
  revert input. induction n as [|n IH]; intros [|c input]; simpl; try lia.
  destruct (Ascii.eqb c LF); simpl; [lia|].
  specialize (IH input). destruct (fgets_bytes n input) as [l r].
  simpl in *. lia.
Qed.

Lemma fgets_bytes_S (n : nat) (c : Ascii.ascii) (input : string) :
  fgets_bytes (S n) (String c input)
  = if Ascii.eqb c LF then (String c "", input)
    else let '(l, r) := fgets_bytes n input in (String c l, r).
Proof. reflexivity. Qed.

(** Every line [fgets] returns takes at least one byte off the input. *)
Lemma fgets_shrinks (input line rest : string) :
  fgets LINE_LEN input = Some (line, rest) ->
  (String.length rest < String.length input)%nat.
Proof.
  unfold fgets. destruct input as [|c input]; [done|].
  pose (n := 126%nat). change (Z.to_nat (LINE_LEN - 1)) with (S n).
  clearbody n. rewrite fgets_bytes_S. destruct (Ascii.eqb c LF).
  - intros [= _ <-]. simpl. lia.
  - pose proof (fgets_bytes_le n input) as Hle.
    destruct (fgets_bytes n input) as [l r]. intros [= _ <-].
    simpl in *. lia.
Qed.


(** A round leads from a reachable session to a reachable session, and
    when the loop goes on the input has become shorter. *)
Lemma round_keeps_reachable (prog : Program) (fuel : nat) (s s' : Session)
    (input out : string) (next : option string) :
  reachable prog s ->
  main_round prog fuel s input = Ok (s', out, next) ->
  reachable prog s' ∧
  ∀ rest, next = Some rest ->
    (String.length rest < String.length input)%nat.
Proof.
  intros Hr. unfold main_round.
  destruct (prompt prog s) as [p| |]; [|done|done]. cbn [mbind res_bind].
  destruct (fgets LINE_LEN input) as [[line rest]|] eqn:Hget.
  2: { intros [= <- _ <-]. by split. }
  pose proof (fgets_shrinks _ _ _ Hget) as Hlt.
  assert (∀ o, Ok (s, o, Some rest) = Ok (s', out, next) ->
            reachable prog s' ∧
            ∀ rest0, next = Some rest0 ->
              (String.length rest0 < String.length input)%nat) as Hsame.
  { intros o [= <- _ <-]. split; [done|]. by intros ? [= <-]. }
  destruct (streq (trim_newline line) ""); [apply Hsame|].
  destruct (asks_for_list prog (trim_newline line)); [apply Hsame|].
  destruct (strtok (delimiters prog) (trim_newline line)) as [cmd saved].
  destruct (strtok (delimiters prog) saved) as [arg saved'].
  destruct cmd as [cmd|].
  2: { destruct prog; [done|apply Hsame]. }
  destruct (dispatch prog cmd arg saved') as [|c|].
  - intros [= <- _ <-]. by split.
  - destruct (exec prog fuel s c) as [[s1 o]| |] eqn:Hex; [|done|done].
    cbn [mbind res_bind]. intros [= <- _ <-].
    split; [by eapply reach_step|]. by intros ? [= <-].
  - apply Hsame.
Qed.

Lemma loop_keeps_reachable (prog : Program) (fuel : nat) (rounds : nat) :
  ∀ s s' input out,
    reachable prog s -> main_loop prog rounds fuel s input = Ok (s', out) ->
    reachable prog s'.
Proof.
  induction rounds as [|rounds IH]; intros s s' input out Hr; [done|].
  simpl.
  destruct (main_round prog fuel s input) as [[[s1 o] next]| |] eqn:Hround;
    [|done|done].
  cbn [mbind res_bind].
  destruct (round_keeps_reachable prog fuel s s1 input o next Hr Hround)
    as [Hr1 _].
  destruct next as [rest|]; [|by intros [= <- _]].
  destruct (main_loop prog rounds fuel s1 rest) as [[s2 o']| |] eqn:Hloop;
    [|done|done].
  cbn [mbind res_bind]. intros [= <- _]. by eapply IH.
Qed.





Lemma free_loop_mono (rec rec' : Memory -> ptr -> res (Memory * list addr)) :
  (∀ m c r, rec m c = Ok r -> rec' m c = Ok r) ->
  ∀ n n' m d i r,
    (n <= n')%nat -> free_loop rec n m d i = Ok r ->
    free_loop rec' n' m d i = Ok r.
Proof.
  intros Hrec. induction n as [|n IH]; intros n' m d i r Hle; [done|].
  destruct n' as [|n']; [lia|]. simpl.
  destruct (load m d) as [dd| |]; [|done|done]. cbn [mbind res_bind].
  case_decide; [|done].
  destruct (aget (d_subdirs dd) i) as [c| |]; [|done|done].
  cbn [mbind res_bind].
  destruct (rec m c) as [[m1 t1]| |] eqn:Hc; [|done|done].
  rewrite (Hrec _ _ _ Hc). cbn [mbind res_bind].
  destruct (free_loop rec n m1 d (i + 1)) as [[m2 t2]| |] eqn:Hl;
    [|done|done].
  rewrite (IH n' m1 d (i + 1) (m2, t2)) by (lia || done). done.
Qed.

(** More fuel does not change what [free_dir] returns. *)
Lemma free_dir_mono (n : nat) :
  ∀ n' m p r,
    (n <= n')%nat -> free_dir n m p = Ok r -> free_dir n' m p = Ok r.
Proof.
  induction n as [|n IH]; intros n' m p r Hle; [done|].
  destruct n' as [|n']; [lia|]. simpl. destruct p as [a|]; [|done].
  destruct (free_loop (free_dir n) n m (Some a) 0) as [[m1 t]| |] eqn:Hl;
    [|done|done].
  rewrite (free_loop_mono (free_dir n) (free_dir n')
             (λ m c r, IH n' m c r ltac:(lia)) n n' m (Some a) 0 (m1, t))
    by (lia || done).
  done.
Qed.

(** X20.  Whenever [main] returns, in either program, after a first
    [malloc] that succeeded, it returns 0 and has released every block:
    no block that [mkdir] obtained stays live, whatever the commands
    were. *)
Theorem main_releases_every_block (prog : Program) (rounds fuel depth : nat)
    (m m' : Memory) (input out : string) (z : Z) :
  initial m -> pool m ≠ [] ->
  main prog rounds fuel depth m input = Ok (m', out, z) ->
  cells m' = ∅ ∧ z = 0.
Proof.
  intros Hi Hp. unfold main.
  destruct (start m) as [s0| |] eqn:Hstart;
    [|by rewrite start_spec in Hstart..].
  assert (reachable prog s0) as Hr0 by (by eapply reach_start).
  cbn [mbind res_bind].
  destruct (main_loop prog rounds fuel s0 input) as [[s1 o]| |] eqn:Hloop;
    [|done|done].
  cbn [mbind res_bind].
  pose proof (loop_keeps_reachable prog fuel rounds s0 s1 input o Hr0 Hloop)
    as Hr1.
  destruct (free_dir depth (mem s1) (root s1)) as [[m1 tr]| |] eqn:Hfree;
    [|done|done].
  cbn [mbind res_bind]. intros [= <- _ <-]. split; [|done].
  destruct (reachable_tree prog s1 Hr1) as (t & Ht & Hnd & Hall).
  destruct (free_dir_spec t (depth `max` budget t) (mem s1) (root s1) Ht Hnd)
    as (m2 & Hfree2 & Hrel); [lia|].
  rewrite (free_dir_mono depth (depth `max` budget t) _ _ _
             ltac:(lia) Hfree) in Hfree2.
  injection Hfree2 as -> _.
  apply map_eq. intros x. rewrite Hrel, lookup_empty.
  case_decide as Hx; [done|].
  destruct (cells (mem s1) !! x) as [dx|] eqn:Hdx; [|done].
  exfalso. apply Hx, Hall. by rewrite Hdx.
Qed.

(** X20 for a run of linux-commands.c that made two directories. *)
Lemma main_releases_every_block_witness :
  ∃ (m' : Memory) (out : string),
    main linux_commands_c 10 100 100 (boot 3)
         ("mkdir a" +:+ nl +:+ "cd a" +:+ nl +:+ "mkdir b" +:+ nl
          +:+ "exit" +:+ nl) = Ok (m', out, 0) ∧
    cells m' = ∅.
Proof.
  eexists _, _.
  match goal with |- ?A ∧ _ =>
    assert A as HA by (vm_compute; reflexivity)
  end.
  split; [exact HA|].
  refine (proj1 (main_releases_every_block _ _ _ _ _ _ _ _ _
                   (boot_initial 3) _ HA)).
  discriminate.
Defined.

(** ** [pwd] at any depth the array can hold *)

Lemma exec_pwd_chain (prog : Program) (fuel : nat) (s : Session)
    (a : addr) (ns : list string) :
  reachable prog s -> cwd s = Some a -> chain (mem s) (Some a) ns ->
  (length ns <= 64)%nat -> (64 < fuel)%nat ->
  exec prog fuel s Pwd
  = Ok (s, match ns with
           | [_] => puts "/"
           | _ => path_text ns +:+ nl
           end).
Proof.
  intros Hr Hcwd Hc Hlen Hfuel.
  destruct (reachable_wf prog s Hr) as (Hm & _ & _).
  destruct s as [m r cw]. cbn [mem cwd root] in *. subst cw.
  pose proof Hc as Hc'. inversion Hc' as [|a' d ns' Ha Hup]; subst.
  destruct (d_parent d) as [q|] eqn:Hq.
  - assert (ns' ≠ []) as Hne.
    { intros ->. inversion Hup. }
    assert (match d_name d :: ns' with
            | [_] => puts "/"
            | _ => path_text (d_name d :: ns') +:+ nl
            end = path_text (d_name d :: ns') +:+ nl) as ->
      by (by destruct ns').
    destruct prog; unfold exec; cbn [mem cwd].
    + rewrite (LC_pwd_chain m fuel a (d_name d :: ns') Hc); [done| |lia].
      destruct ns'; simpl in *; [done|lia].
    + rewrite (L2_pwd_spec m fuel a d Hm Ha); [|by rewrite Hq|done].
      rewrite (ancestors_chain m (Some a) (d_name d :: ns') 64 Hc).
      by rewrite take_ge by done.
  - inversion Hup; subst.
    destruct prog; unfold exec; cbn [mem cwd].
    + by rewrite (LC_pwd_root m fuel a d Ha Hq).
    + by rewrite (L2_pwd_root m fuel a d Ha Hq).
Qed.

(** X21.  In a reachable session whose current directory has the chain
    of names [ns] up to the root, at most 64 of them: [pwd] prints [/] at
    the root, and below the root the names from the farthest to the
    nearest, each but the last followed by [/].  The farthest name is
    printed like any other: when it is the [/] of the root, the path
    begins with two separators. *)
Theorem pwd_prints_the_chain (prog : Program) (fuel : nat) (s : Session)
    (a : addr) (ns : list string) :
  reachable prog s -> cwd s = Some a -> chain (mem s) (Some a) ns ->
  (length ns <= 64)%nat -> (64 < fuel)%nat ->
  exec prog fuel s Pwd
  = Ok (s, match ns with
           | [_] => puts "/"
           | _ => path_text ns +:+ nl
           end) ∧
  ∀ up, up ≠ [] -> ns = up ++ ["/"] ->
    path_text ns = "//" +:+ path_text up.
Proof.
  intros Hr Hcwd Hc Hlen Hfuel.
  split; [by apply (exec_pwd_chain prog fuel s a ns)|].
  intros up Hup ->. by rewrite path_text_snoc.
Qed.

(** X21 three levels below the root. *)
Lemma pwd_prints_the_chain_witness :
  ∃ s : Session,
    session_after L2_c 4
      [Mkdir (Some "usr"); Cd (Some "usr"); Mkdir (Some "local");
       Cd (Some "local"); Mkdir (Some "bin"); Cd (Some "bin")] = Ok s ∧
    exec L2_c 65 s Pwd = Ok (s, "//usr/local/bin" +:+ nl).
Proof.
  eexists.
  match goal with |- ?A ∧ _ =>
    assert A as HA by (vm_compute; reflexivity)
  end.
  split; [exact HA|].
  rewrite (proj1 (pwd_prints_the_chain L2_c 65 _ 3%nat
                    ["bin"; "local"; "usr"; "/"]
                    (session_after_reachable _ 3 _ _ HA) eq_refl
                    ltac:(cbn [mem]; apply (walk_up_chain _ 10);
                          vm_compute; reflexivity)
                    ltac:(simpl; lia) ltac:(lia))).
  reflexivity.
Defined.

(** ** When the first [malloc] fails *)

(** The commands that read the current directory. *)
Definition needs_directory (prog : Program) (c : Cmd) : Prop :=
  match c with
  | Ls _ | Pwd | Touch (Some _) | Rm (Some _) | Mkdir (Some _)
  | Mv (Some _) (Some _) => True
  | Cd (Some arg) => arg ≠ "/" ∧ arg ≠ "."
  | Chmod (Some _) (Some _) => prog = L2_c
  | _ => False
  end.

(** X22.  [main] does not test the result of [create_dir]: when the
    first [malloc] fails, the root and the current directory are [NULL].
    The prompt is still printed and [exit] leaves with 0, but the first
    command that reads the current directory follows the [NULL] pointer,
    which is undefined behaviour. *)
Theorem unchecked_root_allocation (prog : Program) (rounds fuel depth : nat)
    (m : Memory) (c : Cmd) (rest : string) :
  pool m = [] -> typed c -> needs_directory prog c ->
  main prog (S rounds) fuel (S depth) m ("exit" +:+ nl)
  = Ok (m, "pseudo-linux:/> ", 0) ∧
  main prog (S rounds) fuel depth m (command_line c +:+ nl +:+ rest) = Fault.
Proof.
  intros Hpool Hc Hneeds. unfold main. rewrite start_spec, Hpool.
  cbn [mbind res_bind]. simpl main_loop.
  rewrite round_on_exit, (round_on_command prog fuel _ c rest Hc).
  assert (prompt prog (mkSession m None None) = Ok "pseudo-linux:/> ") as ->
    by (by destruct prog).
  cbn [mbind res_bind]. split; [done|].
  assert (exec prog fuel (mkSession m None None) c = Fault) as ->; [|done].
  destruct c as [[n|]|o|[n|]|[n1|] [n2|]|[n|]|[n|]| |[n1|] [n2|]];
    try done; destruct prog; try done; try discriminate Hneeds.
  all: destruct Hneeds as [H1 H2]; apply streq_false in H1, H2;
    unfold exec, LinuxCommands.cd_cmd, L2.cd_cmd; cbn [mem cwd root];
    rewrite H1, H2; by destruct (streq n "..").
Qed.

(** X22 for [ls] as the first command of L2.c. *)
Lemma unchecked_root_allocation_witness :
  main L2_c 3 65 10 (boot 0) ("ls" +:+ nl +:+ "exit" +:+ nl) = Fault.
Proof.
  change ("ls" +:+ nl +:+ "exit" +:+ nl)
    with (command_line (Ls None) +:+ nl +:+ "exit" +:+ nl).
  refine (proj2 (unchecked_root_allocation L2_c 2 65 10 (boot 0) (Ls None)
                   ("exit" +:+ nl) eq_refl _ I)).
  apply (bool_decide_unpack _). vm_compute. exact I.
Defined.

(** ** Lines longer than the buffer *)

Lemma fgets_bytes_full (n : nat) (line rest : string) :
  clean line = true -> String.length line = n ->
  fgets_bytes n (line +:+ rest) = (line, rest).
Proof.
  revert n. induction line as [|c line IH]; intros n Hc Hn.
  - simpl in Hn. subst n. by destruct rest.
  - destruct n as [|n]; [done|]. simpl in Hc.
    apply andb_true_iff in Hc as [Hc Hl]. apply negb_true_iff in Hc.
    apply orb_false_iff in Hc as [_ Hc].
    rewrite str_app_cons, fgets_bytes_S, Hc.
    rewrite IH; [done|done|simpl in Hn; lia].
Qed.

Lemma fgets_full (line rest : string) :
  clean line = true -> String.length line = 127%nat ->
  fgets LINE_LEN (line +:+ rest) = Some (line, rest).
Proof.
  intros Hc Hn. unfold fgets.
  change (Z.to_nat (LINE_LEN - 1)) with 127%nat.
  rewrite (fgets_bytes_full 127 line rest Hc Hn).
  pose proof (c_str_clean line "" Hc) as E.
  rewrite str_app_empty_r in E. change (c_str "") with "" in E.
  rewrite str_app_empty_r in E. rewrite E.
  destruct line; [done|]. by rewrite str_app_cons.
Qed.

(** X23.  The line buffer holds 127 bytes.  When 127 bytes arrive
    without a newline among them, the round takes them for a whole line,
    as if the input ended behind them, and whatever follows, the rest of
    the same line included, is left for the next round to read as a line
    of its own. *)
Theorem long_line_is_read_in_pieces (prog : Program) (fuel : nat)
    (s : Session) (line rest : string) :
  clean line = true -> String.length line = 127%nat ->
  main_round prog fuel s (line +:+ rest)
  = '(s', out, next) ← main_round prog fuel s line;
    Ok (s', out, match next with
                 | Some _ => Some rest
                 | None => None
                 end).
Proof.
  intros Hc Hn. unfold main_round.
  rewrite (fgets_full line rest Hc Hn).
  pose proof (fgets_full line "" Hc Hn) as E.
  rewrite str_app_empty_r in E. rewrite E.
  destruct (prompt prog s) as [p| |]; [|done|done]. cbn [mbind res_bind].
  destruct (streq (trim_newline line) ""); [done|].
  destruct (asks_for_list prog (trim_newline line)); [done|].
  destruct (strtok (delimiters prog) (trim_newline line)) as [cmd saved].
  destruct (strtok (delimiters prog) saved) as [arg saved'].
  destruct cmd as [cmd|]; [|by destruct prog].
  destruct (dispatch prog cmd arg saved') as [|c|]; [done| |done].
  by destruct (exec prog fuel s c) as [[s1 o]| |].
Qed.

(** X23 for [mkdir] with a name of 121 bytes, which fills the buffer, and
    [ls] typed behind it on the same line. *)
Lemma long_line_is_read_in_pieces_witness :
  ∃ (s0 s1 : Session) (out : string),
    start (boot 2) = Ok s0 ∧
    main_round L2_c 0 s0
      (("mkdir " +:+ concat_str (replicate 121 "a")) +:+ "ls" +:+ nl)
    = Ok (s1, out, Some ("ls" +:+ nl)).
Proof.
  eexists _, _, _.
  match goal with |- ?A ∧ _ =>
    assert A as HA by (vm_compute; reflexivity)
  end.
  split; [exact HA|].
  rewrite long_line_is_read_in_pieces.
  - vm_compute. reflexivity.
  - vm_compute. reflexivity.
  - vm_compute. reflexivity.
Defined.

(** ** The two look-ups *)

(** X24.  In a reachable session [find_file_index] and
    [find_subdir_index] return, for any name, either -1, and then no file
    (no sub-directory) in use carries the name, or the index, below the
    count, of the first entry in use that carries it; the whole name is
    compared. *)
Theorem lookups_return_the_first_match (prog : Program) (s : Session)
    (a : addr) (d : Dir) (name : string) :
  reachable prog s -> cells (mem s) !! a = Some d ->
  (∃ r, find_file_index (mem s) (Some a) name = Ok r ∧
     ((r = -1 ∧ ∀ f, f ∈ files_of d -> f_name f ≠ name) ∨
      (0 <= r < d_file_count d ∧
       ∃ f, files_of d !! Z.to_nat r = Some f ∧ f_name f = name ∧
            ∀ j g, files_of d !! j = Some g -> (j < Z.to_nat r)%nat ->
                   f_name g ≠ name))) ∧
  (∃ r, find_subdir_index (mem s) (Some a) name = Ok r ∧
     ((r = -1 ∧ ∀ c, c ∈ children d -> name_at (mem s) c ≠ Some name) ∨
      (0 <= r < d_subdir_count d ∧
       ∃ c, children d !! Z.to_nat r = Some c ∧
            name_at (mem s) c = Some name ∧
            ∀ j c', children d !! j = Some c' -> (j < Z.to_nat r)%nat ->
                    name_at (mem s) c' ≠ Some name))).
Proof.
  intros Hr Ha.
  destruct (reachable_wf prog s Hr) as (Hm & _ & _).
  pose proof (proj1 Hm a d Ha) as Hwf. split.
  - rewrite (find_file_index_spec (mem s) a d name Ha Hwf).
    eexists. split; [done|].
    pose proof (index_in_range (λ f, f_name f = name) (files_of d)) as Hrg.
    rewrite (files_of_length (mem s) d Hwf) in Hrg.
    destruct Hrg as [Hnone|Hsome].
    + left. split; [done|]. apply index_in_none in Hnone.
      rewrite Forall_forall in Hnone. exact Hnone.
    + right. split; [lia|].
      destruct (index_in_some (λ f, f_name f = name) (files_of d) _ eq_refl)
        as (f & Hf & Hn & Hfirst); [lia|].
      exists f. by repeat split.
  - rewrite (find_subdir_index_spec (mem s) a d name Ha Hwf).
    eexists. split; [done|].
    pose proof (index_in_range (λ p, name_at (mem s) p = Some name)
                  (children d)) as Hrg.
    rewrite (children_length (mem s) d Hwf) in Hrg.
    destruct Hrg as [Hnone|Hsome].
    + left. split; [done|]. apply index_in_none in Hnone.
      rewrite Forall_forall in Hnone. exact Hnone.
    + right. split; [lia|].
      destruct (index_in_some (λ p, name_at (mem s) p = Some name)
                  (children d) _ eq_refl)
        as (c & Hc & Hn & Hfirst); [lia|].
      exists c. by repeat split.
Qed.

(** X24 in a directory with three files: the second is found at index
    1. *)
Lemma lookups_return_the_first_match_witness :
  ∃ (s : Session) (d : Dir),
    session_after L2_c 1
      [Touch (Some "e"); Touch (Some "f"); Touch (Some "g")] = Ok s ∧
    cells (mem s) !! 0%nat = Some d ∧
    ∃ r, find_file_index (mem s) (Some 0%nat) "f" = Ok r ∧
         (r = -1 ∨ 0 <= r < d_file_count d).
Proof.
  eexists _, _.
  match goal with |- ?A ∧ ?B ∧ _ =>
    assert A as HA by (vm_compute; reflexivity);
    assert B as HB by (vm_compute; reflexivity)
  end.
  split; [exact HA|]. split; [exact HB|].
  destruct (proj1 (lookups_return_the_first_match L2_c _ 0%nat _ "f"
                     (session_after_reachable _ 0 _ _ HA) HB))
    as (r & Hr & [[H _]|[H _]]).
  - exists r. split; [exact Hr|by left].
  - exists r. split; [exact Hr|by right].
Defined.

(** ** The list of commands of L2.c *)

(** X25.  L2.c answers the line [コマンドリスト], and the same with a
    space after the fourth character, by the list of its commands, ten
    lines, and leaves the session as it is; the line is compared before
    it is split, so it must be given exactly.  linux-commands.c has no
    such list and answers [command not found]. *)
Theorem list_of_commands (prog : Program) (fuel : nat) (s : Session)
    (line rest : string) :
  line = "コマンドリスト" ∨ line = "コマンド リスト" ->
  main_round prog fuel s (line +:+ nl +:+ rest)
  = p ← prompt prog s;
    Ok (s, p +:+ match prog with
                 | linux_commands_c => puts "command not found"
                 | L2_c => show_commands_jp
                 end, Some rest).
Proof.
  intros Hline.
  assert (∃ w args, line = unwords (w :: args) ∧
            Forall plain_word (w :: args) ∧
            (String.length line <= 126)%nat ∧
            w ∉ command_names linux_commands_c) as (w & args & Hw & Hws & Hlen & Hno).
  { destruct Hline as [-> | ->].
    - exists "コマンドリスト", []. split; [done|].
      split; [|split; [simpl; lia|]];
        apply (bool_decide_unpack _); vm_compute; exact I.
    - exists "コマンド", ["リスト"]. split; [done|].
      split; [|split; [simpl; lia|]];
        apply (bool_decide_unpack _); vm_compute; exact I. }
  destruct prog.
  - rewrite Hw. rewrite Hw in Hlen.
    rewrite (round_on_words linux_commands_c fuel s w args rest Hws Hlen)
      by done.
    destruct (prompt linux_commands_c s) as [p| |]; [|done|done].
    cbn [mbind res_bind].
    assert (∀ x, x ∈ command_names linux_commands_c -> streq w x = false)
      as Hne.
    { intros x Hx. apply streq_false. intros ->. by apply Hno. }
    unfold dispatch.
    rewrite !Hne by (apply list_elem_of_In; simpl; tauto). done.
  - unfold main_round.
    rewrite (fgets_line line rest); [|rewrite Hw; by apply clean_unwords|done].
    rewrite trim_newline_app.
    destruct (prompt L2_c s) as [p| |]; [|done|done]. cbn [mbind res_bind].
    destruct Hline as [-> | ->]; done.
Qed.

(** X25 in the first round of L2.c. *)
Lemma list_of_commands_witness :
  main_round L2_c 0 (mkSession (boot 0) None None)
    ("コマンドリスト" +:+ nl +:+ "")
  = Ok (mkSession (boot 0) None None,
        "pseudo-linux:/> " +:+ show_commands_jp, Some "").
Proof.
  rewrite (list_of_commands L2_c 0 _ "コマンドリスト" "" (or_introl eq_refl)).
  reflexivity.
Defined.

(** ** [touch], case by case *)

(** X26.  [touch] is all or nothing, and the two programs test in
    different orders.  In a reachable session linux-commands.c first
    tests the name against the files and the sub-directories, then the
    room; L2.c tests the name against the files, then the room, then the
    name against the sub-directories.  When a test fails the message of
    that test is printed and the session is left as it is.  Otherwise
    one file is added behind the files in use: its name is the argument
    cut to 31 bytes, its size 0, its permissions [rw-], its content
    empty; nothing else changes. *)
Theorem touch_is_all_or_nothing (prog : Program) (fuel : nat) (s : Session)
    (a : addr) (d : Dir) (n : string) :
  reachable prog s -> cwd s = Some a -> cells (mem s) !! a = Some d ->
  let made :=
    (mkSession (upd (mem s) a (add_file d (new_file n))) (root s) (cwd s),
     file_created n) in
  exec prog fuel s (Touch (Some n))
  = Ok match prog with
       | linux_commands_c =>
           if decide (taken (mem s) d n) then (s, puts "name already exists")
           else if decide (d_file_count d >= MAX_FILES)
           then (s, puts "file limit reached")
           else made
       | L2_c =>
           if decide (n ∈ file_names d)
           then (s, "file '" +:+ n +:+ "' already exists" +:+ nl)
           else if decide (d_file_count d >= MAX_FILES)
           then (s, puts "file limit reached")
           else if decide (n ∈ subdir_names (mem s) d)
           then (s, "name '" +:+ n +:+ "' already used by directory" +:+ nl)
           else made
       end ∧
  same_frame d (add_file d (new_file n)) ∧
  (d_file_count d < MAX_FILES ->
   files_of (add_file d (new_file n))
   = files_of d ++ [mkFile (str_take 31 n) 0 "rw-" ""]).
Proof.
  intros Hr Hcwd Ha made.
  destruct (reachable_wf prog s Hr) as (Hm & _ & _).
  pose proof (proj1 Hm a d Ha) as Hwf.
  split; [|split; [apply same_frame_add_file|]].
  - unfold made. destruct s as [m r cw]. cbn [mem cwd root] in *. subst cw.
    destruct prog; unfold exec, keep_cwd; cbn [mem cwd root].
    + rewrite (LC_touch_spec m a d n Ha Hwf). cbn [mbind res_bind].
      by repeat case_decide.
    + rewrite (L2_touch_spec m a d n Ha Hwf). cbn [mbind res_bind].
      by repeat case_decide.
  - intros Hroom. by apply (files_of_add_file (mem s)).
Qed.

(** X26 where the two programs differ: the directory is full and the
    name is the name of a sub-directory. *)
Lemma touch_is_all_or_nothing_witness :
  ∃ (s : Session) (d : Dir),
    session_after L2_c 2
      (Mkdir (Some "a")
       :: touch_all ["0"; "1"; "2"; "3"; "4"; "5"; "6"; "7"; "8"; "9";
                     "10"; "11"; "12"; "13"; "14"; "15"]) = Ok s ∧
    cells (mem s) !! 0%nat = Some d ∧
    exec L2_c 0 s (Touch (Some "a")) = Ok (s, puts "file limit reached").
Proof.
  eexists _, _.
  match goal with |- ?A ∧ ?B ∧ _ =>
    assert A as HA by (vm_compute; reflexivity);
    assert B as HB by (vm_compute; reflexivity)
  end.
  split; [exact HA|]. split; [exact HB|].
  rewrite (proj1 (touch_is_all_or_nothing L2_c 0 _ 0%nat _ "a"
                    (session_after_reachable _ 1 _ _ HA) eq_refl HB)).
  vm_compute. reflexivity.
Defined.

(** ** [pwd] of L2.c on a long chain *)

(** X27.  [pwd] of L2.c stops its walk after 64 blocks: in a reachable
    session whose current directory has more than 64 names up to the
    root, it returns and prints the 64 nearest of them, the farthest of
    these first and without a separator before it; the names above,
    the root's among them, are left out. *)
Theorem L2_pwd_keeps_the_nearest_64 (fuel : nat) (s : Session) (a : addr)
    (ns : list string) :
  reachable L2_c s -> cwd s = Some a -> chain (mem s) (Some a) ns ->
  (64 < length ns)%nat -> (64 < fuel)%nat ->
  exec L2_c fuel s Pwd = Ok (s, path_text (take 64 ns) +:+ nl).
Proof.
  intros Hr Hcwd Hc Hlen Hfuel.
  destruct (reachable_wf L2_c s Hr) as (Hm & _ & _).
  destruct s as [m r cw]. cbn [mem cwd root] in *. subst cw.
  pose proof Hc as Hc'. inversion Hc' as [|a' d ns' Ha Hup]; subst.
  destruct (d_parent d) as [q|] eqn:Hq.
  2: { inversion Hup; subst. simpl in Hlen. lia. }
  unfold exec. cbn [mem cwd].
  rewrite (L2_pwd_spec m fuel a d Hm Ha); [|by rewrite Hq|done].
  by rewrite (ancestors_chain m (Some a) (d_name d :: ns') 64 Hc).
Qed.

(** X27 65 levels below the root: 64 names, the root is left out. *)
Lemma L2_pwd_keeps_the_nearest_64_witness :
  ∃ s : Session,
    session_after L2_c 66 (nest 65) = Ok s ∧
    exec L2_c 100 s Pwd = Ok (s, path_text (replicate 64 "d") +:+ nl).
Proof.
  eexists.
  match goal with |- ?A ∧ _ =>
    assert A as HA by (vm_compute; reflexivity)
  end.
  split; [exact HA|].
  rewrite (L2_pwd_keeps_the_nearest_64 100 _ 65%nat
             (replicate 65 "d" ++ ["/"])
             (session_after_reachable _ 65 _ _ HA) eq_refl).
  - reflexivity.
  - cbn [mem]. apply (walk_up_chain _ 100). vm_compute. reflexivity.
  - vm_compute. lia.
  - lia.
Defined.
